(** * TostEngine pocket sampler: a model of the sample-trigger engine

    The development follows the C++ sources of the sampler
    ([SamplerPlugin.h], [SamplerPlugin.cpp], [SamplerEditor.cpp], [Main.cpp]):
    the sample slots and their buffers, the synthesiser sounds and voices,
    the learn flags of the editor, and the JSON export and import.

    Floating-point arithmetic is kept abstract: every operation the code
    performs on [float] or [double] values is a field of [FloatOps], so the
    theorems hold for whatever rounding the machine implements.  Sample
    buffers live in an explicit heap because slots, sounds and voices all
    hold raw pointers to the same [AudioSampleBuffer]. *)

From stdpp Require Import base option list gmap strings pretty.
From Stdlib Require Import ZArith QArith Reals Lra Lia.

Open Scope Z_scope.

(** ** Floating-point operations used by the sources *)

Class FloatOps (F : Type) := {
  fzero : F;                       (* 0.0f *)
  fone : F;                        (* 1.0f *)
  fadd : F -> F -> F;              (* sample += x ; out += x *)
  fmul : F -> F -> F;              (* sample * velocity *)
  fdiv_int : F -> Z -> F;          (* sample /= getNumChannels() *)
  pos_advance : F -> F -> F;       (* position += pitchRatio *)
  pos_ge_len : F -> Z -> bool;     (* position >= getNumSamples() *)
  pos_trunc : F -> Z;              (* static_cast<int>(position) *)
  rate_positive : F -> bool;       (* sourceSampleRate > 0 *)
  semitone_ratio : Z -> F;         (* pow(2.0, d / 12.0) *)
  velocity_of_byte : Z -> F        (* velocity byte scaled to 0..1 *)
}.

(** The one numeric fact the sources rely on: [pow(2.0, 0 / 12.0)] is [1.0]. *)
Class FloatLaws (F : Type) `{FloatOps F} : Prop := {
  semitone_ratio_0 : semitone_ratio 0 = fone
}.

(** 32-bit [int] arithmetic, wrap-around written out. *)
Definition wrap32 (z : Z) : Z := (z + 2^31) mod 2^32 - 2^31.
Definition int_sub (a b : Z) : Z := wrap32 (a - b).

(** A pointer to a heap-allocated [AudioSampleBuffer]; [None] is [nullptr]. *)
Definition ptr : Type := option nat.

Section Engine.
Context {F : Type} `{FloatOps F}.

(** ** Sample buffers and the heap *)

Record AudioSampleBuffer := mkBuffer {
  numSamples : Z;
  channels : list (list F)
}.

Definition getNumChannels (b : AudioSampleBuffer) : Z :=
  Z.of_nat (length (channels b)).

Record Heap := mkHeap {
  cells : gmap nat AudioSampleBuffer;
  nextAddr : nat
}.

Definition heap_empty : Heap := mkHeap ∅ 0.

(* new AudioSampleBuffer(...) *)
Definition heap_new (b : AudioSampleBuffer) (h : Heap) : nat * Heap :=
  (nextAddr h, mkHeap (<[nextAddr h := b]> (cells h)) (S (nextAddr h))).

(* delete p *)
Definition heap_delete (a : nat) (h : Heap) : Heap :=
  mkHeap (delete a (cells h)) (nextAddr h).

Definition heap_read (h : Heap) (a : nat) : option AudioSampleBuffer :=
  cells h !! a.

(** ** SamplerPlugin.h: ButtonSample *)

Record ButtonSample := mkButtonSample {
  bs_sampleBuffer : ptr;
  bs_filePath : string;
  bs_sourceSampleRate : F;
  bs_isLoaded : bool;
  bs_rootNote : Z
}.

(* ButtonSample::ButtonSample() *)
Definition ButtonSample_new : ButtonSample :=
  mkButtonSample None EmptyString fzero false 60.

(* ButtonSample::clear() *)
Definition ButtonSample_clear (h : Heap) (s : ButtonSample) : Heap * ButtonSample :=
  let h' := match bs_sampleBuffer s with
            | Some a => heap_delete a h
            | None => h
            end in
  (h', mkButtonSample None EmptyString fzero false 60).

(** ** SamplerPlugin.h: ButtonSampleSound *)

Record ButtonSampleSound := mkSound {
  snd_buttonIndex : Z;
  snd_sampleBuffer : ptr;
  snd_sourceSampleRate : F;
  snd_rootNote : Z
}.

Definition appliesToNote (s : ButtonSampleSound) (midiNote : Z) : bool :=
  midiNote =? snd_rootNote s.

Definition appliesToChannel (s : ButtonSampleSound) (midiChannel : Z) : bool :=
  true.

(** ** SamplerPlugin.h: MidiSamplerVoice

    The last three fields belong to the [SynthesiserVoice] base class; the
    voice reads and resets them through [clearCurrentNote]. *)

Record MidiSamplerVoice := mkVoice {
  v_isPlaying : bool;
  v_velocity : F;
  v_position : F;
  v_pitchRatio : F;
  v_midiNoteNumber : Z;
  v_rootNote : Z;
  v_sampleBuffer : ptr;
  v_sourceSampleRate : F;
  v_currentlyPlayingNote : Z;
  v_currentPlayingMidiChannel : Z;
  v_currentlyPlayingSound : option ButtonSampleSound
}.

(* member initialisers of MidiSamplerVoice; the base class starts with
   currentlyPlayingNote = -1 and no sound.  44100.0 is only ever stored,
   never computed with, so the default rate is a parameter. *)
Definition MidiSamplerVoice_new (defaultRate : F) : MidiSamplerVoice :=
  mkVoice false fzero fzero fone 60 60 None defaultRate (-1) 0 None.

(* SynthesiserVoice::clearCurrentNote() *)
Definition clearCurrentNote (v : MidiSamplerVoice) : MidiSamplerVoice :=
  mkVoice (v_isPlaying v) (v_velocity v) (v_position v) (v_pitchRatio v)
          (v_midiNoteNumber v) (v_rootNote v) (v_sampleBuffer v)
          (v_sourceSampleRate v) (-1) 0 None.

Definition set_isPlaying (b : bool) (v : MidiSamplerVoice) : MidiSamplerVoice :=
  mkVoice b (v_velocity v) (v_position v) (v_pitchRatio v)
          (v_midiNoteNumber v) (v_rootNote v) (v_sampleBuffer v)
          (v_sourceSampleRate v) (v_currentlyPlayingNote v)
          (v_currentPlayingMidiChannel v) (v_currentlyPlayingSound v).

Definition set_position (p : F) (v : MidiSamplerVoice) : MidiSamplerVoice :=
  mkVoice (v_isPlaying v) (v_velocity v) p (v_pitchRatio v)
          (v_midiNoteNumber v) (v_rootNote v) (v_sampleBuffer v)
          (v_sourceSampleRate v) (v_currentlyPlayingNote v)
          (v_currentPlayingMidiChannel v) (v_currentlyPlayingSound v).

(* MidiSamplerVoice::startNote; [sound] is the result of the dynamic_cast,
   [None] when the sound is not a ButtonSampleSound. *)
Definition startNote (midiNoteNumber : Z) (velocity : F)
    (sound : option ButtonSampleSound) (v : MidiSamplerVoice) : MidiSamplerVoice :=
  match sound with
  | Some buttonSound =>
      let rate := snd_sourceSampleRate buttonSound in
      let root := snd_rootNote buttonSound in
      let ratio := if rate_positive rate
                   then semitone_ratio (int_sub midiNoteNumber root)
                   else fone in
      mkVoice true velocity fzero ratio midiNoteNumber root
              (snd_sampleBuffer buttonSound) rate
              (v_currentlyPlayingNote v) (v_currentPlayingMidiChannel v)
              (v_currentlyPlayingSound v)
  | None =>
      mkVoice true velocity fzero fone midiNoteNumber (v_rootNote v)
              None (v_sourceSampleRate v)
              (v_currentlyPlayingNote v) (v_currentPlayingMidiChannel v)
              (v_currentlyPlayingSound v)
  end.

(* MidiSamplerVoice::stopNote; [oneShot] is OneShotMode::getEnabled(). *)
Definition stopNote (oneShot : bool) (velocity : F) (allowTailOff : bool)
    (v : MidiSamplerVoice) : MidiSamplerVoice :=
  if oneShot then v
  else
    let v1 := set_isPlaying false v in
    if allowTailOff then v1 else clearCurrentNote v1.

(* MidiSamplerVoice::setSample *)
Definition setSample (sound : ButtonSampleSound) (v : MidiSamplerVoice) : MidiSamplerVoice :=
  mkVoice (v_isPlaying v) (v_velocity v) (v_position v) (v_pitchRatio v)
          (v_midiNoteNumber v) (snd_rootNote sound) (snd_sampleBuffer sound)
          (snd_sourceSampleRate sound) (v_currentlyPlayingNote v)
          (v_currentPlayingMidiChannel v) (v_currentlyPlayingSound v).

(** *** renderNextBlock

    The output is an [AudioBuffer<float>]: one list of frames per channel.
    A result of [None] stands for undefined behaviour of the C++ code: a
    read through a pointer whose buffer was deleted, a remainder by zero,
    or an index outside an array. *)

Definition AudioBuffer : Type := list (list F).

(* the inner loop over the source channels: sample += channelData[samplePos] *)
Fixpoint read_channels (len : Z) (pos : F) (chs : list (list F)) (sample : F) : option F :=
  match chs with
  | [] => Some sample
  | channelData :: rest =>
      if len =? 0 then None
      else
        let samplePos := Z.rem (pos_trunc pos) len in
        if samplePos <? 0 then None
        else
          match channelData !! Z.to_nat samplePos with
          | Some x => read_channels len pos rest (fadd sample x)
          | None => None
          end
  end.

(* the loop over the output channels: out[ch][outputIndex] += value *)
Fixpoint write_channels (outputIndex : Z) (value : F) (out : AudioBuffer) : option AudioBuffer :=
  match out with
  | [] => Some []
  | ch :: rest =>
      if outputIndex <? 0 then None
      else
        match ch !! Z.to_nat outputIndex with
        | Some old =>
            match write_channels outputIndex value rest with
            | Some rest' => Some (<[Z.to_nat outputIndex := fadd old value]> ch :: rest')
            | None => None
            end
        | None => None
        end
  end.

(* the for-loop of renderNextBlock, [count] iterations left, at index [i] *)
Fixpoint render_loop (buf : AudioSampleBuffer) (startSample i : Z) (count : nat)
    (v : MidiSamplerVoice) (out : AudioBuffer) : option (MidiSamplerVoice * AudioBuffer) :=
  match count with
  | O => Some (v, out)
  | S count' =>
      let outputIndex := startSample + i in
      match read_channels (numSamples buf) (v_position v) (channels buf) fzero with
      | None => None
      | Some sum =>
          let sample := fdiv_int sum (getNumChannels buf) in
          let v1 := set_position (pos_advance (v_position v) (v_pitchRatio v)) v in
          if pos_ge_len (v_position v1) (numSamples buf)
          then Some (clearCurrentNote (set_isPlaying false v1), out)
          else
            match write_channels outputIndex (fmul sample (v_velocity v)) out with
            | None => None
            | Some out' => render_loop buf startSample (i + 1) count' v1 out'
            end
      end
  end.

Definition renderNextBlock (h : Heap) (startSample numFrames : Z)
    (v : MidiSamplerVoice) (out : AudioBuffer) : option (MidiSamplerVoice * AudioBuffer) :=
  match v_sampleBuffer v with
  | None => Some (v, out)
  | Some a =>
      if negb (v_isPlaying v) then Some (v, out)
      else
        match Z.to_nat numFrames with
        | O => Some (v, out)          (* the loop body never runs *)
        | S _ =>
            match heap_read h a with
            | None => None
            | Some buf => render_loop buf startSample 0 (Z.to_nat numFrames) v out
            end
        end
  end.

(** ** The Synthesiser of the audio framework

    [Synthesiser] is a class of the JUCE framework, not of this repository;
    its voice management is written here after the framework's
    [noteOn], [startVoice], [noteOff], [findFreeVoice] and [renderVoices].
    Pedals, pitch wheel and aftertouch are left out: the voice ignores the
    latter two, and no pedal message is interpreted here.  Which voice is
    stolen when none is free is the framework's business and stays a
    parameter. *)

Record Synthesiser := mkSynth {
  sounds : list ButtonSampleSound;
  voices : list MidiSamplerVoice
}.

(* SynthesiserVoice::isVoiceActive *)
Definition isVoiceActive (v : MidiSamplerVoice) : bool :=
  0 <=? v_currentlyPlayingNote v.

Fixpoint find_index {A} (p : A -> bool) (l : list A) : option nat :=
  match l with
  | [] => None
  | x :: rest => if p x then Some O else S <$> find_index p rest
  end.

Definition StealPolicy : Type :=
  list MidiSamplerVoice -> ButtonSampleSound -> Z -> Z -> option nat.

Definition findFreeVoice (steal : StealPolicy) (vs : list MidiSamplerVoice)
    (sound : ButtonSampleSound) (midiChannel midiNote : Z) : option nat :=
  match find_index (fun v => negb (isVoiceActive v)) vs with
  | Some i => Some i
  | None => steal vs sound midiChannel midiNote
  end.

Definition set_current (note channel : Z) (sound : option ButtonSampleSound)
    (v : MidiSamplerVoice) : MidiSamplerVoice :=
  mkVoice (v_isPlaying v) (v_velocity v) (v_position v) (v_pitchRatio v)
          (v_midiNoteNumber v) (v_rootNote v) (v_sampleBuffer v)
          (v_sourceSampleRate v) note channel sound.

(* Synthesiser::startVoice *)
Definition startVoice (oneShot : bool) (sound : ButtonSampleSound)
    (midiChannel midiNote : Z) (velocity : F) (v : MidiSamplerVoice) : MidiSamplerVoice :=
  let v1 := match v_currentlyPlayingSound v with
            | Some _ => stopNote oneShot fzero false v
            | None => v
            end in
  startNote midiNote velocity (Some sound)
            (set_current midiNote midiChannel (Some sound) v1).

(* the voice is still ringing with this note: stopVoice (voice, 1.0f, true) *)
Definition stop_ringing (oneShot : bool) (midiChannel midiNote : Z)
    (v : MidiSamplerVoice) : MidiSamplerVoice :=
  if (v_currentlyPlayingNote v =? midiNote)
     && (v_currentPlayingMidiChannel v =? midiChannel)
  then stopNote oneShot fone true v
  else v.

Definition noteOn_sound (steal : StealPolicy) (oneShot : bool)
    (midiChannel midiNote : Z) (velocity : F)
    (vs : list MidiSamplerVoice) (sound : ButtonSampleSound) : list MidiSamplerVoice :=
  if appliesToNote sound midiNote && appliesToChannel sound midiChannel
  then
    let vs1 := map (stop_ringing oneShot midiChannel midiNote) vs in
    match findFreeVoice steal vs1 sound midiChannel midiNote with
    | Some i =>
        match vs1 !! i with
        | Some v => <[i := startVoice oneShot sound midiChannel midiNote velocity v]> vs1
        | None => vs1
        end
    | None => vs1
    end
  else vs.

(* Synthesiser::noteOn *)
Definition noteOn (steal : StealPolicy) (oneShot : bool)
    (midiChannel midiNote : Z) (velocity : F) (s : Synthesiser) : Synthesiser :=
  mkSynth (sounds s)
          (foldl (noteOn_sound steal oneShot midiChannel midiNote velocity)
                 (voices s) (sounds s)).

Definition noteOff_voice (oneShot : bool) (midiChannel midiNote : Z)
    (velocity : F) (allowTailOff : bool) (v : MidiSamplerVoice) : MidiSamplerVoice :=
  if (v_currentlyPlayingNote v =? midiNote)
     && (v_currentPlayingMidiChannel v =? midiChannel)
  then
    match v_currentlyPlayingSound v with
    | Some sound =>
        if appliesToNote sound midiNote && appliesToChannel sound midiChannel
        then stopNote oneShot velocity allowTailOff v
        else v
    | None => v
    end
  else v.

(* Synthesiser::noteOff *)
Definition noteOff (oneShot : bool) (midiChannel midiNote : Z)
    (velocity : F) (allowTailOff : bool) (s : Synthesiser) : Synthesiser :=
  mkSynth (sounds s)
          (map (noteOff_voice oneShot midiChannel midiNote velocity allowTailOff)
               (voices s)).

(* Synthesiser::allNotesOff *)
Definition allNotesOff (oneShot : bool) (midiChannel : Z) (allowTailOff : bool)
    (s : Synthesiser) : Synthesiser :=
  mkSynth (sounds s)
          (map (fun v => if (midiChannel <=? 0)
                            || (v_currentPlayingMidiChannel v =? midiChannel)
                         then stopNote oneShot fone allowTailOff v
                         else v)
               (voices s)).

(* Synthesiser::renderVoices: every voice adds into the same output *)
Fixpoint renderVoices (h : Heap) (startSample numFrames : Z)
    (vs : list MidiSamplerVoice) (out : AudioBuffer)
    : option (list MidiSamplerVoice * AudioBuffer) :=
  match vs with
  | [] => Some ([], out)
  | v :: rest =>
      match renderNextBlock h startSample numFrames v out with
      | None => None
      | Some (v', out1) =>
          match renderVoices h startSample numFrames rest out1 with
          | None => None
          | Some (rest', out2) => Some (v' :: rest', out2)
          end
      end
  end.

(* Synthesiser::removeSound(i) for every i the caller's test selects *)
Definition removeSounds (p : ButtonSampleSound -> bool) (s : Synthesiser) : Synthesiser :=
  mkSynth (filter (fun x => negb (p x) = true) (sounds s)) (voices s).

(* Synthesiser::addSound *)
Definition addSound (x : ButtonSampleSound) (s : Synthesiser) : Synthesiser :=
  mkSynth (sounds s ++ [x]) (voices s).

(** ** MIDI messages

    A message is its status kind and data bytes.  As in the framework, a
    note-on with velocity 0 counts as a note-off.  [MidiAllNotesOff] is
    the controller message 123 (all notes off) or 120 (all sound off). *)

Inductive MidiMessage :=
| MidiNoteOn (channel note velocity : Z)
| MidiNoteOff (channel note velocity : Z)
| MidiAllNotesOff (channel : Z) (soundOff : bool)
| MidiOther (data1 : Z).

Definition isNoteOn (m : MidiMessage) : bool :=
  match m with
  | MidiNoteOn _ _ vel => negb (vel =? 0)
  | _ => false
  end.

Definition isNoteOff (m : MidiMessage) : bool :=
  match m with
  | MidiNoteOff _ _ _ => true
  | MidiNoteOn _ _ vel => vel =? 0
  | _ => false
  end.

Definition isAllNotesOff (m : MidiMessage) : bool :=
  match m with
  | MidiAllNotesOff _ _ => true
  | _ => false
  end.

Definition getNoteNumber (m : MidiMessage) : Z :=
  match m with
  | MidiNoteOn _ n _ | MidiNoteOff _ n _ => n
  | MidiAllNotesOff _ soundOff => if soundOff then 120 else 123
  | MidiOther d => d
  end.

Definition getChannel (m : MidiMessage) : Z :=
  match m with
  | MidiNoteOn c _ _ | MidiNoteOff c _ _ | MidiAllNotesOff c _ => c
  | MidiOther _ => 0
  end.

Definition getVelocity (m : MidiMessage) : Z :=
  match m with
  | MidiNoteOn _ _ v | MidiNoteOff _ _ v => v
  | MidiAllNotesOff _ _ | MidiOther _ => 0
  end.

(* MidiMessage::noteOn (channel, note, velocity): the note is masked to 7 bits *)
Definition MidiMessage_noteOn (channel note velocity : Z) : MidiMessage :=
  MidiNoteOn channel (Z.land note 127) (Z.min velocity 127).

(* MidiMessage::noteOff (channel, note, velocity) *)
Definition MidiMessage_noteOff (channel note velocity : Z) : MidiMessage :=
  MidiNoteOff channel (Z.land note 127) (Z.min velocity 127).

(* Synthesiser::handleMidiEvent *)
Definition handleMidiEvent (steal : StealPolicy) (oneShot : bool)
    (m : MidiMessage) (s : Synthesiser) : Synthesiser :=
  if isNoteOn m
  then noteOn steal oneShot (getChannel m) (getNoteNumber m)
              (velocity_of_byte (getVelocity m)) s
  else if isNoteOff m
  then noteOff oneShot (getChannel m) (getNoteNumber m)
               (velocity_of_byte (getVelocity m)) true s
  else if isAllNotesOff m
  then allNotesOff oneShot (getChannel m) true s
  else s.

(** ** Files and the decoder

    A [File] is its full path.  [createReaderFor] is the format manager's
    decoder: the buffer it yields is the one the loader allocates and
    fills with [reader->read]. *)

Record AudioFormatReader := mkReader {
  rd_buffer : AudioSampleBuffer;
  rd_sampleRate : F
}.

Record FileSys := mkFileSys {
  file_exists : string -> bool;
  createReaderFor : string -> option AudioFormatReader
}.

(** ** juce::Array access *)

Definition in_range (i : Z) (n : nat) : bool :=
  (0 <=? i) && (i <? Z.of_nat n).

(* Array::operator[]: the default value outside the array *)
Definition Array_get {A} (d : A) (l : list A) (i : Z) : A :=
  if in_range i (length l) then default d (l !! Z.to_nat i) else d.

(* Array::set: replaces inside the array, appends at or past its end *)
Definition Array_set {A} (i : Z) (x : A) (l : list A) : list A :=
  if i <? 0 then l
  else if i <? Z.of_nat (length l) then <[Z.to_nat i := x]> l
  else l ++ [x].

(** ** SamplerPlugin.cpp *)

Record SamplerPlugin := mkPlugin {
  synth : Synthesiser;
  buttons : list ButtonSample;
  noteMapping : list Z;
  midiNoteSamples : list ButtonSample;
  heap : Heap;
  midiCollector : list MidiMessage
}.

(* SamplerPlugin::SamplerPlugin() *)
Definition SamplerPlugin_new (defaultRate : F) : SamplerPlugin :=
  mkPlugin (mkSynth [] (replicate 16 (MidiSamplerVoice_new defaultRate)))
           (replicate 16 ButtonSample_new)
           (map (fun i => 36 + Z.of_nat i) (seq 0 16))
           (replicate 128 ButtonSample_new)
           heap_empty
           [].

Definition getNoteMapping (p : SamplerPlugin) (buttonIndex : Z) : Z :=
  Array_get 0 (noteMapping p) buttonIndex.

Definition getMidiNoteSample (p : SamplerPlugin) (midiNote : Z) : ButtonSample :=
  Array_get ButtonSample_new (midiNoteSamples p) midiNote.

Definition getButton (p : SamplerPlugin) (index : Z) : ButtonSample :=
  Array_get ButtonSample_new (buttons p) index.

Definition hasSampleForMidiNote (p : SamplerPlugin) (midiNote : Z) : bool :=
  in_range midiNote (length (midiNoteSamples p))
  && bs_isLoaded (getMidiNoteSample p midiNote).

Definition isMidiNoteAssigned (p : SamplerPlugin) (midiNote : Z) : bool :=
  if negb (in_range midiNote (length (midiNoteSamples p))) then false
  else bs_isLoaded (getMidiNoteSample p midiNote).

(* MidiMessageCollector::addMessageToQueue *)
Definition addMessageToQueue (m : MidiMessage) (p : SamplerPlugin) : SamplerPlugin :=
  mkPlugin (synth p) (buttons p) (noteMapping p) (midiNoteSamples p) (heap p)
           (midiCollector p ++ [m]).

Definition clearSample (buttonIndex : Z) (p : SamplerPlugin) : SamplerPlugin :=
  if (0 <=? buttonIndex) && (buttonIndex <? 16)
  then
    let '(h', cleared) := ButtonSample_clear (heap p) (getButton p buttonIndex) in
    mkPlugin (removeSounds (fun s => snd_buttonIndex s =? buttonIndex) (synth p))
             (<[Z.to_nat buttonIndex := cleared]> (buttons p))
             (noteMapping p) (midiNoteSamples p) h' (midiCollector p)
  else p.

Definition loadSample (fs : FileSys) (buttonIndex : Z) (file : string)
    (p : SamplerPlugin) : bool * SamplerPlugin :=
  if (buttonIndex <? 0) || (16 <=? buttonIndex) then (false, p)
  else
    let p1 := clearSample buttonIndex p in
    match createReaderFor fs file with
    | Some reader =>
        let '(buffer, h') := heap_new (rd_buffer reader) (heap p1) in
        let rootNote := getNoteMapping p1 buttonIndex in
        let sample := mkButtonSample (Some buffer) file (rd_sampleRate reader)
                                     true rootNote in
        let sound := mkSound buttonIndex (Some buffer) (rd_sampleRate reader)
                             rootNote in
        (true,
         mkPlugin (addSound sound (synth p1))
                  (<[Z.to_nat buttonIndex := sample]> (buttons p1))
                  (noteMapping p1) (midiNoteSamples p1) h' (midiCollector p1))
    | None => (false, p1)
    end.

(* index of the last element satisfying [q], as the downward loop finds it *)
Definition find_last_index {A} (q : A -> bool) (l : list A) : option nat :=
  match find_index q (rev l) with
  | Some j => Some (length l - 1 - j)%nat
  | None => None
  end.

Definition setNoteMapping (buttonIndex midiNote : Z) (p : SamplerPlugin) : SamplerPlugin :=
  if (buttonIndex <? 0) || (16 <=? buttonIndex) then p
  else
    let mapping := Array_set buttonIndex midiNote (noteMapping p) in
    let snds := sounds (synth p) in
    let snds' :=
      match find_last_index (fun s => snd_buttonIndex s =? buttonIndex) snds with
      | Some i =>
          match snds !! i with
          | Some sound =>
              delete i snds ++
                [mkSound buttonIndex (snd_sampleBuffer sound)
                         (snd_sourceSampleRate sound) midiNote]
          | None => snds
          end
      | None => snds
      end in
    mkPlugin (mkSynth snds' (voices (synth p))) (buttons p) mapping
             (midiNoteSamples p) (heap p) (midiCollector p).

Definition clearMidiNoteSample (midiNote : Z) (p : SamplerPlugin) : SamplerPlugin :=
  if (0 <=? midiNote) && (midiNote <? 128)
  then
    let '(h', cleared) := ButtonSample_clear (heap p) (getMidiNoteSample p midiNote) in
    mkPlugin (removeSounds (fun s => (snd_buttonIndex s =? -1)
                                     && (snd_rootNote s =? midiNote)) (synth p))
             (buttons p) (noteMapping p)
             (<[Z.to_nat midiNote := cleared]> (midiNoteSamples p))
             h' (midiCollector p)
  else p.

Definition loadSampleForMidiNote (fs : FileSys) (midiNote : Z) (file : string)
    (p : SamplerPlugin) : bool * SamplerPlugin :=
  if (midiNote <? 0) || (128 <=? midiNote) then (false, p)
  else
    let p1 := clearMidiNoteSample midiNote p in
    match createReaderFor fs file with
    | Some reader =>
        let '(buffer, h') := heap_new (rd_buffer reader) (heap p1) in
        let sample := mkButtonSample (Some buffer) file (rd_sampleRate reader)
                                     true midiNote in
        let sound := mkSound (-1) (Some buffer) (rd_sampleRate reader) midiNote in
        (true,
         mkPlugin (addSound sound (synth p1)) (buttons p1) (noteMapping p1)
                  (<[Z.to_nat midiNote := sample]> (midiNoteSamples p1))
                  h' (midiCollector p1))
    | None => (false, p1)
    end.

(* SamplerPlugin::processBlock.  The collector is drained, its messages
   follow the host's, and the synthesiser handles them before it renders
   the block (all events are taken at the block's first sample). *)
Definition processBlock (steal : StealPolicy) (oneShot : bool)
    (buffer : AudioBuffer) (bufferFrames : Z) (midiMessages : list MidiMessage)
    (p : SamplerPlugin) : option (SamplerPlugin * AudioBuffer) :=
  let allMidi := midiMessages ++ midiCollector p in
  let s1 := foldl (fun s m => handleMidiEvent steal oneShot m s) (synth p) allMidi in
  match renderVoices (heap p) 0 bufferFrames (voices s1) buffer with
  | None => None
  | Some (vs, out) =>
      Some (mkPlugin (mkSynth (sounds s1) vs) (buttons p) (noteMapping p)
                     (midiNoteSamples p) (heap p) [],
            out)
  end.

(** ** SamplerEditor.cpp and Main.cpp: the control surface

    Only the state that decides what the engine does is kept: the learn
    flags, the note tracking arrays, the pending note-off and the pad a
    file chooser was opened for.  Labels, colours and repaints are left
    out. *)

Record SamplerEditor := mkEditor {
  isMidiLearning : bool;
  isSampleLearning : bool;
  isOneShotMode : bool;
  learningButtonIndex : Z;
  sampleLearnButtonIndex : Z;
  notePlaying : list bool;
  noteVelocities : list F;
  pendingNoteOffButton : Z;
  pendingNoteOffNote : Z;
  fileChooserButton : option Z
}.

(** The plugin, its editor and the global [OneShotMode::isEnabled]. *)
Record World := mkWorld {
  plugin : SamplerPlugin;
  editor : SamplerEditor;
  oneShotEnabled : bool
}.

(* SamplerEditor::SamplerEditor, which also switches one-shot mode on *)
Definition SamplerEditor_new : SamplerEditor :=
  mkEditor false false true (-1) (-1)
           (replicate 128 false) (replicate 128 fzero) (-1) (-1) None.

Definition World_new (defaultRate : F) : World :=
  mkWorld (SamplerPlugin_new defaultRate) SamplerEditor_new true.

Definition with_plugin (p : SamplerPlugin) (w : World) : World :=
  mkWorld p (editor w) (oneShotEnabled w).

Definition with_editor (e : SamplerEditor) (w : World) : World :=
  mkWorld (plugin w) e (oneShotEnabled w).

(* Array::resize (128) when the array is too short for [note] *)
Definition ensure_size {A} (d : A) (note : Z) (l : list A) : list A :=
  if Z.of_nat (length l) <=? note
  then take 128 l ++ replicate (128 - length l) d
  else l.

Definition track_note (note : Z) (playing : bool) (vel : F) (e : SamplerEditor) : SamplerEditor :=
  mkEditor (isMidiLearning e) (isSampleLearning e) (isOneShotMode e)
           (learningButtonIndex e) (sampleLearnButtonIndex e)
           (Array_set note playing (ensure_size false note (notePlaying e)))
           (Array_set note vel (ensure_size fzero note (noteVelocities e)))
           (pendingNoteOffButton e) (pendingNoteOffNote e) (fileChooserButton e).

Definition set_midi_learn (learning : bool) (index : Z) (e : SamplerEditor) : SamplerEditor :=
  mkEditor learning (isSampleLearning e) (isOneShotMode e)
           index (sampleLearnButtonIndex e)
           (notePlaying e) (noteVelocities e)
           (pendingNoteOffButton e) (pendingNoteOffNote e) (fileChooserButton e).

Definition set_sample_learn (learning : bool) (index : Z) (e : SamplerEditor) : SamplerEditor :=
  mkEditor (isMidiLearning e) learning (isOneShotMode e)
           (learningButtonIndex e) index
           (notePlaying e) (noteVelocities e)
           (pendingNoteOffButton e) (pendingNoteOffNote e) (fileChooserButton e).

Definition set_one_shot (b : bool) (e : SamplerEditor) : SamplerEditor :=
  mkEditor (isMidiLearning e) (isSampleLearning e) b
           (learningButtonIndex e) (sampleLearnButtonIndex e)
           (notePlaying e) (noteVelocities e)
           (pendingNoteOffButton e) (pendingNoteOffNote e) (fileChooserButton e).

Definition set_file_chooser (b : option Z) (e : SamplerEditor) : SamplerEditor :=
  mkEditor (isMidiLearning e) (isSampleLearning e) (isOneShotMode e)
           (learningButtonIndex e) (sampleLearnButtonIndex e)
           (notePlaying e) (noteVelocities e)
           (pendingNoteOffButton e) (pendingNoteOffNote e) b.

(* SamplerEditor::startNoteOffTimer, and the reset in timerCallback *)
Definition set_pending_note_off (buttonIndex midiNote : Z) (e : SamplerEditor) : SamplerEditor :=
  mkEditor (isMidiLearning e) (isSampleLearning e) (isOneShotMode e)
           (learningButtonIndex e) (sampleLearnButtonIndex e)
           (notePlaying e) (noteVelocities e)
           buttonIndex midiNote (fileChooserButton e).

(* SamplerEditor::handleMidiMessage *)
Definition handleMidiMessage (msg : MidiMessage) (w : World) : World :=
  let note := getNoteNumber msg in
  let e1 :=
    if isNoteOn msg && (0 <=? note) && (note <? 128)
    then track_note note true (velocity_of_byte (getVelocity msg)) (editor w)
    else if isNoteOff msg && (0 <=? note) && (note <? 128)
    then track_note note false fzero (editor w)
    else editor w in
  if isMidiLearning e1 && (0 <=? learningButtonIndex e1) && isNoteOn msg
  then mkWorld (setNoteMapping (learningButtonIndex e1) note (plugin w))
               (set_midi_learn false (-1) e1)
               (oneShotEnabled w)
  else with_editor e1 w.

(* MainWindow::handleIncomingMidiMessage: the message goes to the plugin's
   collector first, then to the editor *)
Definition handleIncomingMidiMessage (msg : MidiMessage) (w : World) : World :=
  handleMidiMessage msg (with_plugin (addMessageToQueue msg (plugin w)) w).

Inductive EditorButton :=
| MidiLearnButton
| SampleLearnButton
| OneShotButton (toggleState : bool)
| ExportButton
| ImportButton.

(* SamplerEditor::buttonClicked; export and import only open a chooser *)
Definition buttonClicked (b : EditorButton) (w : World) : World :=
  let e := editor w in
  match b with
  | MidiLearnButton =>
      if negb (isMidiLearning e)
      then
        let e1 := set_midi_learn true (-1) e in
        with_editor (if isSampleLearning e1
                     then set_sample_learn false (sampleLearnButtonIndex e1) e1
                     else e1) w
      else with_editor (set_midi_learn false (-1) e) w
  | SampleLearnButton =>
      if negb (isSampleLearning e)
      then
        let e1 := set_sample_learn true (-1) e in
        with_editor (if isMidiLearning e1 then set_midi_learn false (-1) e1 else e1) w
      else with_editor (set_sample_learn false (-1) e) w
  | OneShotButton toggleState =>
      mkWorld (plugin w) (set_one_shot toggleState e) toggleState
  | ExportButton => w
  | ImportButton => w
  end.

(* SamplerEditor::loadSampleForButton up to the launch of the chooser:
   the 16 pad components carry the indices 0..15 *)
Definition loadSampleForButton (buttonIndex : Z) (w : World) : World :=
  if (0 <=? buttonIndex) && (buttonIndex <? 16)
  then with_editor (set_file_chooser (Some buttonIndex) (editor w)) w
  else w.

(* the callback of that chooser; [file] is fc.getResult() *)
Definition fileChooserCallback (fs : FileSys) (file : string) (w : World) : World :=
  match fileChooserButton (editor w) with
  | None => w
  | Some buttonIndex =>
      let w1 :=
        if file_exists fs file
        then
          let midiNote := getNoteMapping (plugin w) buttonIndex in
          match loadSampleForMidiNote fs midiNote file (plugin w) with
          | (true, p1) =>
              mkWorld (addMessageToQueue (MidiMessage_noteOn 1 midiNote 100) p1)
                      (set_pending_note_off buttonIndex midiNote (editor w))
                      (oneShotEnabled w)
          | (false, p1) => with_plugin p1 w
          end
        else w in
      with_editor (set_file_chooser None (set_sample_learn false (-1) (editor w1))) w1
  end.

(* SamplerButtonUI::mouseDown *)
Definition mouseDown (buttonIndex : Z) (rightButton : bool) (w : World) : World :=
  if rightButton then with_plugin (clearSample buttonIndex (plugin w)) w
  else if isMidiLearning (editor w)
  then with_editor (set_midi_learn (isMidiLearning (editor w)) buttonIndex (editor w)) w
  else if isSampleLearning (editor w)
  then loadSampleForButton buttonIndex w
  else
    let mappedNote := getNoteMapping (plugin w) buttonIndex in
    mkWorld (addMessageToQueue (MidiMessage_noteOn 1 mappedNote 100) (plugin w))
            (set_pending_note_off buttonIndex mappedNote (editor w))
            (oneShotEnabled w).

(* SamplerButtonUI::mouseDoubleClick *)
Definition mouseDoubleClick (buttonIndex : Z) (w : World) : World :=
  loadSampleForButton buttonIndex w.

(* the note-off half of SamplerEditor::timerCallback; [elapsed] tells
   whether NOTE_OFF_DELAY_MS have passed *)
Definition timerCallback (elapsed : bool) (w : World) : World :=
  let e := editor w in
  if (0 <=? pendingNoteOffButton e) && (0 <=? pendingNoteOffNote e) && elapsed
  then mkWorld (addMessageToQueue (MidiMessage_noteOff 1 (pendingNoteOffNote e) 0)
                                  (plugin w))
               (set_pending_note_off (-1) (-1) e)
               (oneShotEnabled w)
  else w.

(** ** The settings document

    The JSON tree as the import reads it: an array item is an object or
    not; inside an object a missing property reads as 0 or as the empty
    string, so an object is given by the values of its properties. *)

Record ButtonObj := mkButtonObj {
  bo_index : Z;
  bo_midiNote : Z;
  bo_filePath : string
}.

Record NoteObj := mkNoteObj {
  no_midiNote : Z;
  no_filePath : string
}.

Inductive JsonItem (A : Type) :=
| NotAnObject
| Object (a : A).
Arguments NotAnObject {A}.
Arguments Object {A} a.

(* [None] for a property that is absent; for the two arrays also when the
   property is not an array *)
Record Document := mkDocument {
  doc_version : string;
  doc_oneShotMode : option bool;
  doc_buttons : option (list (JsonItem ButtonObj));
  doc_midiNotes : option (list (JsonItem NoteObj))
}.

Inductive JsonValue :=
| JsonNonObject
| JsonObject (d : Document).

(* the document built by SamplerEditor::exportAllSettings *)
Definition exportAllSettings (w : World) : Document :=
  let p := plugin w in
  mkDocument "1.0" (Some (isOneShotMode (editor w)))
    (Some (map (fun k =>
                  let i := Z.of_nat k in
                  let mappedNote := getNoteMapping p i in
                  Object (mkButtonObj i mappedNote
                            (if hasSampleForMidiNote p mappedNote
                             then bs_filePath (getMidiNoteSample p mappedNote)
                             else EmptyString)))
               (seq 0 16)))
    (Some (map (fun k =>
                  let i := Z.of_nat k in
                  Object (mkNoteObj i
                            (if bs_isLoaded (getMidiNoteSample p i)
                             then bs_filePath (getMidiNoteSample p i)
                             else EmptyString)))
               (seq 0 128))).

Record ImportResult := mkImportResult {
  imp_ok : bool;
  loadedCount : Z;
  failedCount : Z
}.

Definition isNotEmpty (s : string) : bool :=
  match s with
  | EmptyString => false
  | _ => true
  end.

(* one item of the "buttons" array *)
Definition import_button (p : SamplerPlugin) (item : JsonItem ButtonObj) : SamplerPlugin :=
  match item with
  | NotAnObject => p
  | Object o =>
      if (0 <=? bo_index o) && (bo_index o <? 16)
      then setNoteMapping (bo_index o) (bo_midiNote o) p
      else p
  end.

(* one item of the "midiNotes" array; the state carries both counters *)
Definition import_note (fs : FileSys) (st : SamplerPlugin * Z * Z)
    (item : JsonItem NoteObj) : SamplerPlugin * Z * Z :=
  let '(p, loaded, failed) := st in
  match item with
  | NotAnObject => st
  | Object o =>
      if (0 <=? no_midiNote o) && (no_midiNote o <? 128) && isNotEmpty (no_filePath o)
      then
        if file_exists fs (no_filePath o)
        then
          match loadSampleForMidiNote fs (no_midiNote o) (no_filePath o) p with
          | (true, p1) => (p1, loaded + 1, failed)
          | (false, p1) => (p1, loaded, failed + 1)
          end
        else (p, loaded, failed + 1)
      else st
  end.

(* SamplerEditor::loadAllSamplesFromJson *)
Definition loadAllSamplesFromJson (fs : FileSys) (json : JsonValue) (w : World)
    : ImportResult * World :=
  match json with
  | JsonNonObject => (mkImportResult false 0 0, w)
  | JsonObject d =>
      let '(e1, oneShot1) :=
        match doc_oneShotMode d with
        | Some b => (set_one_shot b (editor w), b)
        | None => (editor w, oneShotEnabled w)
        end in
      let p1 :=
        match doc_buttons d with
        | Some items => foldl import_button (plugin w) items
        | None => plugin w
        end in
      let '(p2, loaded, failed) :=
        match doc_midiNotes d with
        | Some items => foldl (import_note fs) (p1, 0, 0) items
        | None => (p1, 0, 0)
        end in
      (mkImportResult true loaded failed, mkWorld p2 e1 oneShot1)
  end.

(** ** SamplerPlugin.cpp: saving and restoring the plugin state

    The state is an XML element; its text form is left out.  A child is a
    "Button" element, given by the values its attributes read as, or an
    element with another tag. *)

Record XmlButton := mkXmlButton {
  xb_index : Z;
  xb_filePath : string;
  xb_noteMapping : Z
}.

Inductive XmlChild :=
| XmlButtonElem (b : XmlButton)
| XmlOtherElem.

Record XmlElement := mkXml {
  xml_tag : string;
  xml_children : list XmlChild
}.

(* XmlElement::getChildByName ("Button"): the first such child *)
Fixpoint getChildByName_Button (children : list XmlChild) : option XmlButton :=
  match children with
  | [] => None
  | XmlButtonElem b :: _ => Some b
  | XmlOtherElem :: rest => getChildByName_Button rest
  end.

(* SamplerPlugin::getStateInformation *)
Definition getStateInformation (p : SamplerPlugin) : XmlElement :=
  mkXml "SamplerState"
        (map (fun k => XmlButtonElem
                         (mkXmlButton (Z.of_nat k)
                                      (bs_filePath (getButton p (Z.of_nat k)))
                                      (getNoteMapping p (Z.of_nat k))))
             (seq 0 16)).

(* one pass of the loop of setStateInformation over the child it found *)
Definition restore_button (fs : FileSys) (b : XmlButton) (p : SamplerPlugin)
    : SamplerPlugin :=
  let index := xb_index b in
  if (0 <=? index) && (index <? 16)
  then
    let '(h', _) := ButtonSample_clear (heap p) (getButton p index) in
    let sample := mkButtonSample None (xb_filePath b) fzero false 60 in
    let p1 := mkPlugin (synth p)
                       (<[Z.to_nat index := sample]> (buttons p))
                       (Array_set index (xb_noteMapping b) (noteMapping p))
                       (midiNoteSamples p) h' (midiCollector p) in
    if isNotEmpty (xb_filePath b)
    then snd (loadSample fs index (xb_filePath b) p1)
    else p1
  else p.

(* SamplerPlugin::setStateInformation; [xml] is the result of the parse,
   [None] when the text is not XML.  Each of the 16 passes asks the element
   for its child named "Button" again. *)
Definition setStateInformation (fs : FileSys) (xml : option XmlElement)
    (p : SamplerPlugin) : SamplerPlugin :=
  match xml with
  | Some x =>
      if String.eqb (xml_tag x) "SamplerState"
      then Nat.iter 16
             (fun q => match getChildByName_Button (xml_children x) with
                       | Some b => restore_button fs b q
                       | None => q
                       end)
             p
      else p
  | None => p
  end.

(** ** Events of a running application *)

Inductive Event :=
| EvMidiIn (msg : MidiMessage)
| EvProcessBlock (buffer : AudioBuffer) (frames : Z) (hostMidi : list MidiMessage)
| EvButtonClicked (b : EditorButton)
| EvMouseDown (buttonIndex : Z) (rightButton : bool)
| EvMouseDoubleClick (buttonIndex : Z)
| EvFileChosen (file : string)
| EvTimer (elapsed : bool)
| EvImport (json : JsonValue)
| EvLoadSample (buttonIndex : Z) (file : string)
| EvClearSample (buttonIndex : Z)
| EvSetNoteMapping (buttonIndex midiNote : Z)
| EvLoadSampleForMidiNote (midiNote : Z) (file : string)
| EvClearMidiNoteSample (midiNote : Z)
| EvSetStateInformation (xml : option XmlElement).

(* [None]: the block's rendering ran into undefined behaviour *)
Definition step (fs : FileSys) (steal : StealPolicy) (ev : Event) (w : World)
    : option World :=
  match ev with
  | EvMidiIn msg => Some (handleIncomingMidiMessage msg w)
  | EvProcessBlock buffer frames hostMidi =>
      match processBlock steal (oneShotEnabled w) buffer frames hostMidi (plugin w) with
      | Some (p, _) => Some (with_plugin p w)
      | None => None
      end
  | EvButtonClicked b => Some (buttonClicked b w)
  | EvMouseDown i r => Some (mouseDown i r w)
  | EvMouseDoubleClick i => Some (mouseDoubleClick i w)
  | EvFileChosen file => Some (fileChooserCallback fs file w)
  | EvTimer elapsed => Some (timerCallback elapsed w)
  | EvImport json => Some (snd (loadAllSamplesFromJson fs json w))
  | EvLoadSample i file => Some (with_plugin (snd (loadSample fs i file (plugin w))) w)
  | EvClearSample i => Some (with_plugin (clearSample i (plugin w)) w)
  | EvSetNoteMapping i n => Some (with_plugin (setNoteMapping i n (plugin w)) w)
  | EvLoadSampleForMidiNote n file =>
      Some (with_plugin (snd (loadSampleForMidiNote fs n file (plugin w))) w)
  | EvClearMidiNoteSample n => Some (with_plugin (clearMidiNoteSample n (plugin w)) w)
  | EvSetStateInformation xml =>
      Some (with_plugin (setStateInformation fs xml (plugin w)) w)
  end.

Fixpoint run (fs : FileSys) (steal : StealPolicy) (evs : list Event) (w : World)
    : option World :=
  match evs with
  | [] => Some w
  | ev :: rest =>
      match step fs steal ev w with
      | Some w' => run fs steal rest w'
      | None => None
      end
  end.

(** The states a running application can be in. *)
Inductive reachable (fs : FileSys) (steal : StealPolicy) (defaultRate : F) : World -> Prop :=
| reachable_init : reachable fs steal defaultRate (World_new defaultRate)
| reachable_step w ev w' :
    reachable fs steal defaultRate w ->
    step fs steal ev w = Some w' ->
    reachable fs steal defaultRate w'.

End Engine.

Arguments AudioSampleBuffer F : clear implicits.
Arguments ButtonSample F : clear implicits.
Arguments ButtonSampleSound F : clear implicits.
Arguments MidiSamplerVoice F : clear implicits.
Arguments Synthesiser F : clear implicits.
Arguments SamplerPlugin F : clear implicits.
Arguments SamplerEditor F : clear implicits.
Arguments World F : clear implicits.
Arguments Heap F : clear implicits.
Arguments FileSys F : clear implicits.
Arguments AudioFormatReader F : clear implicits.
Arguments StealPolicy F : clear implicits.
Arguments AudioBuffer F : clear implicits.
Arguments Event F : clear implicits.
Arguments NotAnObject {A}.
Arguments Object {A} a.

(** ** Vocabulary of the statements *)

Section Vocabulary.
Context {F : Type} `{FloatOps F}.

Definition world_voices (w : World F) : list (MidiSamplerVoice F) :=
  voices (synth (plugin w)).

(** The playhead after [k] advances by the voice's ratio. *)
Definition pos_at (v : MidiSamplerVoice F) (k : nat) : F :=
  Nat.iter k (fun p => pos_advance p (v_pitchRatio v)) (v_position v).

(** Frame [j] of channel [ch] of an output buffer. *)
Definition frame (out : AudioBuffer F) (ch j : nat) : option F :=
  out !! ch ≫= (fun c => c !! j).

(** Every channel of the output has at least [bound] frames. *)
Definition fits (bound : Z) (out : AudioBuffer F) : Prop :=
  Forall (fun c : list F => bound <= Z.of_nat (length c)) out.

(** What a voice adds to every output channel for the frame it reads at
    playhead [pos]: the mean of the source channels times the velocity. *)
Definition mixed_sample (buf : AudioSampleBuffer F) (v : MidiSamplerVoice F) (pos : F)
    : option F :=
  match read_channels (numSamples buf) pos (channels buf) fzero with
  | Some sum => Some (fmul (fdiv_int sum (getNumChannels buf)) (v_velocity v))
  | None => None
  end.

(** Under one-shot mode a note-on never clears a playing flag. *)
Definition keeps_playing (vs vs' : list (MidiSamplerVoice F)) : Prop :=
  forall i v, vs !! i = Some v -> v_isPlaying v = true ->
    exists v', vs' !! i = Some v' /\ v_isPlaying v' = true.

(** No voice that is allocated to a note loses its allocation. *)
Definition stays_active (vs vs' : list (MidiSamplerVoice F)) : Prop :=
  forall i v, vs !! i = Some v -> isVoiceActive v = true ->
    exists v', vs' !! i = Some v' /\ isVoiceActive v' = true.

Definition unshifted (v : MidiSamplerVoice F) : Prop := v_pitchRatio v = fone.

Definition decodes (fs : FileSys F) (path : string) : bool :=
  match createReaderFor fs path with
  | Some _ => true
  | None => false
  end.

(** An entry names a file that exists and decodes. *)
Definition file_valid (fs : FileSys F) (o : NoteObj) : bool :=
  isNotEmpty (no_filePath o) && file_exists fs (no_filePath o)
  && decodes fs (no_filePath o).

(** An entry names a file that no longer exists. *)
Definition file_missing (fs : FileSys F) (o : NoteObj) : bool :=
  isNotEmpty (no_filePath o) && negb (file_exists fs (no_filePath o)).

(** An entry names a file that exists but fails to load. *)
Definition file_corrupt (fs : FileSys F) (o : NoteObj) : bool :=
  isNotEmpty (no_filePath o) && file_exists fs (no_filePath o)
  && negb (decodes fs (no_filePath o)).

Fixpoint count_if {A : Type} (f : A -> bool) (l : list A) : Z :=
  match l with
  | [] => 0
  | x :: rest => (if f x then 1 else 0) + count_if f rest
  end.

Fixpoint objects {A : Type} (items : list (JsonItem A)) : list A :=
  match items with
  | [] => []
  | NotAnObject :: rest => objects rest
  | Object o :: rest => o :: objects rest
  end.

(** The objects of the document's "midiNotes" array. *)
Definition note_objects (d : Document) : list NoteObj :=
  match doc_midiNotes d with
  | Some items => objects items
  | None => []
  end.

(** An entry the import acts on: its note is one of the 128 MIDI notes and
    it names a file.  The import skips every other entry. *)
Definition counted (o : NoteObj) : bool :=
  (0 <=? no_midiNote o) && (no_midiNote o <? 128) && isNotEmpty (no_filePath o).

(** An entry that names a file is for one of the 128 MIDI notes. *)
Definition note_in_format (o : NoteObj) : Prop :=
  isNotEmpty (no_filePath o) = true -> 0 <= no_midiNote o < 128.

Definition button_items (d : Document) : list (JsonItem ButtonObj) :=
  default [] (doc_buttons d).

(** The file a loaded slot came from is still there and still decodes. *)
Definition restorable (fs : FileSys F) (s : ButtonSample F) : Prop :=
  bs_isLoaded s = true ->
  isNotEmpty (bs_filePath s) = true
  /\ file_exists fs (bs_filePath s) = true
  /\ decodes fs (bs_filePath s) = true.

(** The note entries an export writes. *)
Definition exported_note (w : World F) (k : nat) : NoteObj :=
  mkNoteObj (Z.of_nat k)
            (if bs_isLoaded (getMidiNoteSample (plugin w) (Z.of_nat k))
             then bs_filePath (getMidiNoteSample (plugin w) (Z.of_nat k))
             else EmptyString).

(** A file that decodes exists and has a name. *)
Definition fs_consistent (fs : FileSys F) : Prop :=
  forall path, decodes fs path = true ->
    file_exists fs path = true /\ isNotEmpty path = true.

(** The arrays keep their sizes and every loaded slot can be restored. *)
Definition plugin_ok (fs : FileSys F) (p : SamplerPlugin F) : Prop :=
  length (noteMapping p) = 16%nat
  /\ length (midiNoteSamples p) = 128%nat
  /\ Forall (restorable fs) (midiNoteSamples p).

End Vocabulary.

(** ** Exact rational arithmetic as one instance of the operations

    Used to run the model on concrete inputs.  Within an octave the
    semitone ratio is a six-digit rounding of [2^(k/12)]. *)

Definition Q_semitone_table : list Q :=
  [ 1 # 1; 1059463 # 1000000; 1122462 # 1000000; 1189207 # 1000000;
    1259921 # 1000000; 1334840 # 1000000; 1414214 # 1000000;
    1498307 # 1000000; 1587401 # 1000000; 1681793 # 1000000;
    1781797 # 1000000; 1887749 # 1000000 ]%Q.

Definition Q_semitone_ratio (d : Z) : Q :=
  if d =? 0 then 1%Q
  else Qred (Qpower 2 (d / 12)
             * nth (Z.to_nat (d mod 12)) Q_semitone_table 1)%Q.

#[export] Instance Q_FloatOps : FloatOps Q := {|
  fzero := 0%Q;
  fone := 1%Q;
  fadd x y := Qred (x + y)%Q;
  fmul x y := Qred (x * y)%Q;
  fdiv_int x n := Qred (x / inject_Z n)%Q;
  pos_advance p r := Qred (p + r)%Q;
  pos_ge_len p n := Qle_bool (inject_Z n) p;
  pos_trunc p := Z.quot (Qnum p) (Zpos (Qden p));
  rate_positive r := negb (Qle_bool r 0);
  semitone_ratio := Q_semitone_ratio;
  velocity_of_byte v := Qred (inject_Z v / 127)%Q
|}.

(** ** Real arithmetic as the ideal instance of the operations

    Here the semitone ratio is the exact [2^(d/12)]. *)

Definition R_trunc (x : R) : Z :=
  if Rle_dec 0 x then Int_part x else (- Int_part (- x))%Z.

#[export] Instance R_FloatOps : FloatOps R := {|
  fzero := 0%R;
  fone := 1%R;
  fadd := Rplus;
  fmul := Rmult;
  fdiv_int x n := (x / IZR n)%R;
  pos_advance := Rplus;
  pos_ge_len p n := if Rle_dec (IZR n) p then true else false;
  pos_trunc := R_trunc;
  rate_positive r := if Rlt_dec 0 r then true else false;
  semitone_ratio d := Rpower 2 (IZR d / 12);
  velocity_of_byte v := (IZR v / 127)%R
|}.

(** A file system with one decodable file of four mono frames, one file
    that exists but does not decode, and nothing else. *)
Definition demo_reader : AudioFormatReader Q :=
  mkReader (mkBuffer 4 [[1 # 2; 1 # 4; -1 # 4; 1 # 8]%Q]) (inject_Z 44100).

Definition demo_fs : FileSys Q :=
  mkFileSys
    (fun path => String.eqb path "kick.wav" || String.eqb path "broken.wav")
    (fun path => if String.eqb path "kick.wav" then Some demo_reader else None).

(* a framework that never steals a voice *)
Definition no_steal : StealPolicy Q := fun _ _ _ _ => None.

Definition demo_rate : Q := inject_Z 44100.

(* a stereo output block of [n] silent frames *)
Definition silence (n : nat) : AudioBuffer Q := [replicate n 0%Q; replicate n 0%Q].

(** Concrete states used to run the model. *)

Definition demo_sound : ButtonSampleSound Q := mkSound (-1) (Some 0%nat) demo_rate 60.

Definition demo_heap : Heap Q := snd (heap_new (rd_buffer demo_reader) heap_empty).

(* a voice two frames into the four-frame sample *)
Definition demo_voice : MidiSamplerVoice Q :=
  mkVoice true 1%Q 2%Q 1%Q 60 60 (Some 0%nat) demo_rate 60 1 (Some demo_sound).

(* the plugin after the four-frame sample was loaded on note 60 *)
Definition demo_loaded : SamplerPlugin Q :=
  snd (loadSampleForMidiNote demo_fs 60 "kick.wav" (SamplerPlugin_new demo_rate)).

(* the sample is loaded on note 60, the note is struck, two frames are rendered *)
Definition demo_playing : World Q :=
  default (World_new demo_rate)
    (run demo_fs no_steal
         [EvLoadSampleForMidiNote 60 "kick.wav";
          EvMidiIn (MidiNoteOn 1 60 127);
          EvProcessBlock (silence 2) 2 []]
         (World_new demo_rate)).

(* the sample is on note 72, MIDI Learn is armed, pad 5 is selected *)
Definition demo_armed : World Q :=
  default (World_new demo_rate)
    (run demo_fs no_steal
         [EvLoadSampleForMidiNote 72 "kick.wav";
          EvButtonClicked MidiLearnButton;
          EvMouseDown 5 false]
         (World_new demo_rate)).

(* a fresh application with Sample Learn armed *)
Definition demo_sample_learn : World Q :=
  buttonClicked SampleLearnButton (World_new demo_rate).

(* pad 3 holds the sample and was then bound to note 50 *)
Definition demo_pad : World Q :=
  default (World_new demo_rate)
    (run demo_fs no_steal
         [EvLoadSample 3 "kick.wav"; EvSetNoteMapping 3 50]
         (World_new demo_rate)).

(* a heap whose only buffer has one channel and no frames *)
Definition demo_empty_heap : Heap Q := snd (heap_new (mkBuffer 0 [[]]) heap_empty).

(* a file system whose one file decodes to a single channel without frames *)
Definition empty_reader : AudioFormatReader Q :=
  mkReader (mkBuffer 0 [[]]) (inject_Z 44100).

Definition empty_fs : FileSys Q :=
  mkFileSys
    (fun path => String.eqb path "empty.wav")
    (fun path => if String.eqb path "empty.wav" then Some empty_reader else None).

(* the empty file is loaded on note 60 and the note is struck; the block
   that starts the voice has no frames *)
Definition empty_struck_events : list (Event Q) :=
  [EvLoadSampleForMidiNote 60 "empty.wav";
   EvMidiIn (MidiNoteOn 1 60 127);
   EvProcessBlock (silence 0) 0 []].

Definition demo_empty_struck : World Q :=
  default (World_new demo_rate)
    (run empty_fs no_steal empty_struck_events (World_new demo_rate)).

(* one valid entry, a later entry for the same note whose file does not
   decode, and an entry for a note outside 0..127 whose file is missing *)
Definition demo_document_mixed : Document :=
  mkDocument "1.0" None None
    (Some [Object (mkNoteObj 36 "kick.wav");
           Object (mkNoteObj 36 "broken.wav");
           Object (mkNoteObj 128 "gone.wav")]).

(* a document with one valid and one missing file *)
Definition demo_document : Document :=
  mkDocument "1.0" None None
    (Some [Object (mkNoteObj 36 "kick.wav"); Object (mkNoteObj 40 "gone.wav")]).

(** * The rest of the sources *)

(** ** Note names: SamplerEditor::getNoteName, getMidiNoteDisplayName,
    getMidiNoteName

    C++ division and remainder truncate toward zero.  [None] stands for
    the read outside [noteNames] that a negative note number causes.  The
    16-byte buffer of [snprintf] never truncates: a name has at most 12
    characters. *)

Definition noteNames : list string :=
  ["C"; "C#"; "D"; "D#"; "E"; "F"; "F#"; "G"; "G#"; "A"; "A#"; "B"].

(* SamplerEditor::getNoteName: snprintf "%s%d" *)
Definition getNoteName (midiNote : Z) : option string :=
  let octave := Z.quot midiNote 12 - 1 in
  let note := Z.rem midiNote 12 in
  if note <? 0 then None
  else match noteNames !! Z.to_nat note with
       | Some name => Some (name +:+ pretty octave)
       | None => None
       end.

(* getMidiNoteDisplayName (SamplerEditor.h) and getMidiNoteName (Main.cpp):
   String(noteNames[note]) + String(octave) *)
Definition getMidiNoteDisplayName (midiNote : Z) : option string :=
  let octave := Z.quot midiNote 12 - 1 in
  let note := Z.rem midiNote 12 in
  if note <? 0 then None
  else match noteNames !! Z.to_nat note with
       | Some name => Some (String.append name (pretty octave))
       | None => None
       end.

Definition getMidiNoteName (noteNumber : Z) : option string :=
  let octave := Z.quot noteNumber 12 - 1 in
  let note := Z.rem noteNumber 12 in
  if note <? 0 then None
  else match noteNames !! Z.to_nat note with
       | Some name => Some (String.append name (pretty octave))
       | None => None
       end.

(** ** SamplerEditor.h: MidiStatusDisplay *)

Record MidiStatusDisplay := mkStatus {
  lastNoteText : string;
  velocityText : string;
  channelText : string;
  fadeCounter : Z
}.

Definition MidiStatusDisplay_new : MidiStatusDisplay :=
  mkStatus "---" "---" "---" 0.

(* MidiStatusDisplay::timerCallback *)
Definition status_timerCallback (d : MidiStatusDisplay) : MidiStatusDisplay :=
  if 0 <? fadeCounter d
  then mkStatus (lastNoteText d) (velocityText d) (channelText d) (fadeCounter d - 1)
  else d.

(* MidiStatusDisplay::showMidiMessage *)
Definition showMidiMessage (msg : MidiMessage) (d : MidiStatusDisplay)
    : option MidiStatusDisplay :=
  if isNoteOn msg
  then match getMidiNoteDisplayName (getNoteNumber msg) with
       | Some name =>
           Some (mkStatus name (pretty (getVelocity msg)) (pretty (getChannel msg)) 30)
       | None => None
       end
  else Some d.

Section MoreEngine.
Context {F : Type} `{FloatOps F}.

(* SamplerEditor::getNoteVelocity *)
Definition getNoteVelocity (e : SamplerEditor F) (mappedNote : Z) : F :=
  if (0 <=? mappedNote) && (mappedNote <? Z.of_nat (length (noteVelocities e)))
  then Array_get fzero (noteVelocities e) mappedNote
  else fzero.

(* SamplerPlugin::~SamplerPlugin: the loop over the pad slots; what is left
   is the heap when the plugin is gone *)
Definition SamplerPlugin_destroy (p : SamplerPlugin F) : Heap F :=
  foldl (fun h s => fst (ButtonSample_clear h s)) (heap p) (buttons p).

(** ** Vocabulary of the further statements *)

(** Who holds a sample slot: a MIDI note or a pad. *)
Inductive Owner :=
| NoteOwner (n : Z)
| PadOwner (i : Z).

Definition owner_valid (o : Owner) : Prop :=
  match o with
  | NoteOwner n => 0 <= n < 128
  | PadOwner i => 0 <= i < 16
  end.

Definition slot_of (p : SamplerPlugin F) (o : Owner) : ButtonSample F :=
  match o with
  | NoteOwner n => getMidiNoteSample p n
  | PadOwner i => getButton p i
  end.

(** The slot a sound was made for: note-indexed sounds carry the pad
    index -1. *)
Definition owner_of_sound (s : ButtonSampleSound F) : Owner :=
  if snd_buttonIndex s =? -1 then NoteOwner (snd_rootNote s)
  else PadOwner (snd_buttonIndex s).

(** The buffer at an address has not been deleted. *)
Definition live (h : Heap F) (a : nat) : Prop := is_Some (heap_read h a).

(** The slot tables, the heap and the synthesiser's sounds fit together.
    A pad's sound can outlive the pad's sample (the restore of a saved
    state empties the slot and leaves the sound), so what ties a pad sound
    to its slot holds while the slot is loaded. *)
Record store_inv (p : SamplerPlugin F) : Prop := mkStoreInv {
  inv_slots : forall o, owner_valid o ->
    slot_of p o = ButtonSample_new
    \/ (bs_isLoaded (slot_of p o) = true
        /\ exists a, bs_sampleBuffer (slot_of p o) = Some a
                     /\ live (heap p) a /\ (a < nextAddr (heap p))%nat);
  inv_distinct : forall o1 o2 a, owner_valid o1 -> owner_valid o2 ->
    bs_sampleBuffer (slot_of p o1) = Some a ->
    bs_sampleBuffer (slot_of p o2) = Some a -> o1 = o2;
  inv_sounds : forall s, s ∈ sounds (synth p) ->
    owner_valid (owner_of_sound s)
    /\ (snd_buttonIndex s = -1 ->
        bs_isLoaded (slot_of p (owner_of_sound s)) = true)
    /\ (bs_isLoaded (slot_of p (owner_of_sound s)) = true ->
        snd_sampleBuffer s = bs_sampleBuffer (slot_of p (owner_of_sound s)));
  inv_loaded : forall o, owner_valid o -> bs_isLoaded (slot_of p o) = true ->
    exists s, s ∈ sounds (synth p) /\ owner_of_sound s = o;
  inv_unique : NoDup (owner_of_sound <$> sounds (synth p));
  inv_pad_root : forall s, s ∈ sounds (synth p) -> snd_buttonIndex s <> -1 ->
    bs_isLoaded (slot_of p (owner_of_sound s)) = true ->
    snd_rootNote s = getNoteMapping p (snd_buttonIndex s);
  inv_owned : forall a, live (heap p) a ->
    exists o, owner_valid o /\ bs_sampleBuffer (slot_of p o) = Some a
}.

(** The sizes of the plugin's arrays and of the voice pool. *)
Definition psizes (p : SamplerPlugin F) : Prop :=
  length (buttons p) = 16%nat
  /\ length (noteMapping p) = 16%nat
  /\ length (midiNoteSamples p) = 128%nat
  /\ length (voices (synth p)) = 16%nat.

(** The plugin's tables have their sizes and fit the heap and the sounds. *)
Definition pgood (p : SamplerPlugin F) : Prop := psizes p /\ store_inv p.

(** What every event keeps true of the editor's flags. *)
Definition flags_inv (w : World F) : Prop :=
  isMidiLearning (editor w) && isSampleLearning (editor w) = false
  /\ (isMidiLearning (editor w) = false -> learningButtonIndex (editor w) = -1)
  /\ isOneShotMode (editor w) = oneShotEnabled w.

(** The pad slot of a restored child, emptied and rebound (before the
    child's file, if it names one, is loaded). *)
Definition restore_emptied (b : XmlButton) (p : SamplerPlugin F) : SamplerPlugin F :=
  mkPlugin (synth p)
           (<[Z.to_nat (xb_index b) := ButtonSample_new]> (buttons p))
           (Array_set (xb_index b) (xb_noteMapping b) (noteMapping p))
           (midiNoteSamples p)
           (fst (ButtonSample_clear (heap p) (getButton p (xb_index b))))
           (midiCollector p).

End MoreEngine.

Arguments Owner : clear implicits.

#[export] Instance Owner_eq_dec : EqDecision Owner.
Proof. solve_decision. Defined.

(* a saved state with two pads: pad 2 without a file, pad 5 with one *)
Definition demo_state_xml : XmlElement :=
  mkXml "SamplerState"
        [XmlOtherElem;
         XmlButtonElem (mkXmlButton 2 EmptyString 40);
         XmlButtonElem (mkXmlButton 5 "kick.wav" 41)].

(* a saved state whose first pad entry is pad 3 without a file *)
Definition demo_state_pad3 : XmlElement :=
  mkXml "SamplerState" [XmlButtonElem (mkXmlButton 3 EmptyString 40)].

(** * Properties *)

(** ** Integer helpers *)

Lemma wrap32_small (z : Z) : -2^31 <= z < 2^31 -> wrap32 z = z.
Proof.
  intros Hz. unfold wrap32.
  rewrite Z.mod_small; lia.
Qed.

Lemma int_sub_diag (n : Z) : int_sub n n = 0.
Proof. unfold int_sub. rewrite Z.sub_diag. reflexivity. Qed.

Lemma Q_FloatLaws : FloatLaws Q.
Proof. constructor. reflexivity. Qed.

Lemma R_FloatLaws : FloatLaws R.
Proof.
  constructor. simpl. unfold Rdiv. rewrite Rmult_0_l. apply Rpower_O. lra.
Qed.

(** With exact arithmetic, twelve semitones up double the ratio. *)
Lemma R_semitone_ratio_octave : semitone_ratio (F := R) 12 = 2%R.
Proof.
  simpl. replace (12 / 12)%R with 1%R by lra. apply Rpower_1. lra.
Qed.

(** ** Voices: what each method does to the playing flag and the ratio *)

Section VoiceFacts.
Context {F : Type} `{FloatOps F}.

Lemma stopNote_one_shot (vel : F) (tail : bool) (v : MidiSamplerVoice F) :
  stopNote true vel tail v = v.
Proof. reflexivity. Qed.

Lemma stopNote_pitchRatio (o : bool) (vel : F) (tail : bool) (v : MidiSamplerVoice F) :
  v_pitchRatio (stopNote o vel tail v) = v_pitchRatio v.
Proof. unfold stopNote. destruct o, tail; reflexivity. Qed.

Lemma startNote_isPlaying (n : Z) (vel : F) (s : option (ButtonSampleSound F))
    (v : MidiSamplerVoice F) :
  v_isPlaying (startNote n vel s v) = true.
Proof. destruct s; reflexivity. Qed.

Lemma startVoice_isPlaying (o : bool) (s : ButtonSampleSound F) (ch n : Z) (vel : F)
    (v : MidiSamplerVoice F) :
  v_isPlaying (startVoice o s ch n vel v) = true.
Proof. unfold startVoice. apply startNote_isPlaying. Qed.

Lemma noteOff_voice_one_shot (ch n : Z) (vel : F) (tail : bool) (v : MidiSamplerVoice F) :
  noteOff_voice true ch n vel tail v = v.
Proof. unfold noteOff_voice. repeat case_match; reflexivity. Qed.

Lemma stop_ringing_one_shot (ch n : Z) (v : MidiSamplerVoice F) :
  stop_ringing true ch n v = v.
Proof. unfold stop_ringing. case_match; reflexivity. Qed.

Lemma allNotesOff_one_shot (ch : Z) (tail : bool) (s : Synthesiser F) :
  allNotesOff true ch tail s = s.
Proof.
  unfold allNotesOff. destruct s as [snds vs]. simpl. f_equal.
  induction vs as [|v vs IH]; simpl; [reflexivity|].
  rewrite IH. destruct (_ || _); reflexivity.
Qed.

Lemma noteOff_one_shot (ch n : Z) (vel : F) (tail : bool) (s : Synthesiser F) :
  noteOff true ch n vel tail s = s.
Proof.
  unfold noteOff. destruct s as [snds vs]. simpl. f_equal.
  induction vs as [|v vs IH]; simpl; [reflexivity|].
  rewrite noteOff_voice_one_shot, IH. reflexivity.
Qed.

End VoiceFacts.

(** ** Pitch ratio at note start *)

(** C6.  A voice started for note [n] on a sound with root note [r] gets
    the ratio [pow(2.0, (n - r) / 12.0)] when the sound's source rate is
    positive, which is exactly [1.0] for [n = r]; with a rate that is not
    positive the ratio is forced to [1.0]. *)
Theorem startNote_pitch_ratio {F : Type} `{FloatLaws F}
    (n : Z) (vel : F) (sound : ButtonSampleSound F) (v : MidiSamplerVoice F) :
  -2^31 <= n - snd_rootNote sound < 2^31 ->
  let v' := startNote n vel (Some sound) v in
  (rate_positive (snd_sourceSampleRate sound) = true ->
     v_pitchRatio v' = semitone_ratio (n - snd_rootNote sound)) /\
  (rate_positive (snd_sourceSampleRate sound) = true ->
     n = snd_rootNote sound -> v_pitchRatio v' = fone) /\
  (rate_positive (snd_sourceSampleRate sound) = false ->
     v_pitchRatio v' = fone).
Proof.
  intros Hrange v'. subst v'. simpl.
  repeat split.
  - intros ->. unfold int_sub. rewrite wrap32_small by exact Hrange. reflexivity.
  - intros -> ->. rewrite int_sub_diag. apply semitone_ratio_0.
  - intros ->. reflexivity.
Qed.

Lemma startNote_pitch_ratio_witness :
  v_pitchRatio (startNote 72 1%Q (Some demo_sound) (MidiSamplerVoice_new demo_rate))
    = semitone_ratio 12
  /\ v_pitchRatio (startNote 60 1%Q (Some demo_sound) (MidiSamplerVoice_new demo_rate))
    = fone.
Proof.
  split.
  - refine (proj1 (@startNote_pitch_ratio Q Q_FloatOps Q_FloatLaws 72 1%Q demo_sound
                     (MidiSamplerVoice_new demo_rate) _) _);
      [simpl; lia | reflexivity].
  - refine (proj1 (proj2 (@startNote_pitch_ratio Q Q_FloatOps Q_FloatLaws 60 1%Q
                     demo_sound (MidiSamplerVoice_new demo_rate) _)) _ _);
      [simpl; lia | reflexivity | reflexivity].
Defined.

(** ** Rendering one block *)

Section Render.
Context {F : Type} `{FloatOps F}.

Lemma pos_at_advance (v : MidiSamplerVoice F) (k : nat) :
  pos_at (set_position (pos_advance (v_position v) (v_pitchRatio v)) v) k
  = pos_at v (S k).
Proof.
  unfold pos_at. simpl v_pitchRatio. simpl v_position.
  rewrite Nat.iter_succ_r. reflexivity.
Qed.

Lemma write_channels_spec (idx : Z) (x : F) (out : AudioBuffer F) (b : Z) :
  0 <= idx < b -> fits b out ->
  exists out', write_channels idx x out = Some out'
    /\ fits b out'
    /\ (forall ch j, j <> Z.to_nat idx -> frame out' ch j = frame out ch j).
Proof.
  intros Hidx Hfit. induction Hfit as [|c rest Hc Hrest IH].
  - exists []. split; [reflexivity|]. split; [constructor|]. intros; reflexivity.
  - destruct IH as (rest' & Hw & Hfit' & Hsame).
    simpl. destruct (idx <? 0) eqn:Hneg; [lia|].
    destruct (c !! Z.to_nat idx) as [old|] eqn:Hold.
    + rewrite Hw. eexists. split; [reflexivity|]. split.
      * constructor; [rewrite length_insert; exact Hc | exact Hfit'].
      * intros [|ch] j Hj; unfold frame; simpl.
        -- apply list_lookup_insert_ne. congruence.
        -- apply (Hsame ch j Hj).
    + apply lookup_ge_None in Hold. lia.
Qed.

Lemma render_loop_stops (buf : AudioSampleBuffer F) (start : Z) (k : nat) :
  forall (count : nat) (i : Z) (v : MidiSamplerVoice F) (out : AudioBuffer F),
    (k < count)%nat ->
    0 <= start + i ->
    fits (start + i + Z.of_nat count) out ->
    (forall j, (j < k)%nat -> pos_ge_len (pos_at v (S j)) (numSamples buf) = false) ->
    pos_ge_len (pos_at v (S k)) (numSamples buf) = true ->
    (forall j, (j <= k)%nat ->
       is_Some (read_channels (numSamples buf) (pos_at v j) (channels buf) fzero)) ->
    exists v' out',
      render_loop buf start i count v out = Some (v', out')
      /\ v_isPlaying v' = false
      /\ v_currentlyPlayingNote v' = -1
      /\ (forall ch j, start + i + Z.of_nat k <= Z.of_nat j ->
            frame out' ch j = frame out ch j).
Proof.
  induction k as [|k IH]; intros count i v out Hk Hpos Hfit Hbefore Hend Hread.
  - destruct count as [|count]; [lia|]. simpl.
    destruct (Hread 0%nat ltac:(lia)) as [sum Hsum].
    unfold pos_at in Hsum. simpl in Hsum. rewrite Hsum.
    unfold pos_at in Hend. simpl in Hend. rewrite Hend.
    eexists _, _. repeat split; reflexivity.
  - destruct count as [|count]; [lia|]. simpl.
    destruct (Hread 0%nat ltac:(lia)) as [sum Hsum].
    unfold pos_at in Hsum. simpl in Hsum. rewrite Hsum.
    pose proof (Hbefore 0%nat ltac:(lia)) as H0.
    unfold pos_at in H0. simpl in H0. rewrite H0.
    destruct (write_channels_spec (start + i)
                (fmul (fdiv_int sum (getNumChannels buf)) (v_velocity v)) out
                (start + i + Z.of_nat (S count)))
      as (out1 & Hw & Hfit1 & Hsame1); [lia | exact Hfit |].
    rewrite Hw.
    set (v1 := set_position (pos_advance (v_position v) (v_pitchRatio v)) v).
    destruct (IH count (i + 1) v1 out1) as (v' & out' & Hrun & Hp & Hn & Hsame).
    + lia.
    + lia.
    + replace (start + (i + 1) + Z.of_nat count)
        with (start + i + Z.of_nat (S count)) by lia. exact Hfit1.
    + intros j Hj. subst v1. rewrite pos_at_advance. apply Hbefore. lia.
    + subst v1. rewrite pos_at_advance. exact Hend.
    + intros j Hj. subst v1. rewrite pos_at_advance. apply Hread. lia.
    + exists v', out'. repeat split; try assumption.
      intros ch j Hj. rewrite Hsame by lia. apply Hsame1. lia.
Qed.

(** What any finished run of the loop preserves, and the only way it
    clears the playing flag. *)
Lemma render_loop_inv (buf : AudioSampleBuffer F) (start : Z) :
  forall (count : nat) (i : Z) (v v' : MidiSamplerVoice F) (out out' : AudioBuffer F),
    render_loop buf start i count v out = Some (v', out') ->
    v_pitchRatio v' = v_pitchRatio v
    /\ v_sampleBuffer v' = v_sampleBuffer v
    /\ (v_isPlaying v = true -> v_isPlaying v' = false ->
        pos_ge_len (v_position v') (numSamples buf) = true).
Proof.
  induction count as [|count IH]; intros i v v' out out' Hrun; simpl in Hrun.
  - inversion Hrun; subst. repeat split. congruence.
  - destruct (read_channels _ _ _ _) as [sum|]; [|discriminate].
    destruct (pos_ge_len _ _) eqn:Hge.
    + inversion Hrun; subst. simpl. repeat split. intros _ _. exact Hge.
    + destruct (write_channels _ _ _) as [out1|]; [|discriminate].
      apply IH in Hrun. simpl in Hrun. exact Hrun.
Qed.

Lemma renderNextBlock_inv (h : Heap F) (start n : Z)
    (v v' : MidiSamplerVoice F) (out out' : AudioBuffer F) :
  renderNextBlock h start n v out = Some (v', out') ->
  v_pitchRatio v' = v_pitchRatio v
  /\ v_sampleBuffer v' = v_sampleBuffer v
  /\ (v_isPlaying v = true -> v_isPlaying v' = false ->
      exists a buf, v_sampleBuffer v' = Some a /\ heap_read h a = Some buf
        /\ pos_ge_len (v_position v') (numSamples buf) = true).
Proof.
  unfold renderNextBlock. intros Hrun.
  destruct (v_sampleBuffer v) as [a|] eqn:Hbuf.
  - destruct (negb (v_isPlaying v)) eqn:Hp.
    + inversion Hrun; subst. repeat split; [exact Hbuf | congruence].
    + destruct (Z.to_nat n) eqn:Hn.
      * inversion Hrun; subst. repeat split; [exact Hbuf | congruence].
      * destruct (heap_read h a) as [buf|] eqn:Hheap; [|discriminate].
        apply render_loop_inv in Hrun. destruct Hrun as (Hr & Hb & Hstop).
        repeat split; [exact Hr | congruence |].
        intros Hp1 Hp2. exists a, buf. repeat split; [congruence | exact Hheap | auto].
  - inversion Hrun; subst. repeat split; [exact Hbuf | congruence].
Qed.

End Render.

(** The stop at the end of a sample whose frames can be read.  A playing
    voice whose playhead reaches or passes the frame count of its buffer
    at frame [k] of a block, after reads that all succeed, stops there:
    the call returns with the voice no longer playing and no longer
    active, every output frame of the block from frame [k] on is left as
    it was, and later blocks leave the output alone; no frame is read
    again from the start of the buffer.  The reads succeed only for a
    buffer that has frames. *)
Theorem renderNextBlock_stops_at_buffer_end {F : Type} `{FloatOps F}
    (h : Heap F) (start n : Z) (v : MidiSamplerVoice F) (out : AudioBuffer F)
    (a : nat) (buf : AudioSampleBuffer F) (k : nat) :
  v_isPlaying v = true ->
  v_sampleBuffer v = Some a ->
  heap_read h a = Some buf ->
  (k < Z.to_nat n)%nat ->
  0 <= start ->
  fits (start + n) out ->
  (forall j, (j < k)%nat -> pos_ge_len (pos_at v (S j)) (numSamples buf) = false) ->
  pos_ge_len (pos_at v (S k)) (numSamples buf) = true ->
  (forall j, (j <= k)%nat ->
     is_Some (read_channels (numSamples buf) (pos_at v j) (channels buf) fzero)) ->
  exists v' out',
    renderNextBlock h start n v out = Some (v', out')
    /\ v_isPlaying v' = false
    /\ isVoiceActive v' = false
    /\ (forall ch j, start + Z.of_nat k <= Z.of_nat j ->
          frame out' ch j = frame out ch j)
    /\ (forall h2 start2 n2 out2,
          renderNextBlock h2 start2 n2 v' out2 = Some (v', out2)).
Proof.
  intros Hplay Hbuf Hheap Hk Hstart Hfit Hbefore Hend Hread.
  destruct (render_loop_stops buf start k (Z.to_nat n) 0 v out)
    as (v' & out' & Hrun & Hp & Hn & Hsame); try assumption; try lia.
  { replace (start + 0 + Z.of_nat (Z.to_nat n)) with (start + n) by lia. exact Hfit. }
  exists v', out'. unfold renderNextBlock. rewrite Hbuf, Hplay, Hheap. simpl.
  destruct (Z.to_nat n) eqn:Hcount; [lia|].
  repeat split.
  - exact Hrun.
  - exact Hp.
  - unfold isVoiceActive. rewrite Hn. reflexivity.
  - intros ch j Hj. apply Hsame. lia.
  - intros h2 start2 n2 out2. rewrite Hp. simpl. destruct (v_sampleBuffer v'); reflexivity.
Qed.

Lemma renderNextBlock_stops_at_buffer_end_witness :
  exists v' out',
    renderNextBlock demo_heap 0 4 demo_voice (silence 4) = Some (v', out')
    /\ v_isPlaying v' = false
    /\ isVoiceActive v' = false
    /\ (forall ch j, 0 + Z.of_nat 1 <= Z.of_nat j ->
          frame out' ch j = frame (silence 4) ch j)
    /\ (forall h2 start2 n2 out2,
          renderNextBlock h2 start2 n2 v' out2 = Some (v', out2)).
Proof.
  apply (renderNextBlock_stops_at_buffer_end demo_heap 0 4 demo_voice (silence 4)
           0%nat (rd_buffer demo_reader) 1%nat).
  - reflexivity.
  - reflexivity.
  - vm_compute. reflexivity.
  - simpl. lia.
  - lia.
  - repeat constructor; simpl; lia.
  - intros j Hj. assert (j = 0%nat) as -> by lia. reflexivity.
  - reflexivity.
  - intros j Hj. assert (j = 0%nat \/ j = 1%nat) as [-> | ->] by lia;
      vm_compute; eauto.
Defined.

(** C4 on the code.  A file without frames is loaded on note 60 and the
    note is struck.  Voice 0 is then playing with its playhead (0) at the
    frame count (0) of its buffer, so it should stop; but a block reads
    the frame at [position % getNumSamples()] before it tests for the end
    of the sample, and that is a remainder by zero: rendering has
    undefined behaviour (the model's [None]) instead of stopping the
    voice.  The same happens when the block that starts the voice has
    frames. *)
Lemma empty_sample_faults_instead_of_stopping :
  let w := demo_empty_struck in
  run empty_fs no_steal empty_struck_events (World_new demo_rate) = Some w
  /\ (exists v buf,
        world_voices w !! 0%nat = Some v
        /\ v_isPlaying v = true
        /\ v_sampleBuffer v = Some 0%nat
        /\ heap_read (heap (plugin w)) 0%nat = Some buf
        /\ numSamples buf = 0
        /\ pos_ge_len (v_position v) (numSamples buf) = true)
  /\ step empty_fs no_steal (EvProcessBlock (silence 4) 4 []) w = None
  /\ run empty_fs no_steal
         [EvLoadSampleForMidiNote 60 "empty.wav";
          EvMidiIn (MidiNoteOn 1 60 127);
          EvProcessBlock (silence 4) 4 []]
         (World_new demo_rate) = None.
Proof.
  cbv zeta. split; [vm_compute; reflexivity|]. split.
  - eexists _, (mkBuffer 0 [[]]).
    split; [vm_compute; reflexivity|]. split; [reflexivity|].
    split; [reflexivity|]. split; [vm_compute; reflexivity|].
    split; reflexivity.
  - split; vm_compute; reflexivity.
Qed.

(** ** The synthesiser: effect of events on the voices *)

Section SynthFacts.
Context {F : Type} `{FloatOps F}.

Lemma foldl_preserves {A B : Type} (P : A -> Prop) (f : A -> B -> A) (l : list B) :
  (forall a x, P a -> P (f a x)) -> forall a, P a -> P (foldl f a l).
Proof.
  intros Hstep. induction l as [|x l IH]; intros a Ha; simpl; [exact Ha|].
  apply IH, Hstep, Ha.
Qed.

Lemma map_stop_ringing_one_shot (ch n : Z) (vs : list (MidiSamplerVoice F)) :
  map (stop_ringing true ch n) vs = vs.
Proof.
  induction vs as [|v vs IH]; simpl; [reflexivity|].
  rewrite stop_ringing_one_shot, IH. reflexivity.
Qed.

Lemma keeps_playing_refl (vs : list (MidiSamplerVoice F)) : keeps_playing vs vs.
Proof. intros i v Hv Hp. eauto. Qed.

Lemma keeps_playing_trans (a b c : list (MidiSamplerVoice F)) :
  keeps_playing a b -> keeps_playing b c -> keeps_playing a c.
Proof.
  intros Hab Hbc i v Hv Hp.
  destruct (Hab i v Hv Hp) as (v1 & Hv1 & Hp1). eauto.
Qed.

Lemma noteOn_sound_one_shot (steal : StealPolicy F) (ch n : Z) (vel : F)
    (vs : list (MidiSamplerVoice F)) (sound : ButtonSampleSound F) :
  keeps_playing vs (noteOn_sound steal true ch n vel vs sound).
Proof.
  unfold noteOn_sound. rewrite map_stop_ringing_one_shot.
  destruct (appliesToNote sound n && appliesToChannel sound ch);
    [|apply keeps_playing_refl].
  destruct (findFreeVoice steal vs sound ch n) as [k|]; [|apply keeps_playing_refl].
  destruct (vs !! k) as [vk|] eqn:Hk; [|apply keeps_playing_refl].
  intros i v Hv Hp. destruct (decide (k = i)) as [->|Hne].
  - eexists. split.
    + apply list_lookup_insert_eq. apply lookup_lt_Some in Hv. exact Hv.
    + apply startVoice_isPlaying.
  - exists v. split; [|exact Hp]. rewrite list_lookup_insert_ne by exact Hne. exact Hv.
Qed.

Lemma noteOn_one_shot (steal : StealPolicy F) (ch n : Z) (vel : F) (s : Synthesiser F) :
  keeps_playing (voices s) (voices (noteOn steal true ch n vel s)).
Proof.
  unfold noteOn. simpl. generalize (voices s) as vs.
  induction (sounds s) as [|x l IH]; intros vs; simpl; [apply keeps_playing_refl|].
  eapply keeps_playing_trans; [apply noteOn_sound_one_shot | apply IH].
Qed.

Lemma handleMidiEvent_one_shot (steal : StealPolicy F) (m : MidiMessage) (s : Synthesiser F) :
  keeps_playing (voices s) (voices (handleMidiEvent steal true m s)).
Proof.
  unfold handleMidiEvent. destruct (isNoteOn m); [apply noteOn_one_shot|].
  destruct (isNoteOff m); [rewrite noteOff_one_shot; apply keeps_playing_refl|].
  destruct (isAllNotesOff m); [|apply keeps_playing_refl].
  rewrite allNotesOff_one_shot. apply keeps_playing_refl.
Qed.

Lemma handle_all_one_shot (steal : StealPolicy F) (ms : list MidiMessage) :
  forall s : Synthesiser F,
    keeps_playing (voices s)
      (voices (foldl (fun s m => handleMidiEvent steal true m s) s ms)).
Proof.
  induction ms as [|m ms IH]; intros s; simpl; [apply keeps_playing_refl|].
  eapply keeps_playing_trans; [apply handleMidiEvent_one_shot | apply IH].
Qed.

Lemma renderVoices_lookup (h : Heap F) (start n : Z) :
  forall (vs vs' : list (MidiSamplerVoice F)) (out out' : AudioBuffer F),
    renderVoices h start n vs out = Some (vs', out') ->
    forall i v', vs' !! i = Some v' ->
      exists v o1 o2, vs !! i = Some v
        /\ renderNextBlock h start n v o1 = Some (v', o2).
Proof.
  induction vs as [|v vs IH]; intros vs' out out' Hrun i v' Hv'; simpl in Hrun.
  - inversion Hrun; subst. rewrite lookup_nil in Hv'. discriminate.
  - destruct (renderNextBlock h start n v out) as [[v1 out1]|] eqn:Hone; [|discriminate].
    destruct (renderVoices h start n vs out1) as [[rest out2]|] eqn:Hrest; [|discriminate].
    inversion Hrun; subst. destruct i as [|i]; simpl in Hv'.
    + inversion Hv'; subst. exists v, out, out1. split; [reflexivity | exact Hone].
    + destruct (IH _ _ _ Hrest i v' Hv') as (v0 & o1 & o2 & Hv0 & Hr).
      exists v0, o1, o2. split; [exact Hv0 | exact Hr].
Qed.

(** *** Operations that leave the voices alone *)

Lemma clearSample_voices (i : Z) (p : SamplerPlugin F) :
  voices (synth (clearSample i p)) = voices (synth p).
Proof. unfold clearSample. repeat case_match; reflexivity. Qed.

Lemma loadSample_voices (fs : FileSys F) (i : Z) (file : string) (p : SamplerPlugin F) :
  voices (synth (snd (loadSample fs i file p))) = voices (synth p).
Proof.
  unfold loadSample. repeat case_match; simpl; try reflexivity;
    apply clearSample_voices.
Qed.

Lemma setNoteMapping_voices (i n : Z) (p : SamplerPlugin F) :
  voices (synth (setNoteMapping i n p)) = voices (synth p).
Proof. unfold setNoteMapping. repeat case_match; reflexivity. Qed.

Lemma clearMidiNoteSample_voices (n : Z) (p : SamplerPlugin F) :
  voices (synth (clearMidiNoteSample n p)) = voices (synth p).
Proof. unfold clearMidiNoteSample. repeat case_match; reflexivity. Qed.

Lemma loadSampleForMidiNote_voices (fs : FileSys F) (n : Z) (file : string)
    (p : SamplerPlugin F) :
  voices (synth (snd (loadSampleForMidiNote fs n file p))) = voices (synth p).
Proof.
  unfold loadSampleForMidiNote. repeat case_match; simpl; try reflexivity;
    apply clearMidiNoteSample_voices.
Qed.

Lemma import_button_voices (p : SamplerPlugin F) (item : JsonItem ButtonObj) :
  voices (synth (import_button p item)) = voices (synth p).
Proof.
  unfold import_button. repeat case_match; try reflexivity.
  apply setNoteMapping_voices.
Qed.

Lemma import_note_voices (fs : FileSys F) (st : SamplerPlugin F * Z * Z)
    (item : JsonItem NoteObj) :
  voices (synth (fst (fst (import_note fs st item)))) = voices (synth (fst (fst st))).
Proof.
  destruct st as [[p l] f]. unfold import_note.
  destruct item as [|o]; [reflexivity|].
  destruct (_ && _); [|reflexivity].
  destruct (file_exists fs (no_filePath o)); [|reflexivity].
  pose proof (loadSampleForMidiNote_voices fs (no_midiNote o) (no_filePath o) p) as Hv.
  destruct (loadSampleForMidiNote fs (no_midiNote o) (no_filePath o) p) as [[|] p1];
    exact Hv.
Qed.

Lemma loadAllSamplesFromJson_voices (fs : FileSys F) (json : JsonValue) (w : World F) :
  world_voices (snd (loadAllSamplesFromJson fs json w)) = world_voices w.
Proof.
  unfold loadAllSamplesFromJson, world_voices.
  destruct json as [|d]; [reflexivity|].
  destruct (doc_oneShotMode d) as [b|].
  all: set (p1 := match doc_buttons d with
                  | Some items => foldl import_button (plugin w) items
                  | None => plugin w
                  end).
  all: assert (Hp1 : voices (synth p1) = voices (synth (plugin w)))
         by (subst p1; destruct (doc_buttons d) as [items|]; [|reflexivity];
             apply (foldl_preserves
                      (fun p => voices (synth p) = voices (synth (plugin w))));
             [intros a x Ha; rewrite import_button_voices; exact Ha | reflexivity]).
  all: set (st := match doc_midiNotes d with
                  | Some items => foldl (import_note fs) (p1, 0, 0) items
                  | None => (p1, 0, 0)
                  end).
  all: assert (Hst : voices (synth (fst (fst st))) = voices (synth (plugin w)))
         by (subst st; destruct (doc_midiNotes d) as [items|]; [|exact Hp1];
             apply (foldl_preserves
                      (fun st => voices (synth (fst (fst st)))
                                 = voices (synth (plugin w))));
             [intros a x Ha; rewrite import_note_voices; exact Ha | exact Hp1]).
  all: destruct st as [[p2 l] f]; exact Hst.
Qed.

Lemma handleIncomingMidiMessage_voices (msg : MidiMessage) (w : World F) :
  world_voices (handleIncomingMidiMessage msg w) = world_voices w.
Proof.
  unfold handleIncomingMidiMessage, handleMidiMessage, world_voices.
  repeat case_match; simpl; try reflexivity; rewrite setNoteMapping_voices;
    reflexivity.
Qed.

Lemma buttonClicked_voices (b : EditorButton) (w : World F) :
  world_voices (buttonClicked b w) = world_voices w.
Proof. unfold buttonClicked, world_voices. repeat case_match; reflexivity. Qed.

Lemma loadSampleForButton_voices (i : Z) (w : World F) :
  world_voices (loadSampleForButton i w) = world_voices w.
Proof. unfold loadSampleForButton, world_voices. case_match; reflexivity. Qed.

Lemma mouseDown_voices (i : Z) (r : bool) (w : World F) :
  world_voices (mouseDown i r w) = world_voices w.
Proof.
  unfold mouseDown. destruct r; [apply clearSample_voices|].
  destruct (isMidiLearning (editor w)); [reflexivity|].
  destruct (isSampleLearning (editor w)); [apply loadSampleForButton_voices|].
  reflexivity.
Qed.

Lemma fileChooserCallback_voices (fs : FileSys F) (file : string) (w : World F) :
  world_voices (fileChooserCallback fs file w) = world_voices w.
Proof.
  unfold fileChooserCallback, world_voices.
  destruct (fileChooserButton (editor w)) as [b|]; [|reflexivity].
  destruct (file_exists fs file); [|reflexivity].
  pose proof (loadSampleForMidiNote_voices fs (getNoteMapping (plugin w) b) file
                (plugin w)) as Hv.
  destruct (loadSampleForMidiNote fs (getNoteMapping (plugin w) b) file (plugin w))
    as [[|] p1]; exact Hv.
Qed.

Lemma timerCallback_voices (elapsed : bool) (w : World F) :
  world_voices (timerCallback elapsed w) = world_voices w.
Proof. unfold timerCallback, world_voices. case_match; reflexivity. Qed.

Lemma iter_preserves {A : Type} (P : A -> Prop) (f : A -> A) (k : nat) :
  (forall a, P a -> P (f a)) -> forall a, P a -> P (Nat.iter k f a).
Proof.
  intros Hf a Ha. induction k as [|k IH]; simpl; [exact Ha | apply Hf, IH].
Qed.

Lemma restore_button_voices (fs : FileSys F) (b : XmlButton) (p : SamplerPlugin F) :
  voices (synth (restore_button fs b p)) = voices (synth p).
Proof.
  unfold restore_button. destruct (_ && _); [|reflexivity].
  destruct (ButtonSample_clear _ _) as [h' cleared].
  destruct (isNotEmpty _); [rewrite loadSample_voices|]; reflexivity.
Qed.

Lemma setStateInformation_voices (fs : FileSys F) (xml : option XmlElement)
    (p : SamplerPlugin F) :
  voices (synth (setStateInformation fs xml p)) = voices (synth p).
Proof.
  unfold setStateInformation. destruct xml as [x|]; [|reflexivity].
  destruct (String.eqb _ _); [|reflexivity].
  apply (iter_preserves (fun q => voices (synth q) = voices (synth p)));
    [|reflexivity].
  intros q Hq. destruct (getChildByName_Button _); [|exact Hq].
  rewrite restore_button_voices. exact Hq.
Qed.

(** Every event except a rendered block leaves the voices as they are. *)
Lemma step_voices (fs : FileSys F) (steal : StealPolicy F) (ev : Event F) (w w' : World F) :
  step fs steal ev w = Some w' ->
  (exists buffer frames hostMidi, ev = EvProcessBlock buffer frames hostMidi)
  \/ world_voices w' = world_voices w.
Proof.
  destruct ev as [msg|buffer frames hostMidi|b|i r|i|file|elapsed|json
                  |i file|i|i n|n file|n|xml]; simpl; intros Hstep.
  2: { left. eauto. }
  all: right; inversion Hstep; subst; clear Hstep.
  - apply handleIncomingMidiMessage_voices.
  - apply buttonClicked_voices.
  - apply mouseDown_voices.
  - apply loadSampleForButton_voices.
  - apply fileChooserCallback_voices.
  - apply timerCallback_voices.
  - apply loadAllSamplesFromJson_voices.
  - apply loadSample_voices.
  - apply clearSample_voices.
  - apply setNoteMapping_voices.
  - apply loadSampleForMidiNote_voices.
  - apply clearMidiNoteSample_voices.
  - apply setStateInformation_voices.
Qed.

End SynthFacts.

(** ** One-shot mode *)

(** C5.  While one-shot mode is enabled a note-off changes no voice: the
    voice's [stopNote] returns at once, so the synthesiser's [noteOff] and
    every message that is not a note-on leave the synthesiser as it is.
    A voice that was playing before an event and is not playing after it
    was stopped by the rendering of a block, with its playhead at or past
    the frame count of the buffer it reads. *)
Theorem one_shot_ignores_note_off {F : Type} `{FloatOps F}
    (fs : FileSys F) (steal : StealPolicy F) (w : World F) :
  oneShotEnabled w = true ->
  (forall (vel : F) tail (v : MidiSamplerVoice F),
     stopNote (oneShotEnabled w) vel tail v = v)
  /\ (forall ch n vel tail,
        noteOff (oneShotEnabled w) ch n vel tail (synth (plugin w)) = synth (plugin w))
  /\ (forall m, isNoteOn m = false ->
        handleMidiEvent steal (oneShotEnabled w) m (synth (plugin w)) = synth (plugin w))
  /\ (forall ev w' i v v',
        step fs steal ev w = Some w' ->
        world_voices w !! i = Some v -> v_isPlaying v = true ->
        world_voices w' !! i = Some v' -> v_isPlaying v' = false ->
        (exists buffer frames hostMidi, ev = EvProcessBlock buffer frames hostMidi)
        /\ exists a buf,
             v_sampleBuffer v' = Some a
             /\ heap_read (heap (plugin w)) a = Some buf
             /\ pos_ge_len (v_position v') (numSamples buf) = true).
Proof.
  intros Hone. rewrite Hone.
  split; [reflexivity|]. split; [|split].
  - intros ch n vel tail. apply noteOff_one_shot.
  - intros m Hm. unfold handleMidiEvent. rewrite Hm.
    destruct (isNoteOff m); [apply noteOff_one_shot|].
    destruct (isAllNotesOff m); [apply allNotesOff_one_shot | reflexivity].
  - intros ev w' i v v' Hstep Hv Hp Hv' Hp'.
    destruct (step_voices fs steal ev w w' Hstep)
      as [(buffer & frames & hostMidi & ->) | Hsame].
    2: { rewrite Hsame in Hv'. congruence. }
    split; [eauto|].
    simpl in Hstep. rewrite Hone in Hstep. unfold processBlock in Hstep.
    set (s1 := foldl (fun s m => handleMidiEvent steal true m s) (synth (plugin w))
                     (hostMidi ++ midiCollector (plugin w))) in Hstep.
    destruct (renderVoices (heap (plugin w)) 0 frames (voices s1) buffer)
      as [[vs out]|] eqn:Hrender; [|discriminate].
    inversion Hstep; subst w'; clear Hstep. unfold world_voices in Hv'. simpl in Hv'.
    destruct (renderVoices_lookup _ _ _ _ _ _ _ Hrender i v' Hv')
      as (v0 & o1 & o2 & Hv0 & Hrun).
    destruct (handle_all_one_shot steal (hostMidi ++ midiCollector (plugin w))
                (synth (plugin w)) i v Hv Hp) as (v1 & Hv1 & Hp1).
    fold s1 in Hv1. rewrite Hv0 in Hv1. inversion Hv1; subst v1.
    destruct (renderNextBlock_inv _ _ _ _ _ _ _ Hrun) as (_ & _ & Hstop).
    apply Hstop; assumption.
Qed.

Lemma one_shot_ignores_note_off_witness :
  noteOff (oneShotEnabled demo_playing) 1 60 0%Q true (synth (plugin demo_playing))
    = synth (plugin demo_playing)
  /\ exists a buf,
       v_sampleBuffer (mkVoice false 1%Q 4%Q 1%Q 60 60 (Some 0%nat) demo_rate (-1) 0 None)
         = Some a
       /\ heap_read (heap (plugin demo_playing)) a = Some buf
       /\ pos_ge_len 4%Q (numSamples buf) = true.
Proof.
  pose proof (@one_shot_ignores_note_off Q Q_FloatOps demo_fs no_steal demo_playing
                ltac:(reflexivity)) as (_ & Hoff & _ & Hstop).
  split; [apply Hoff|].
  refine (proj2 (Hstop (EvProcessBlock (silence 4) 4 [MidiNoteOff 1 60 0])
                       (default demo_playing
                          (step demo_fs no_steal
                             (EvProcessBlock (silence 4) 4 [MidiNoteOff 1 60 0])
                             demo_playing))
                       0%nat
                       (mkVoice true 1%Q 2%Q 1%Q 60 60 (Some 0%nat) demo_rate 60 1
                                (Some demo_sound))
                       (mkVoice false 1%Q 4%Q 1%Q 60 60 (Some 0%nat) demo_rate (-1) 0 None)
                       _ _ _ _ _));
    vm_compute; reflexivity.
Defined.

(** ** No voice is ever pitch-shifted *)

Section Unshifted.
Context {F : Type} `{FloatLaws F}.

Lemma startVoice_unshifted (o : bool) (sound : ButtonSampleSound F) (ch n : Z)
    (vel : F) (v : MidiSamplerVoice F) :
  appliesToNote sound n = true -> unshifted (startVoice o sound ch n vel v).
Proof.
  unfold appliesToNote. intros Hn. apply Z.eqb_eq in Hn. subst n.
  unfold unshifted, startVoice, startNote. simpl.
  destruct (rate_positive (snd_sourceSampleRate sound)); [|reflexivity].
  rewrite int_sub_diag. apply semitone_ratio_0.
Qed.

Lemma noteOn_sound_unshifted (steal : StealPolicy F) (o : bool) (ch n : Z) (vel : F)
    (vs : list (MidiSamplerVoice F)) (sound : ButtonSampleSound F) :
  Forall unshifted vs -> Forall unshifted (noteOn_sound steal o ch n vel vs sound).
Proof.
  intros Hvs. unfold noteOn_sound.
  destruct (appliesToNote sound n) eqn:Happ; simpl; [|exact Hvs].
  assert (Hvs1 : Forall unshifted (map (stop_ringing o ch n) vs)).
  { apply Forall_fmap. eapply Forall_impl; [exact Hvs|].
    intros v Hv. unfold unshifted, stop_ringing in *. simpl.
    destruct (_ && _); [rewrite stopNote_pitchRatio|]; exact Hv. }
  destruct (findFreeVoice steal _ sound ch n) as [k|]; [|exact Hvs1].
  destruct (map (stop_ringing o ch n) vs !! k) as [vk|]; [|exact Hvs1].
  apply Forall_insert; [exact Hvs1|]. apply startVoice_unshifted, Happ.
Qed.

Lemma handleMidiEvent_unshifted (steal : StealPolicy F) (o : bool) (m : MidiMessage)
    (s : Synthesiser F) :
  Forall unshifted (voices s) -> Forall unshifted (voices (handleMidiEvent steal o m s)).
Proof.
  intros Hvs. unfold handleMidiEvent.
  destruct (isNoteOn m).
  - unfold noteOn. simpl.
    apply (foldl_preserves (Forall unshifted)); [|exact Hvs].
    intros a x Ha. apply noteOn_sound_unshifted, Ha.
  - destruct (isNoteOff m).
    + unfold noteOff. simpl. apply Forall_fmap. eapply Forall_impl; [exact Hvs|].
      intros v Hv. unfold unshifted, noteOff_voice in *. simpl.
      repeat case_match; try exact Hv. rewrite stopNote_pitchRatio. exact Hv.
    + destruct (isAllNotesOff m); [|exact Hvs].
      unfold allNotesOff. simpl. apply Forall_fmap. eapply Forall_impl; [exact Hvs|].
      intros v Hv. unfold unshifted in *. simpl.
      destruct (_ || _); [rewrite stopNote_pitchRatio|]; exact Hv.
Qed.

Lemma renderVoices_unshifted (h : Heap F) (start n : Z) :
  forall (vs vs' : list (MidiSamplerVoice F)) (out out' : AudioBuffer F),
    renderVoices h start n vs out = Some (vs', out') ->
    Forall unshifted vs -> Forall unshifted vs'.
Proof.
  intros vs vs' out out' Hrun Hvs.
  apply Forall_lookup. intros i v' Hv'.
  destruct (renderVoices_lookup _ _ _ _ _ _ _ Hrun i v' Hv')
    as (v & o1 & o2 & Hv & Hone).
  apply renderNextBlock_inv in Hone. destruct Hone as (Hratio & _).
  unfold unshifted. rewrite Hratio.
  exact (proj1 (Forall_lookup _ _) Hvs i v Hv).
Qed.

Lemma step_unshifted (fs : FileSys F) (steal : StealPolicy F) (ev : Event F)
    (w w' : World F) :
  step fs steal ev w = Some w' ->
  Forall unshifted (world_voices w) -> Forall unshifted (world_voices w').
Proof.
  intros Hstep Hvs.
  destruct (step_voices fs steal ev w w' Hstep)
    as [(buffer & frames & hostMidi & ->) | Hsame].
  2: { rewrite Hsame. exact Hvs. }
  simpl in Hstep. unfold processBlock in Hstep.
  set (s1 := foldl (fun s m => handleMidiEvent steal (oneShotEnabled w) m s)
                   (synth (plugin w)) (hostMidi ++ midiCollector (plugin w))) in Hstep.
  destruct (renderVoices (heap (plugin w)) 0 frames (voices s1) buffer)
    as [[vs out]|] eqn:Hrender; [|discriminate].
  inversion Hstep; subst w'; clear Hstep. unfold world_voices. simpl.
  eapply renderVoices_unshifted; [exact Hrender|].
  subst s1.
  apply (foldl_preserves (fun s => Forall unshifted (voices s))); [|exact Hvs].
  intros a x Ha. apply handleMidiEvent_unshifted, Ha.
Qed.

End Unshifted.

(** C10.  In every state the application can reach, every voice has the
    pitch ratio [1.0]: a sound applies only to its own root note, so each
    voice the synthesiser starts evaluates the ratio formula at a
    difference of zero semitones, and nothing else writes the ratio. *)
Theorem reachable_voices_never_shifted {F : Type} `{FloatLaws F}
    (fs : FileSys F) (steal : StealPolicy F) (defaultRate : F) (w : World F) :
  reachable fs steal defaultRate w ->
  Forall (fun v => v_pitchRatio v = fone) (world_voices w).
Proof.
  induction 1 as [|w ev w' Hreach IH Hstep].
  - unfold world_voices, World_new, SamplerPlugin_new. simpl.
    repeat constructor.
  - exact (step_unshifted fs steal ev w w' Hstep IH).
Qed.

Lemma demo_playing_reachable : reachable demo_fs no_steal demo_rate demo_playing.
Proof.
  eapply reachable_step with (ev := EvProcessBlock (silence 2) 2 []);
    [eapply reachable_step with (ev := EvMidiIn (MidiNoteOn 1 60 127));
     [eapply reachable_step with (ev := EvLoadSampleForMidiNote 60 "kick.wav");
      [apply reachable_init | reflexivity]
     | reflexivity]
    | vm_compute; reflexivity].
Defined.

Lemma reachable_voices_never_shifted_witness :
  Forall (fun v => v_pitchRatio v = fone) (world_voices demo_playing).
Proof.
  exact (@reachable_voices_never_shifted Q Q_FloatOps Q_FloatLaws demo_fs no_steal
           demo_rate demo_playing demo_playing_reachable).
Defined.

(** ** Sample slots: loading and clearing *)

Section SlotFacts.
Context {F : Type} `{FloatOps F}.

Lemma Array_get_insert_eq {A : Type} (d x : A) (l : list A) (i : Z) :
  in_range i (length l) = true -> Array_get d (<[Z.to_nat i := x]> l) i = x.
Proof.
  intros Hi. unfold Array_get. rewrite length_insert, Hi.
  unfold in_range in Hi. rewrite list_lookup_insert_eq by lia. reflexivity.
Qed.

Lemma Array_get_insert_ne {A : Type} (d x : A) (l : list A) (i j : Z) :
  0 <= i -> i <> j -> Array_get d (<[Z.to_nat i := x]> l) j = Array_get d l j.
Proof.
  intros Hi Hne. unfold Array_get. rewrite length_insert.
  destruct (in_range j (length l)) eqn:Hj; [|reflexivity].
  unfold in_range in Hj. rewrite list_lookup_insert_ne by lia. reflexivity.
Qed.

Lemma Array_get_insert_default {A : Type} (d : A) (l : list A) (i : Z) :
  Array_get d (<[Z.to_nat i := d]> l) i = d.
Proof.
  unfold Array_get. rewrite length_insert.
  destruct (in_range i (length l)) eqn:Hi; [|reflexivity].
  unfold in_range in Hi. rewrite list_lookup_insert_eq by lia. reflexivity.
Qed.

Lemma clearMidiNoteSample_out (n : Z) (p : SamplerPlugin F) :
  ~ (0 <= n < 128) -> clearMidiNoteSample n p = p.
Proof.
  intros Hn. unfold clearMidiNoteSample.
  destruct ((0 <=? n) && (n <? 128)) eqn:Hg; [lia | reflexivity].
Qed.

Lemma clearMidiNoteSample_in (n : Z) (p : SamplerPlugin F) :
  0 <= n < 128 ->
  midiNoteSamples (clearMidiNoteSample n p)
    = <[Z.to_nat n := ButtonSample_new]> (midiNoteSamples p)
  /\ noteMapping (clearMidiNoteSample n p) = noteMapping p
  /\ buttons (clearMidiNoteSample n p) = buttons p
  /\ midiCollector (clearMidiNoteSample n p) = midiCollector p.
Proof.
  intros Hn. unfold clearMidiNoteSample.
  destruct ((0 <=? n) && (n <? 128)) eqn:Hg; [|lia].
  repeat split.
Qed.

Lemma clearSample_out (i : Z) (p : SamplerPlugin F) :
  ~ (0 <= i < 16) -> clearSample i p = p.
Proof.
  intros Hi. unfold clearSample.
  destruct ((0 <=? i) && (i <? 16)) eqn:Hg; [lia | reflexivity].
Qed.

Lemma clearSample_in (i : Z) (p : SamplerPlugin F) :
  0 <= i < 16 ->
  buttons (clearSample i p) = <[Z.to_nat i := ButtonSample_new]> (buttons p)
  /\ noteMapping (clearSample i p) = noteMapping p
  /\ midiNoteSamples (clearSample i p) = midiNoteSamples p.
Proof.
  intros Hi. unfold clearSample.
  destruct ((0 <=? i) && (i <? 16)) eqn:Hg; [|lia].
  repeat split.
Qed.

Lemma loadSampleForMidiNote_out (fs : FileSys F) (n : Z) (file : string)
    (p : SamplerPlugin F) :
  ~ (0 <= n < 128) -> loadSampleForMidiNote fs n file p = (false, p).
Proof.
  intros Hn. unfold loadSampleForMidiNote.
  destruct ((n <? 0) || (128 <=? n)) eqn:Hg; [reflexivity | lia].
Qed.

(** The slot a load leaves behind, whatever the decoder says. *)
Lemma loadSampleForMidiNote_in (fs : FileSys F) (n : Z) (file : string)
    (p : SamplerPlugin F) :
  0 <= n < 128 ->
  let r := loadSampleForMidiNote fs n file p in
  noteMapping (snd r) = noteMapping p
  /\ buttons (snd r) = buttons p
  /\ midiCollector (snd r) = midiCollector p
  /\ match createReaderFor fs file with
     | Some reader =>
         fst r = true
         /\ exists a, midiNoteSamples (snd r)
              = <[Z.to_nat n := mkButtonSample (Some a) file (rd_sampleRate reader)
                                               true n]> (midiNoteSamples p)
     | None =>
         fst r = false
         /\ midiNoteSamples (snd r)
              = <[Z.to_nat n := ButtonSample_new]> (midiNoteSamples p)
     end.
Proof.
  intros Hn r. subst r. unfold loadSampleForMidiNote.
  destruct ((n <? 0) || (128 <=? n)) eqn:Hg; [lia|].
  destruct (clearMidiNoteSample_in n p Hn) as (Hs & Hm & Hb & Hq).
  destruct (createReaderFor fs file) as [reader|]; simpl.
  - rewrite Hm, Hb, Hq, Hs, list_insert_insert_eq. repeat split. eauto.
  - rewrite Hm, Hb, Hq, Hs. repeat split.
Qed.

Lemma loadSample_out (fs : FileSys F) (i : Z) (file : string) (p : SamplerPlugin F) :
  ~ (0 <= i < 16) -> loadSample fs i file p = (false, p).
Proof.
  intros Hi. unfold loadSample.
  destruct ((i <? 0) || (16 <=? i)) eqn:Hg; [reflexivity | lia].
Qed.

Lemma loadSample_fail (fs : FileSys F) (i : Z) (file : string) (p : SamplerPlugin F) :
  0 <= i < 16 -> createReaderFor fs file = None ->
  loadSample fs i file p = (false, clearSample i p).
Proof.
  intros Hi Hnone. unfold loadSample.
  destruct ((i <? 0) || (16 <=? i)) eqn:Hg; [lia|].
  rewrite Hnone. reflexivity.
Qed.

End SlotFacts.

(** C2, as the code has it.  A load whose file does not decode reports
    [false] and leaves every other slot alone, but the target slot has
    been cleared before the decoder ran: it ends up empty, so its former
    contents survive only when it was empty already.  An index out of
    range changes nothing.  This holds for the note-indexed and for the
    pad-indexed loader. *)
Theorem failed_load_reports_and_clears {F : Type} `{FloatOps F}
    (fs : FileSys F) (file : string) (p : SamplerPlugin F) (k : Z) :
  createReaderFor fs file = None ->
  (fst (loadSampleForMidiNote fs k file p) = false
   /\ (0 <= k < 128 ->
         getMidiNoteSample (snd (loadSampleForMidiNote fs k file p)) k = ButtonSample_new)
   /\ (forall m, m <> k ->
         getMidiNoteSample (snd (loadSampleForMidiNote fs k file p)) m
           = getMidiNoteSample p m)
   /\ (getMidiNoteSample p k = ButtonSample_new ->
         getMidiNoteSample (snd (loadSampleForMidiNote fs k file p)) k
           = getMidiNoteSample p k)
   /\ (~ (0 <= k < 128) -> snd (loadSampleForMidiNote fs k file p) = p))
  /\ (fst (loadSample fs k file p) = false
      /\ (0 <= k < 16 ->
            getButton (snd (loadSample fs k file p)) k = ButtonSample_new)
      /\ (forall m, m <> k ->
            getButton (snd (loadSample fs k file p)) m = getButton p m)
      /\ (getButton p k = ButtonSample_new ->
            getButton (snd (loadSample fs k file p)) k = getButton p k)
      /\ (~ (0 <= k < 16) -> snd (loadSample fs k file p) = p)).
Proof.
  intros Hnone. split.
  - destruct (decide (0 <= k < 128)) as [Hk|Hk].
    + pose proof (loadSampleForMidiNote_in fs k file p Hk) as Hin.
      simpl in Hin. rewrite Hnone in Hin. destruct Hin as (_ & _ & _ & Hf & Hs).
      unfold getMidiNoteSample. rewrite Hs.
      split; [exact Hf|]. split; [|split; [|split]].
      * intros _. apply Array_get_insert_default.
      * intros m Hm. apply Array_get_insert_ne; lia.
      * intros ->. apply Array_get_insert_default.
      * intros Hout. lia.
    + rewrite (loadSampleForMidiNote_out fs k file p Hk). simpl.
      repeat split; try reflexivity. intros Hin. lia.
  - destruct (decide (0 <= k < 16)) as [Hk|Hk].
    + rewrite (loadSample_fail fs k file p Hk Hnone). simpl.
      destruct (clearSample_in k p Hk) as (Hb & _ & _).
      unfold getButton. rewrite Hb.
      split; [reflexivity|]. split; [|split; [|split]].
      * intros _. apply Array_get_insert_default.
      * intros m Hm. apply Array_get_insert_ne; lia.
      * intros ->. apply Array_get_insert_default.
      * intros Hout. lia.
    + rewrite (loadSample_out fs k file p Hk). simpl.
      repeat split; try reflexivity. intros Hin. lia.
Qed.

Lemma failed_load_reports_and_clears_witness :
  fst (loadSampleForMidiNote demo_fs 60 "broken.wav" demo_loaded) = false
  /\ getMidiNoteSample (snd (loadSampleForMidiNote demo_fs 60 "broken.wav" demo_loaded)) 60
     = ButtonSample_new.
Proof.
  pose proof (@failed_load_reports_and_clears Q Q_FloatOps demo_fs "broken.wav"
                demo_loaded 60 ltac:(reflexivity)) as ((Hf & Hc & _) & _).
  split; [exact Hf | apply Hc; lia].
Defined.

(** C2 as stated fails: note 60 holds a loaded sample, the next load on
    note 60 names a file that does not decode, and afterwards the slot is
    no longer what it was: its buffer, path, rate and loaded flag are gone. *)
Lemma failed_load_loses_previous_sample :
  createReaderFor demo_fs "broken.wav" = None
  /\ getMidiNoteSample demo_loaded 60
     = mkButtonSample (Some 0%nat) "kick.wav" demo_rate true 60
  /\ fst (loadSampleForMidiNote demo_fs 60 "broken.wav" demo_loaded) = false
  /\ getMidiNoteSample (snd (loadSampleForMidiNote demo_fs 60 "broken.wav" demo_loaded)) 60
     = mkButtonSample None EmptyString 0%Q false 60
  /\ getMidiNoteSample (snd (loadSampleForMidiNote demo_fs 60 "broken.wav" demo_loaded)) 60
     <> getMidiNoteSample demo_loaded 60.
Proof.
  repeat split; try (vm_compute; reflexivity).
  vm_compute. discriminate.
Qed.

(** ** The learn modes *)

Section LearnFacts.
Context {F : Type} `{FloatOps F}.

Lemma setNoteMapping_in (i n : Z) (p : SamplerPlugin F) :
  0 <= i < 16 ->
  noteMapping (setNoteMapping i n p) = Array_set i n (noteMapping p)
  /\ midiNoteSamples (setNoteMapping i n p) = midiNoteSamples p
  /\ buttons (setNoteMapping i n p) = buttons p
  /\ heap (setNoteMapping i n p) = heap p
  /\ midiCollector (setNoteMapping i n p) = midiCollector p.
Proof.
  intros Hi. unfold setNoteMapping.
  destruct ((i <? 0) || (16 <=? i)) eqn:Hg; [lia|]. repeat split.
Qed.

Lemma setNoteMapping_out (i n : Z) (p : SamplerPlugin F) :
  ~ (0 <= i < 16) -> setNoteMapping i n p = p.
Proof.
  intros Hi. unfold setNoteMapping.
  destruct ((i <? 0) || (16 <=? i)) eqn:Hg; [reflexivity | lia].
Qed.

Lemma Array_set_in {A : Type} (i : Z) (x : A) (l : list A) :
  in_range i (length l) = true -> Array_set i x l = <[Z.to_nat i := x]> l.
Proof.
  unfold in_range, Array_set. intros Hi.
  destruct (i <? 0) eqn:Hneg; [lia|].
  destruct (i <? Z.of_nat (length l)) eqn:Hlt; [reflexivity | lia].
Qed.

Lemma track_note_flags (note : Z) (b : bool) (vel : F) (e : SamplerEditor F) :
  isMidiLearning (track_note note b vel e) = isMidiLearning e
  /\ isSampleLearning (track_note note b vel e) = isSampleLearning e
  /\ learningButtonIndex (track_note note b vel e) = learningButtonIndex e
  /\ sampleLearnButtonIndex (track_note note b vel e) = sampleLearnButtonIndex e
  /\ fileChooserButton (track_note note b vel e) = fileChooserButton e.
Proof. repeat split. Qed.

End LearnFacts.

(** C1, as the code has it.  A note-on arriving while MIDI Learn is armed
    and a pad is selected binds that pad to the note, leaves the other
    pads alone and ends the learn session.  No voice changes while the
    message is handled, but the message is not withheld from the engine:
    it has been appended to the plugin's MIDI queue, which the next audio
    block hands to the synthesiser. *)
Theorem midi_learn_rebinds_and_forwards {F : Type} `{FloatOps F}
    (msg : MidiMessage) (w : World F) :
  isMidiLearning (editor w) = true ->
  0 <= learningButtonIndex (editor w) < 16 ->
  isNoteOn msg = true ->
  length (noteMapping (plugin w)) = 16%nat ->
  let pad := learningButtonIndex (editor w) in
  let w' := handleIncomingMidiMessage msg w in
  getNoteMapping (plugin w') pad = getNoteNumber msg
  /\ (forall other, other <> pad ->
        getNoteMapping (plugin w') other = getNoteMapping (plugin w) other)
  /\ isMidiLearning (editor w') = false
  /\ learningButtonIndex (editor w') = -1
  /\ world_voices w' = world_voices w
  /\ midiCollector (plugin w') = midiCollector (plugin w) ++ [msg].
Proof.
  intros Hlearn Hpad Hon Hlen pad w'. subst pad w'.
  pose proof (handleIncomingMidiMessage_voices msg w) as Hvoices.
  revert Hvoices.
  unfold handleIncomingMidiMessage, handleMidiMessage. simpl.
  set (e1 := if isNoteOn msg && (0 <=? getNoteNumber msg) && (getNoteNumber msg <? 128)
             then track_note (getNoteNumber msg) true
                             (velocity_of_byte (getVelocity msg)) (editor w)
             else if isNoteOff msg && (0 <=? getNoteNumber msg)
                     && (getNoteNumber msg <? 128)
             then track_note (getNoteNumber msg) false fzero (editor w)
             else editor w).
  assert (He1 : isMidiLearning e1 = true
                /\ learningButtonIndex e1 = learningButtonIndex (editor w)).
  { subst e1. repeat case_match; split; auto. }
  destruct He1 as (Hl1 & Hi1). rewrite Hl1, Hi1, Hon.
  destruct (0 <=? learningButtonIndex (editor w)) eqn:Hge; [|lia]. simpl.
  intros Hvoices.
  destruct (setNoteMapping_in (learningButtonIndex (editor w)) (getNoteNumber msg)
              (addMessageToQueue msg (plugin w)) Hpad) as (Hm & _ & _ & _ & Hq).
  unfold getNoteMapping. rewrite Hm, Hq. simpl.
  assert (Hin : in_range (learningButtonIndex (editor w))
                         (length (noteMapping (plugin w))) = true).
  { unfold in_range. rewrite Hlen.
    apply andb_true_intro. split; [apply Z.leb_le | apply Z.ltb_lt]; lia. }
  rewrite Array_set_in by exact Hin.
  repeat split.
  - apply Array_get_insert_eq, Hin.
  - intros other Hne. apply Array_get_insert_ne; lia.
  - exact Hvoices.
Qed.

Lemma midi_learn_rebinds_and_forwards_witness :
  getNoteMapping (plugin (handleIncomingMidiMessage (MidiNoteOn 1 72 100) demo_armed)) 5
    = 72
  /\ midiCollector (plugin (handleIncomingMidiMessage (MidiNoteOn 1 72 100) demo_armed))
     = midiCollector (plugin demo_armed) ++ [MidiNoteOn 1 72 100].
Proof.
  pose proof (@midi_learn_rebinds_and_forwards Q Q_FloatOps (MidiNoteOn 1 72 100)
                demo_armed ltac:(reflexivity) ltac:(change (0 <= 5 < 16); lia)
                ltac:(reflexivity) ltac:(reflexivity))
    as (Hbind & _ & _ & _ & _ & Hqueue).
  split; [exact Hbind | exact Hqueue].
Defined.

(** C1 as stated fails: with MIDI Learn armed on pad 5 and a sample on
    note 72, the note-on for 72 rebinds the pad, yet it also sits in the
    plugin's queue, and the next audio block starts a voice for it and
    writes its sound into the output. *)
Lemma midi_learn_note_on_still_sounds :
  let w' := handleIncomingMidiMessage (MidiNoteOn 1 72 100) demo_armed in
  isMidiLearning (editor demo_armed) = true
  /\ learningButtonIndex (editor demo_armed) = 5
  /\ Forall (fun v => v_isPlaying v = false) (world_voices demo_armed)
  /\ getNoteMapping (plugin w') 5 = 72
  /\ midiCollector (plugin w') = [MidiNoteOn 1 72 100]
  /\ exists p v out,
       processBlock no_steal (oneShotEnabled w') (silence 2) 2 [] (plugin w')
         = Some (p, out)
       /\ voices (synth p) !! 0%nat = Some v
       /\ v_isPlaying v = true
       /\ v_midiNoteNumber v = 72
       /\ out = [[50 # 127; 25 # 127]; [50 # 127; 25 # 127]]%Q.
Proof.
  cbv zeta. split; [reflexivity|]. split; [reflexivity|].
  split; [vm_compute; repeat constructor|].
  split; [reflexivity|]. split; [reflexivity|].
  eexists _, _, _. split; [vm_compute; reflexivity|].
  split; [reflexivity|]. split; [reflexivity|]. split; reflexivity.
Qed.

(** C3, as the code has it.  While Sample Learn is armed a MIDI message
    is treated like any other: it is queued for the engine and neither
    ends the session nor selects a note.  The target of the load is
    chosen by clicking a pad: the file picked in the chooser opened for
    pad [b] is loaded on the note that pad is mapped to, and the session
    ends when the chooser returns. *)
Theorem sample_learn_targets_clicked_pad {F : Type} `{FloatOps F}
    (fs : FileSys F) (msg : MidiMessage) (b : Z) (file : string) (w : World F) :
  isSampleLearning (editor w) = true ->
  isMidiLearning (editor w) = false ->
  0 <= b < 16 ->
  file_exists fs file = true ->
  (let w1 := handleIncomingMidiMessage msg w in
   isSampleLearning (editor w1) = true
   /\ sampleLearnButtonIndex (editor w1) = sampleLearnButtonIndex (editor w)
   /\ fileChooserButton (editor w1) = fileChooserButton (editor w)
   /\ midiNoteSamples (plugin w1) = midiNoteSamples (plugin w)
   /\ noteMapping (plugin w1) = noteMapping (plugin w)
   /\ midiCollector (plugin w1) = midiCollector (plugin w) ++ [msg])
  /\ (let w2 := fileChooserCallback fs file (mouseDown b false w) in
      midiNoteSamples (plugin w2)
        = midiNoteSamples
            (snd (loadSampleForMidiNote fs (getNoteMapping (plugin w) b) file (plugin w)))
      /\ isSampleLearning (editor w2) = false
      /\ fileChooserButton (editor w2) = None).
Proof.
  intros Hsample Hmidi Hb Hexists. split.
  - cbv zeta. unfold handleIncomingMidiMessage, handleMidiMessage. simpl.
    set (e1 := if isNoteOn msg && (0 <=? getNoteNumber msg) && (getNoteNumber msg <? 128)
               then track_note (getNoteNumber msg) true
                               (velocity_of_byte (getVelocity msg)) (editor w)
               else if isNoteOff msg && (0 <=? getNoteNumber msg)
                       && (getNoteNumber msg <? 128)
               then track_note (getNoteNumber msg) false fzero (editor w)
               else editor w).
    assert (He1 : isMidiLearning e1 = false
                  /\ isSampleLearning e1 = true
                  /\ sampleLearnButtonIndex e1 = sampleLearnButtonIndex (editor w)
                  /\ fileChooserButton e1 = fileChooserButton (editor w)).
    { subst e1. repeat case_match; repeat split; auto. }
    destruct He1 as (Hm1 & Hs1 & Hi1 & Hc1). rewrite Hm1. simpl.
    repeat split; assumption.
  - cbv zeta. unfold mouseDown. rewrite Hmidi, Hsample.
    unfold loadSampleForButton.
    destruct ((0 <=? b) && (b <? 16)) eqn:Hg; [|lia].
    unfold fileChooserCallback. simpl. rewrite Hexists.
    destruct (loadSampleForMidiNote fs (getNoteMapping (plugin w) b) file (plugin w))
      as [[|] p1]; simpl; repeat split.
Qed.

Lemma sample_learn_targets_clicked_pad_witness :
  isSampleLearning
    (editor (handleIncomingMidiMessage (MidiNoteOn 1 72 100) demo_sample_learn)) = true
  /\ midiNoteSamples
       (plugin (fileChooserCallback demo_fs "kick.wav"
                  (mouseDown 0 false demo_sample_learn)))
     = midiNoteSamples
         (snd (loadSampleForMidiNote demo_fs
                 (getNoteMapping (plugin demo_sample_learn) 0) "kick.wav"
                 (plugin demo_sample_learn))).
Proof.
  pose proof (@sample_learn_targets_clicked_pad Q Q_FloatOps demo_fs
                (MidiNoteOn 1 72 100) 0 "kick.wav" demo_sample_learn
                ltac:(reflexivity) ltac:(reflexivity) ltac:(lia) ltac:(reflexivity))
    as ((Hstill & _) & (Hload & _)).
  split; [exact Hstill | exact Hload].
Defined.

(** C3 as stated fails: with Sample Learn armed, the note-on for 72 does
    not end the session and is queued for the engine; the file chosen
    after clicking pad 0 is loaded on note 36, the note of that pad, and
    note 72 stays empty. *)
Lemma sample_learn_ignores_midi_note :
  let w1 := handleIncomingMidiMessage (MidiNoteOn 1 72 100) demo_sample_learn in
  let w2 := fileChooserCallback demo_fs "kick.wav" (mouseDown 0 false w1) in
  isSampleLearning (editor demo_sample_learn) = true
  /\ isSampleLearning (editor w1) = true
  /\ midiCollector (plugin w1) = [MidiNoteOn 1 72 100]
  /\ hasSampleForMidiNote (plugin w2) 72 = false
  /\ hasSampleForMidiNote (plugin w2) 36 = true
  /\ bs_filePath (getMidiNoteSample (plugin w2) 36) = "kick.wav".
Proof.
  cbv zeta. repeat split; vm_compute; reflexivity.
Qed.

(** ** Importing a settings document *)

Section ImportFacts.
Context {F : Type} `{FloatOps F}.

Lemma import_note_objects (fs : FileSys F) (items : list (JsonItem NoteObj)) :
  forall st, foldl (import_note fs) st items
             = foldl (import_note fs) st (map Object (objects items)).
Proof.
  induction items as [|[|o] items IH]; intros st; simpl.
  - reflexivity.
  - rewrite <- IH. destruct st as [[p l] f]. reflexivity.
  - apply IH.
Qed.

Lemma hasSample_insert_loaded (p p1 : SamplerPlugin F) (n : Z) (s : ButtonSample F) :
  0 <= n < 128 ->
  length (midiNoteSamples p) = 128%nat ->
  midiNoteSamples p1 = <[Z.to_nat n := s]> (midiNoteSamples p) ->
  hasSampleForMidiNote p1 n = bs_isLoaded s.
Proof.
  intros Hn Hlen Hs. unfold hasSampleForMidiNote, getMidiNoteSample.
  rewrite Hs, length_insert.
  assert (Hin : in_range n (length (midiNoteSamples p)) = true).
  { unfold in_range. rewrite Hlen.
    apply andb_true_intro. split; [apply Z.leb_le | apply Z.ltb_lt]; lia. }
  rewrite Hin, Array_get_insert_eq by exact Hin. reflexivity.
Qed.

Lemma hasSample_same_slot (p p1 : SamplerPlugin F) (n : Z) :
  length (midiNoteSamples p1) = length (midiNoteSamples p) ->
  getMidiNoteSample p1 n = getMidiNoteSample p n ->
  hasSampleForMidiNote p1 n = hasSampleForMidiNote p n.
Proof.
  intros Hlen Hs. unfold hasSampleForMidiNote. rewrite Hlen, Hs. reflexivity.
Qed.

(** One object of the "midiNotes" array. *)
Lemma import_note_object (fs : FileSys F) (p : SamplerPlugin F) (l f : Z) (o : NoteObj) :
  note_in_format o ->
  exists p1,
    import_note fs (p, l, f) (Object o)
      = (p1,
         l + (if file_valid fs o then 1 else 0),
         f + (if file_missing fs o || file_corrupt fs o then 1 else 0))
    /\ length (midiNoteSamples p1) = length (midiNoteSamples p)
    /\ noteMapping p1 = noteMapping p
    /\ (forall m, m <> no_midiNote o -> getMidiNoteSample p1 m = getMidiNoteSample p m)
    /\ (file_valid fs o = false -> file_corrupt fs o = false -> p1 = p)
    /\ (file_valid fs o = true -> length (midiNoteSamples p) = 128%nat ->
        hasSampleForMidiNote p1 (no_midiNote o) = true).
Proof.
  intros Hfmt. unfold note_in_format in Hfmt.
  unfold import_note, file_valid, file_missing, file_corrupt, decodes.
  destruct (isNotEmpty (no_filePath o)) eqn:Hne.
  2: { rewrite andb_false_r. simpl. exists p. rewrite !Z.add_0_r.
       repeat split; congruence. }
  specialize (Hfmt eq_refl).
  destruct ((0 <=? no_midiNote o) && (no_midiNote o <? 128)) eqn:Hg; [|lia].
  simpl.
  destruct (file_exists fs (no_filePath o)) eqn:Hex; simpl.
  2: { exists p. rewrite Z.add_0_r. repeat split; congruence. }
  pose proof (loadSampleForMidiNote_in fs (no_midiNote o) (no_filePath o) p Hfmt) as Hin.
  simpl in Hin. destruct Hin as (Hm & _ & _ & Hcase).
  destruct (loadSampleForMidiNote fs (no_midiNote o) (no_filePath o) p) as [ok p1].
  simpl in *.
  destruct (createReaderFor fs (no_filePath o)) as [reader|].
  - destruct Hcase as (-> & a & Hs). exists p1. rewrite Z.add_0_r.
    split; [reflexivity|]. split; [rewrite Hs; apply length_insert|].
    split; [exact Hm|]. split; [|split].
    + intros m Hne'. unfold getMidiNoteSample. rewrite Hs.
      apply Array_get_insert_ne; lia.
    + discriminate.
    + intros _ Hlen. rewrite (hasSample_insert_loaded p p1 _ _ Hfmt Hlen Hs).
      reflexivity.
  - destruct Hcase as (-> & Hs). exists p1. rewrite Z.add_0_r.
    split; [reflexivity|]. split; [rewrite Hs; apply length_insert|].
    split; [exact Hm|]. split; [|split].
    + intros m Hne'. unfold getMidiNoteSample. rewrite Hs.
      apply Array_get_insert_ne; lia.
    + discriminate.
    + discriminate.
Qed.

(** The whole "midiNotes" array. *)
Lemma import_notes_fold (fs : FileSys F) (objs : list NoteObj) :
  Forall note_in_format objs ->
  forall (p : SamplerPlugin F) (l f : Z),
  exists p',
    foldl (import_note fs) (p, l, f) (map Object objs)
      = (p',
         l + count_if (file_valid fs) objs,
         f + count_if (fun o => file_missing fs o || file_corrupt fs o) objs)
    /\ length (midiNoteSamples p') = length (midiNoteSamples p)
    /\ noteMapping p' = noteMapping p
    /\ (forall n,
          (forall o, o ∈ objs -> no_midiNote o = n ->
             file_valid fs o = false /\ file_corrupt fs o = false) ->
          getMidiNoteSample p' n = getMidiNoteSample p n)
    /\ (forall n,
          length (midiNoteSamples p) = 128%nat ->
          (forall o, o ∈ objs -> no_midiNote o = n -> file_corrupt fs o = false) ->
          hasSampleForMidiNote p n = true
            \/ (exists o, o ∈ objs /\ no_midiNote o = n /\ file_valid fs o = true) ->
          hasSampleForMidiNote p' n = true).
Proof.
  induction 1 as [|o objs Ho Hobjs IH]; intros p l f.
  - exists p. simpl. rewrite !Z.add_0_r. repeat split; try reflexivity.
    intros n _ _ [Hp | (o & Ho & _)]; [exact Hp|].
    apply elem_of_nil in Ho. contradiction.
  - destruct (import_note_object fs p l f o Ho)
      as (p1 & Hstep & Hlen1 & Hmap1 & Hother1 & Hskip1 & Hload1).
    destruct (IH p1 (l + (if file_valid fs o then 1 else 0))
                 (f + (if file_missing fs o || file_corrupt fs o then 1 else 0)))
      as (p' & Hfold & Hlen & Hmap & Hkeep & Hhas).
    exists p'. cbn [List.map foldl]. rewrite Hstep, Hfold. cbn [count_if].
    split; [rewrite !Z.add_assoc; reflexivity|].
    split; [congruence|]. split; [congruence|]. split.
    + intros n Hn. rewrite Hkeep.
      * destruct (decide (n = no_midiNote o)) as [->|Hne].
        -- destruct (Hn o ltac:(left) eq_refl) as (Hv & Hc).
           rewrite (Hskip1 Hv Hc). reflexivity.
        -- apply Hother1, Hne.
      * intros o' Ho' Heq. apply Hn; [right; exact Ho' | exact Heq].
    + intros n Hlen128 Hnc Hsrc. apply Hhas.
      * congruence.
      * intros o' Ho' Heq. apply Hnc; [right; exact Ho' | exact Heq].
      * destruct (decide (n = no_midiNote o)) as [->|Hne].
        -- destruct (file_valid fs o) eqn:Hv.
           ++ left. apply Hload1; [reflexivity | exact Hlen128].
           ++ rewrite (Hskip1 eq_refl (Hnc o ltac:(left) eq_refl)).
              destruct Hsrc as [Hp | (o' & Ho' & Heq & Hv')]; [left; exact Hp|].
              apply elem_of_cons in Ho'. destruct Ho' as [-> | Ho'].
              ** congruence.
              ** right. exists o'. auto.
        -- destruct Hsrc as [Hp | (o' & Ho' & Heq & Hv')].
           ++ left. rewrite (hasSample_same_slot p p1 n Hlen1 (Hother1 n Hne)).
              exact Hp.
           ++ apply elem_of_cons in Ho'. destruct Ho' as [-> | Ho'].
              ** congruence.
              ** right. exists o'. auto.
Qed.

Lemma import_button_samples (p : SamplerPlugin F) (item : JsonItem ButtonObj) :
  midiNoteSamples (import_button p item) = midiNoteSamples p.
Proof.
  unfold import_button. destruct item as [|o]; [reflexivity|].
  destruct ((0 <=? bo_index o) && (bo_index o <? 16)) eqn:Hg; [|reflexivity].
  apply setNoteMapping_in. lia.
Qed.

End ImportFacts.

Section ImportWhole.
Context {F : Type} `{FloatOps F}.

(** The import as two folds: pad bindings first, then the note entries. *)
Lemma loadAllSamplesFromJson_shape (fs : FileSys F) (d : Document) (t : World F) :
  exists e1 o1 p2 l f,
    foldl (import_note fs) (foldl import_button (plugin t) (button_items d), 0, 0)
          (map Object (note_objects d)) = (p2, l, f)
    /\ loadAllSamplesFromJson fs (JsonObject d) t
       = (mkImportResult true l f, mkWorld p2 e1 o1).
Proof.
  unfold loadAllSamplesFromJson, button_items, note_objects.
  destruct (doc_oneShotMode d) as [b|];
    destruct (doc_buttons d) as [bitems|]; simpl;
    (destruct (doc_midiNotes d) as [nitems|]; simpl;
     [ rewrite <- (import_note_objects fs nitems);
       destruct (foldl (import_note fs) _ nitems) as [[p2 l] f]
     | ]);
    eexists _, _, _, _, _; split; reflexivity.
Qed.

Lemma import_buttons_samples (items : list (JsonItem ButtonObj)) (p : SamplerPlugin F) :
  midiNoteSamples (foldl import_button p items) = midiNoteSamples p.
Proof.
  apply (foldl_preserves (fun q => midiNoteSamples q = midiNoteSamples p));
    [|reflexivity].
  intros a x Ha. rewrite import_button_samples. exact Ha.
Qed.

End ImportWhole.

Section ImportCounted.
Context {F : Type} `{FloatOps F}.

(** The import passes over the entries it does not act on. *)
Lemma import_notes_skip (fs : FileSys F) (objs : list NoteObj) :
  forall st,
    foldl (import_note fs) st (map Object objs)
    = foldl (import_note fs) st
            (map Object (filter (fun o => counted o = true) objs)).
Proof.
  induction objs as [|o objs IH]; intros st; [reflexivity|].
  destruct (counted o) eqn:Hc.
  - rewrite filter_cons_True by exact Hc. cbn [List.map foldl]. apply IH.
  - rewrite filter_cons_False by (rewrite Hc; discriminate).
    cbn [List.map foldl]. rewrite <- IH. f_equal.
    destruct st as [[p l] f]. unfold import_note. unfold counted in Hc.
    rewrite Hc. reflexivity.
Qed.

Lemma counted_in_format (objs : list NoteObj) :
  Forall note_in_format (filter (fun o => counted o = true) objs).
Proof.
  apply Forall_forall. intros o Ho. apply list_elem_of_filter in Ho.
  destruct Ho as (Hc & _). intros _. unfold counted in Hc. lia.
Qed.

Lemma count_if_filter (f : NoteObj -> bool) (objs : list NoteObj) :
  count_if f (filter (fun o => counted o = true) objs)
  = count_if (fun o => counted o && f o) objs.
Proof.
  induction objs as [|o objs IH]; [reflexivity|].
  destruct (counted o) eqn:Hc.
  - rewrite filter_cons_True by exact Hc. cbn [count_if]. rewrite Hc, IH. reflexivity.
  - rewrite filter_cons_False by (rewrite Hc; discriminate).
    cbn [count_if]. rewrite Hc, IH. reflexivity.
Qed.

End ImportCounted.

(** C8.  An import whose document names sample files that no longer
    exist still succeeds.  Entries whose note is outside 0..127 or that
    name no file are skipped and counted neither way.  Of the other
    entries, the failure count is the number whose file is missing or
    fails to load, the loaded count the number whose file loads.  A note
    all of whose counted entries name missing files keeps the slot it
    had, so it stays unloaded if it was; a counted entry with an existing,
    decodable file leaves its note loaded, unless another entry for the
    same note names an existing file that fails to decode (every load
    clears the slot first). *)
Theorem import_tolerates_missing_files {F : Type} `{FloatOps F}
    (fs : FileSys F) (d : Document) (t : World F) :
  length (midiNoteSamples (plugin t)) = 128%nat ->
  let r := loadAllSamplesFromJson fs (JsonObject d) t in
  imp_ok (fst r) = true
  /\ failedCount (fst r)
     = count_if (fun o => counted o && (file_missing fs o || file_corrupt fs o))
                (note_objects d)
  /\ loadedCount (fst r)
     = count_if (fun o => counted o && file_valid fs o) (note_objects d)
  /\ (forall n,
        (forall o, o ∈ note_objects d -> no_midiNote o = n -> counted o = true ->
           file_exists fs (no_filePath o) = false) ->
        getMidiNoteSample (plugin (snd r)) n = getMidiNoteSample (plugin t) n)
  /\ (forall o, o ∈ note_objects d -> counted o = true -> file_valid fs o = true ->
        (forall o', o' ∈ note_objects d -> no_midiNote o' = no_midiNote o ->
           file_corrupt fs o' = false) ->
        hasSampleForMidiNote (plugin (snd r)) (no_midiNote o) = true).
Proof.
  intros Hlen r. subst r.
  destruct (loadAllSamplesFromJson_shape fs d t) as (e1 & o1 & p2 & l & f & Hfold & ->).
  set (p1 := foldl import_button (plugin t) (button_items d)) in Hfold.
  assert (Hs1 : midiNoteSamples p1 = midiNoteSamples (plugin t))
    by apply import_buttons_samples.
  rewrite import_notes_skip in Hfold.
  set (objs := filter (fun o => counted o = true) (note_objects d)) in *.
  destruct (import_notes_fold fs objs (counted_in_format (note_objects d)) p1 0 0)
    as (p' & Hfold' & Hlen' & _ & Hkeep & Hhas).
  rewrite Hfold in Hfold'. inversion Hfold'; subst p2 l f; clear Hfold'.
  cbn [fst snd plugin imp_ok failedCount loadedCount].
  subst objs. rewrite !count_if_filter.
  split; [reflexivity|]. split; [reflexivity|]. split; [reflexivity|]. split.
  - intros n Hn. rewrite Hkeep.
    + unfold getMidiNoteSample. rewrite Hs1. reflexivity.
    + intros o Ho Heq. apply list_elem_of_filter in Ho. destruct Ho as (Hc & Ho).
      unfold file_valid, file_corrupt. rewrite (Hn o Ho Heq Hc).
      rewrite !andb_false_r. split; reflexivity.
  - intros o Ho Hc Hvalid Hnc. apply Hhas.
    + rewrite Hs1. exact Hlen.
    + intros o' Ho' Heq. apply list_elem_of_filter in Ho'. apply Hnc; tauto.
    + right. exists o. split; [|split; [reflexivity | exact Hvalid]].
      apply list_elem_of_filter. split; assumption.
Qed.

Lemma import_tolerates_missing_files_witness :
  let r := loadAllSamplesFromJson demo_fs (JsonObject demo_document) (World_new demo_rate) in
  imp_ok (fst r) = true
  /\ failedCount (fst r) = 1
  /\ getMidiNoteSample (plugin (snd r)) 40
     = getMidiNoteSample (plugin (World_new demo_rate)) 40
  /\ hasSampleForMidiNote (plugin (snd r)) 36 = true.
Proof.
  pose proof (@import_tolerates_missing_files Q Q_FloatOps demo_fs demo_document
                (World_new demo_rate) ltac:(reflexivity))
    as (Hok & Hfailed & _ & Hkeep & Hload).
  split; [exact Hok|]. split; [exact Hfailed|]. split.
  - apply Hkeep. intros o Ho Heq _.
    apply elem_of_cons in Ho. destruct Ho as [-> | Ho]; [discriminate|].
    apply elem_of_cons in Ho. destruct Ho as [-> | Ho]; [reflexivity|].
    apply elem_of_nil in Ho. contradiction.
  - apply (Hload (mkNoteObj 36 "kick.wav")); [left | reflexivity | reflexivity |].
    intros o' Ho' Heq.
    apply elem_of_cons in Ho'. destruct Ho' as [-> | Ho']; [reflexivity|].
    apply elem_of_cons in Ho'. destruct Ho' as [-> | Ho']; [discriminate|].
    apply elem_of_nil in Ho'. contradiction.
Defined.

(** C8 as stated fails.  The document has a valid entry for note 36, a
    later entry for note 36 whose file exists but does not decode, and an
    entry for note 128 whose file is missing.  The import succeeds and
    reports one failure although two entries name a file that is missing
    or fails to load, and note 36 ends unloaded although an entry with a
    valid existing file names it. *)
Lemma import_miscounts_and_unloads :
  let r := loadAllSamplesFromJson demo_fs (JsonObject demo_document_mixed)
             (World_new demo_rate) in
  imp_ok (fst r) = true
  /\ failedCount (fst r) = 1
  /\ count_if (fun o => file_missing demo_fs o || file_corrupt demo_fs o)
              (note_objects demo_document_mixed) = 2
  /\ file_valid demo_fs (mkNoteObj 36 "kick.wav") = true
  /\ mkNoteObj 36 "kick.wav" ∈ note_objects demo_document_mixed
  /\ hasSampleForMidiNote (plugin (snd r)) 36 = false.
Proof.
  cbv zeta. split; [reflexivity|]. split; [vm_compute; reflexivity|].
  split; [vm_compute; reflexivity|]. split; [reflexivity|].
  split; [left | vm_compute; reflexivity].
Qed.

(** ** Export followed by import *)

Section RoundTrip.
Context {F : Type} `{FloatOps F}.

Lemma objects_map_Object {A B : Type} (g : B -> A) (ks : list B) :
  objects (map (fun k => Object (g k)) ks) = map g ks.
Proof. induction ks as [|k ks IH]; simpl; [reflexivity | rewrite IH; reflexivity]. Qed.

Lemma count_if_none {A : Type} (f : A -> bool) (l : list A) :
  (forall x, x ∈ l -> f x = false) -> count_if f l = 0.
Proof.
  induction l as [|x l IH]; intros Hl; simpl; [reflexivity|].
  rewrite (Hl x ltac:(left)), IH; [reflexivity|].
  intros y Hy. apply Hl. right. exact Hy.
Qed.

Lemma import_buttons_mapping (g : nat -> Z) (path : nat -> string) (ks : list nat) :
  Forall (fun k => (k < 16)%nat) ks ->
  forall p : SamplerPlugin F,
    length (noteMapping p) = 16%nat ->
    let p' := foldl import_button p
                (map (fun k => Object (mkButtonObj (Z.of_nat k) (g k) (path k))) ks) in
    length (noteMapping p') = 16%nat
    /\ forall i, noteMapping p' !! i
                 = if decide (i ∈ ks) then Some (g i) else noteMapping p !! i.
Proof.
  induction 1 as [|k ks Hk Hks IH]; intros p Hlen; simpl.
  - split; [exact Hlen|]. intros i. destruct (decide (i ∈ [])) as [Hin|_]; [|reflexivity].
    apply elem_of_nil in Hin. contradiction.
  - destruct ((0 <=? Z.of_nat k) && (Z.of_nat k <? 16)) eqn:Hg; [|lia].
    destruct (setNoteMapping_in (Z.of_nat k) (g k) p ltac:(lia)) as (Hm & _).
    assert (Hin : in_range (Z.of_nat k) (length (noteMapping p)) = true).
    { unfold in_range. rewrite Hlen.
      apply andb_true_intro. split; [apply Z.leb_le | apply Z.ltb_lt]; lia. }
    rewrite Array_set_in, Nat2Z.id in Hm by exact Hin.
    destruct (IH (setNoteMapping (Z.of_nat k) (g k) p)) as (Hlen' & Hlook).
    { rewrite Hm, length_insert. exact Hlen. }
    split; [exact Hlen'|]. intros i. rewrite Hlook, Hm.
    destruct (decide (i ∈ ks)) as [Hi|Hi].
    + rewrite decide_True by (right; exact Hi). reflexivity.
    + destruct (decide (i = k)) as [->|Hne].
      * rewrite decide_True by left.
        apply list_lookup_insert_eq. lia.
      * rewrite decide_False.
        -- apply list_lookup_insert_ne. congruence.
        -- intros Hin'. apply elem_of_cons in Hin'. tauto.
Qed.

Lemma Array_get_lookup {A : Type} (d : A) (l : list A) (k : nat) :
  (k < length l)%nat -> l !! k = Some (Array_get d l (Z.of_nat k)).
Proof.
  intros Hk. unfold Array_get, in_range.
  destruct ((0 <=? Z.of_nat k) && (Z.of_nat k <? Z.of_nat (length l))) eqn:Hg; [|lia].
  rewrite Nat2Z.id. destruct (lookup_lt_is_Some_2 l k Hk) as [x ->]. reflexivity.
Qed.

(** The pad bindings after importing an exported document. *)
Lemma import_exported_buttons (w : World F) (p : SamplerPlugin F) :
  length (noteMapping (plugin w)) = 16%nat ->
  length (noteMapping p) = 16%nat ->
  noteMapping (foldl import_button p (button_items (exportAllSettings w)))
    = noteMapping (plugin w).
Proof.
  intros Hw Hp.
  change (button_items (exportAllSettings w))
    with (map (fun k => Object (mkButtonObj (Z.of_nat k)
                 (getNoteMapping (plugin w) (Z.of_nat k))
                 (if hasSampleForMidiNote (plugin w)
                       (getNoteMapping (plugin w) (Z.of_nat k))
                  then bs_filePath (getMidiNoteSample (plugin w)
                         (getNoteMapping (plugin w) (Z.of_nat k)))
                  else EmptyString)))
              (seq 0 16)).
  destruct (import_buttons_mapping
              (fun k => getNoteMapping (plugin w) (Z.of_nat k))
              (fun k => if hasSampleForMidiNote (plugin w)
                             (getNoteMapping (plugin w) (Z.of_nat k))
                        then bs_filePath (getMidiNoteSample (plugin w)
                               (getNoteMapping (plugin w) (Z.of_nat k)))
                        else EmptyString)
              (seq 0 16)) with (p := p) as (Hlen & Hlook).
  { apply Forall_forall. intros k Hk. apply elem_of_seq in Hk. lia. }
  { exact Hp. }
  apply list_eq. intros i. rewrite Hlook.
  destruct (decide (i ∈ seq 0 16)) as [Hi|Hi].
  - apply elem_of_seq in Hi. unfold getNoteMapping.
    symmetry. apply Array_get_lookup. lia.
  - rewrite !lookup_ge_None_2; [reflexivity | |].
    + rewrite Hw. destruct (decide (i < 16)%nat) as [Hlt|Hge]; [|lia].
      exfalso. apply Hi, elem_of_seq. lia.
    + rewrite Hp. destruct (decide (i < 16)%nat) as [Hlt|Hge]; [|lia].
      exfalso. apply Hi, elem_of_seq. lia.
Qed.

Lemma exported_note_objects (w : World F) :
  note_objects (exportAllSettings w) = map (exported_note w) (seq 0 128).
Proof.
  change (note_objects (exportAllSettings w))
    with (objects (map (fun k => Object (exported_note w k)) (seq 0 128))).
  apply (objects_map_Object (exported_note w)).
Qed.

Lemma exported_note_elem (w : World F) (o : NoteObj) :
  o ∈ note_objects (exportAllSettings w) <->
  exists k, (k < 128)%nat /\ o = exported_note w k.
Proof.
  rewrite exported_note_objects, list_elem_of_In, in_map_iff. split.
  - intros (k & <- & Hk). apply in_seq in Hk. exists k. split; [lia | reflexivity].
  - intros (k & Hk & ->). exists k. split; [reflexivity|]. apply in_seq. lia.
Qed.

End RoundTrip.

(** Export then import, for any pair of states that satisfies the
    invariants of the store. *)
Lemma export_import_general {F : Type} `{FloatOps F}
    (fs : FileSys F) (w t : World F) :
  length (noteMapping (plugin w)) = 16%nat ->
  length (midiNoteSamples (plugin w)) = 128%nat ->
  length (noteMapping (plugin t)) = 16%nat ->
  length (midiNoteSamples (plugin t)) = 128%nat ->
  Forall (restorable fs) (midiNoteSamples (plugin w)) ->
  (forall n, hasSampleForMidiNote (plugin t) n = true ->
             hasSampleForMidiNote (plugin w) n = true) ->
  let r := loadAllSamplesFromJson fs (JsonObject (exportAllSettings w)) t in
  imp_ok (fst r) = true
  /\ noteMapping (plugin (snd r)) = noteMapping (plugin w)
  /\ (forall pad, getNoteMapping (plugin (snd r)) pad = getNoteMapping (plugin w) pad)
  /\ (forall n, hasSampleForMidiNote (plugin (snd r)) n
                = hasSampleForMidiNote (plugin w) n)
  /\ failedCount (fst r) = 0.
Proof.
  intros Hwmap Hwlen Htmap Htlen Hrest Hsub r. subst r.
  destruct (loadAllSamplesFromJson_shape fs (exportAllSettings w) t)
    as (e1 & o1 & p2 & l & f & Hfold & ->).
  set (p1 := foldl import_button (plugin t) (button_items (exportAllSettings w)))
    in Hfold.
  assert (Hs1 : midiNoteSamples p1 = midiNoteSamples (plugin t))
    by apply import_buttons_samples.
  assert (Hm1 : noteMapping p1 = noteMapping (plugin w))
    by (apply import_exported_buttons; assumption).
  (* every exported entry is for a note in range, and never names a bad file *)
  assert (Hslot : forall k, (k < 128)%nat ->
            restorable fs (getMidiNoteSample (plugin w) (Z.of_nat k))).
  { intros k Hk. unfold getMidiNoteSample.
    eapply (proj1 (Forall_lookup _ _) Hrest k).
    apply Array_get_lookup. lia. }
  assert (Hentry : forall k, (k < 128)%nat ->
            file_corrupt fs (exported_note w k) = false
            /\ file_missing fs (exported_note w k) = false
            /\ file_valid fs (exported_note w k)
               = bs_isLoaded (getMidiNoteSample (plugin w) (Z.of_nat k))).
  { intros k Hk. unfold file_corrupt, file_missing, file_valid, exported_note. simpl.
    destruct (bs_isLoaded (getMidiNoteSample (plugin w) (Z.of_nat k))) eqn:Hl.
    - destruct (Hslot k Hk Hl) as (-> & -> & ->). repeat split.
    - repeat split. }
  assert (Hfmt : Forall note_in_format (note_objects (exportAllSettings w))).
  { apply Forall_forall. intros o Ho. apply exported_note_elem in Ho.
    destruct Ho as (k & Hk & ->). intros _. simpl. lia. }
  destruct (import_notes_fold fs _ Hfmt p1 0 0)
    as (p' & Hfold' & Hlen' & Hmap' & Hkeep & Hhas).
  remember (count_if (file_valid fs) (note_objects (exportAllSettings w)))
    as cv eqn:Hcv in Hfold'.
  remember (count_if (fun o => file_missing fs o || file_corrupt fs o)
                     (note_objects (exportAllSettings w)))
    as cf eqn:Hcf in Hfold'.
  rewrite Hfold in Hfold'. injection Hfold' as -> -> ->.
  cbn [fst snd plugin imp_ok failedCount]. split; [reflexivity|].
  split; [congruence|]. split; [intros pad; unfold getNoteMapping; congruence|].
  split.
  - intros n. unfold hasSampleForMidiNote at 2.
    destruct (in_range n (length (midiNoteSamples (plugin w)))) eqn:Hin.
    + assert (Hn : 0 <= n < 128) by (unfold in_range in Hin; lia).
      assert (Hk : (Z.to_nat n < 128)%nat) by lia.
      pose proof (Hentry (Z.to_nat n) Hk) as (Hc & Hmiss & Hv).
      rewrite Z2Nat.id in Hv by lia. rewrite andb_true_l.
      destruct (bs_isLoaded (getMidiNoteSample (plugin w) n)) eqn:Hl.
      * apply Hhas.
        -- congruence.
        -- intros o Ho Heq. apply exported_note_elem in Ho.
           destruct Ho as (k & Hk' & ->). apply Hentry, Hk'.
        -- right. exists (exported_note w (Z.to_nat n)).
           split; [apply exported_note_elem; eauto|].
           split; [simpl; lia | exact Hv].
      * rewrite (hasSample_same_slot p1 p' n Hlen').
        -- unfold hasSampleForMidiNote at 1. rewrite Hs1.
           fold (getMidiNoteSample (plugin t) n).
           destruct (hasSampleForMidiNote (plugin t) n) eqn:Ht.
           ++ apply Hsub in Ht. unfold hasSampleForMidiNote in Ht.
              rewrite Hin, Hl in Ht. discriminate.
           ++ unfold hasSampleForMidiNote, getMidiNoteSample in Ht. exact Ht.
        -- apply Hkeep. intros o Ho Heq. apply exported_note_elem in Ho.
           destruct Ho as (k & Hk' & ->). simpl in Heq. subst n.
           destruct (Hentry k Hk') as (Hc' & _ & Hv').
           rewrite Nat2Z.id in Hv. split; [congruence | exact Hc'].
    + rewrite andb_false_l. unfold hasSampleForMidiNote.
      rewrite Hlen', Hs1, Htlen, <- Hwlen, Hin. reflexivity.
  - rewrite Z.add_0_l, Hcf. apply count_if_none. intros o Ho. apply exported_note_elem in Ho.
    destruct Ho as (k & Hk & ->). destruct (Hentry k Hk) as (-> & -> & _). reflexivity.
Qed.

(** ** The store invariant *)

Section StoreInvariant.
Context {F : Type} `{FloatOps F}.
Variable fs : FileSys F.
Hypothesis fs_ok : fs_consistent fs.

Lemma plugin_ok_same (p p' : SamplerPlugin F) :
  noteMapping p' = noteMapping p ->
  midiNoteSamples p' = midiNoteSamples p ->
  plugin_ok fs p -> plugin_ok fs p'.
Proof. unfold plugin_ok. intros -> ->. tauto. Qed.

Lemma restorable_new : restorable fs (@ButtonSample_new F _).
Proof. intros Hl. discriminate Hl. Qed.

Lemma clearMidiNoteSample_ok (n : Z) (p : SamplerPlugin F) :
  plugin_ok fs p -> plugin_ok fs (clearMidiNoteSample n p).
Proof.
  intros (Hm & Hl & Hr). destruct (decide (0 <= n < 128)) as [Hn|Hn].
  - destruct (clearMidiNoteSample_in n p Hn) as (Hs & Hmap & _).
    unfold plugin_ok. rewrite Hs, Hmap, length_insert.
    repeat split; try assumption.
    apply Forall_insert; [exact Hr | apply restorable_new].
  - rewrite clearMidiNoteSample_out by exact Hn. repeat split; assumption.
Qed.

Lemma loadSampleForMidiNote_ok (n : Z) (file : string) (p : SamplerPlugin F) :
  plugin_ok fs p -> plugin_ok fs (snd (loadSampleForMidiNote fs n file p)).
Proof using fs_ok.
  intros (Hm & Hl & Hr). destruct (decide (0 <= n < 128)) as [Hn|Hn].
  - pose proof (loadSampleForMidiNote_in fs n file p Hn) as Hin.
    simpl in Hin. destruct Hin as (Hmap & _ & _ & Hcase).
    unfold plugin_ok. rewrite Hmap.
    destruct (createReaderFor fs file) as [reader|] eqn:Hrd.
    + destruct Hcase as (_ & a & ->). rewrite length_insert.
      repeat split; try assumption.
      apply Forall_insert; [exact Hr|].
      intros _. simpl.
      assert (Hd : decodes fs file = true) by (unfold decodes; rewrite Hrd; reflexivity).
      destruct (fs_ok file Hd) as (Hex & Hne). repeat split; assumption.
    + destruct Hcase as (_ & ->). rewrite length_insert.
      repeat split; try assumption.
      apply Forall_insert; [exact Hr | apply restorable_new].
  - rewrite loadSampleForMidiNote_out by exact Hn. repeat split; assumption.
Qed.

Lemma setNoteMapping_ok (i n : Z) (p : SamplerPlugin F) :
  plugin_ok fs p -> plugin_ok fs (setNoteMapping i n p).
Proof.
  intros (Hm & Hl & Hr). destruct (decide (0 <= i < 16)) as [Hi|Hi].
  - destruct (setNoteMapping_in i n p Hi) as (Hmap & Hs & _).
    unfold plugin_ok. rewrite Hmap, Hs, Array_set_in, length_insert.
    + repeat split; assumption.
    + unfold in_range. rewrite Hm.
      apply andb_true_intro. split; [apply Z.leb_le | apply Z.ltb_lt]; lia.
  - rewrite setNoteMapping_out by exact Hi. repeat split; assumption.
Qed.

Lemma clearSample_ok (i : Z) (p : SamplerPlugin F) :
  plugin_ok fs p -> plugin_ok fs (clearSample i p).
Proof.
  destruct (decide (0 <= i < 16)) as [Hi|Hi].
  - destruct (clearSample_in i p Hi) as (_ & Hm & Hs). apply plugin_ok_same; assumption.
  - rewrite clearSample_out by exact Hi. tauto.
Qed.

Lemma loadSample_ok (i : Z) (file : string) (p : SamplerPlugin F) :
  plugin_ok fs p -> plugin_ok fs (snd (loadSample fs i file p)).
Proof.
  intros Hp. unfold loadSample.
  destruct ((i <? 0) || (16 <=? i)); [exact Hp|].
  destruct (createReaderFor fs file) as [reader|]; simpl.
  - apply (plugin_ok_same (clearSample i p)); [reflexivity | reflexivity |].
    apply clearSample_ok, Hp.
  - apply clearSample_ok, Hp.
Qed.

Lemma addMessageToQueue_ok (m : MidiMessage) (p : SamplerPlugin F) :
  plugin_ok fs p -> plugin_ok fs (addMessageToQueue m p).
Proof. apply plugin_ok_same; reflexivity. Qed.

Lemma processBlock_ok (steal : StealPolicy F) (o : bool) (buffer : AudioBuffer F)
    (frames : Z) (ms : list MidiMessage) (p p' : SamplerPlugin F) (out : AudioBuffer F) :
  processBlock steal o buffer frames ms p = Some (p', out) ->
  plugin_ok fs p -> plugin_ok fs p'.
Proof.
  unfold processBlock. intros Hrun.
  destruct (renderVoices _ _ _ _ _) as [[vs out1]|]; [|discriminate].
  inversion Hrun; subst. apply plugin_ok_same; reflexivity.
Qed.

Lemma import_button_ok (p : SamplerPlugin F) (item : JsonItem ButtonObj) :
  plugin_ok fs p -> plugin_ok fs (import_button p item).
Proof.
  intros Hp. unfold import_button. destruct item as [|o]; [exact Hp|].
  destruct (_ && _); [apply setNoteMapping_ok, Hp | exact Hp].
Qed.

Lemma import_note_ok (st : SamplerPlugin F * Z * Z) (item : JsonItem NoteObj) :
  plugin_ok fs (fst (fst st)) -> plugin_ok fs (fst (fst (import_note fs st item))).
Proof using fs_ok.
  destruct st as [[p l] f]. simpl. intros Hp. unfold import_note.
  destruct item as [|o]; [exact Hp|].
  destruct (_ && _); [|exact Hp].
  destruct (file_exists fs (no_filePath o)); [|exact Hp].
  pose proof (loadSampleForMidiNote_ok (no_midiNote o) (no_filePath o) p Hp) as Hok.
  destruct (loadSampleForMidiNote fs (no_midiNote o) (no_filePath o) p) as [[|] p1];
    exact Hok.
Qed.

Lemma loadAllSamplesFromJson_ok (json : JsonValue) (w : World F) :
  plugin_ok fs (plugin w) ->
  plugin_ok fs (plugin (snd (loadAllSamplesFromJson fs json w))).
Proof using fs_ok.
  intros Hp. destruct json as [|d]; [exact Hp|].
  destruct (loadAllSamplesFromJson_shape fs d w) as (e1 & o1 & p2 & l & f & Hfold & ->).
  simpl.
  change p2 with (fst (fst (p2, l, f))). rewrite <- Hfold.
  apply (foldl_preserves (fun st => plugin_ok fs (fst (fst st)))).
  - intros a x Ha. apply import_note_ok, Ha.
  - simpl. apply (foldl_preserves (plugin_ok fs)); [|exact Hp].
    intros a x Ha. apply import_button_ok, Ha.
Qed.

Lemma handleIncomingMidiMessage_ok (msg : MidiMessage) (w : World F) :
  plugin_ok fs (plugin w) -> plugin_ok fs (plugin (handleIncomingMidiMessage msg w)).
Proof.
  intros Hp. unfold handleIncomingMidiMessage, handleMidiMessage.
  destruct (_ && _ && isNoteOn msg); simpl.
  - apply setNoteMapping_ok, addMessageToQueue_ok, Hp.
  - apply addMessageToQueue_ok, Hp.
Qed.

Lemma buttonClicked_plugin (b : EditorButton) (w : World F) :
  plugin (buttonClicked b w) = plugin w.
Proof. unfold buttonClicked. repeat case_match; reflexivity. Qed.

Lemma loadSampleForButton_plugin (i : Z) (w : World F) :
  plugin (loadSampleForButton i w) = plugin w.
Proof. unfold loadSampleForButton. case_match; reflexivity. Qed.

Lemma mouseDown_ok (i : Z) (r : bool) (w : World F) :
  plugin_ok fs (plugin w) -> plugin_ok fs (plugin (mouseDown i r w)).
Proof.
  intros Hp. unfold mouseDown. destruct r; [apply clearSample_ok, Hp|].
  destruct (isMidiLearning (editor w)); [exact Hp|].
  destruct (isSampleLearning (editor w)).
  - rewrite loadSampleForButton_plugin. exact Hp.
  - simpl. apply addMessageToQueue_ok, Hp.
Qed.

Lemma fileChooserCallback_ok (file : string) (w : World F) :
  plugin_ok fs (plugin w) -> plugin_ok fs (plugin (fileChooserCallback fs file w)).
Proof using fs_ok.
  intros Hp. unfold fileChooserCallback.
  destruct (fileChooserButton (editor w)) as [b|]; [|exact Hp].
  destruct (file_exists fs file); [|exact Hp].
  pose proof (loadSampleForMidiNote_ok (getNoteMapping (plugin w) b) file (plugin w) Hp)
    as Hok.
  destruct (loadSampleForMidiNote fs (getNoteMapping (plugin w) b) file (plugin w))
    as [[|] p1]; simpl in *; [apply addMessageToQueue_ok, Hok | exact Hok].
Qed.

Lemma timerCallback_ok (elapsed : bool) (w : World F) :
  plugin_ok fs (plugin w) -> plugin_ok fs (plugin (timerCallback elapsed w)).
Proof.
  intros Hp. unfold timerCallback. case_match; [|exact Hp].
  simpl. apply addMessageToQueue_ok, Hp.
Qed.

Lemma restore_button_ok (b : XmlButton) (p : SamplerPlugin F) :
  plugin_ok fs p -> plugin_ok fs (restore_button fs b p).
Proof.
  intros Hp. unfold restore_button.
  destruct ((0 <=? xb_index b) && (xb_index b <? 16)) eqn:Hg; [|exact Hp].
  destruct (ButtonSample_clear _ _) as [h' cleared]. cbv zeta.
  match goal with |- context [loadSample fs _ _ ?q] => set (p1 := q) end.
  assert (Hp1 : plugin_ok fs p1).
  { destruct Hp as (Hm & Hl & Hr). unfold plugin_ok. subst p1. simpl.
    rewrite Array_set_in, length_insert.
    - repeat split; assumption.
    - unfold in_range. rewrite Hm. exact Hg. }
  destruct (isNotEmpty _); [apply loadSample_ok, Hp1 | exact Hp1].
Qed.

Lemma setStateInformation_ok (xml : option XmlElement) (p : SamplerPlugin F) :
  plugin_ok fs p -> plugin_ok fs (setStateInformation fs xml p).
Proof.
  intros Hp. unfold setStateInformation. destruct xml as [x|]; [|exact Hp].
  destruct (String.eqb _ _); [|exact Hp].
  apply (iter_preserves (plugin_ok fs)); [|exact Hp].
  intros q Hq. destruct (getChildByName_Button _); [|exact Hq].
  apply restore_button_ok, Hq.
Qed.

Lemma step_ok (steal : StealPolicy F) (ev : Event F) (w w' : World F) :
  step fs steal ev w = Some w' ->
  plugin_ok fs (plugin w) -> plugin_ok fs (plugin w').
Proof using fs_ok.
  destruct ev as [msg|buffer frames hostMidi|b|i r|i|file|elapsed|json
                  |i file|i|i n|n file|n|xml]; simpl; intros Hstep Hp.
  2: { destruct (processBlock _ _ _ _ _ _) as [[p out]|] eqn:Hrun; [|discriminate].
       inversion Hstep; subst. simpl. eapply processBlock_ok; eassumption. }
  all: inversion Hstep; subst; clear Hstep; simpl.
  - apply handleIncomingMidiMessage_ok, Hp.
  - rewrite buttonClicked_plugin. exact Hp.
  - apply mouseDown_ok, Hp.
  - unfold mouseDoubleClick. rewrite loadSampleForButton_plugin. exact Hp.
  - apply fileChooserCallback_ok, Hp.
  - apply timerCallback_ok, Hp.
  - apply loadAllSamplesFromJson_ok, Hp.
  - apply loadSample_ok, Hp.
  - apply clearSample_ok, Hp.
  - apply setNoteMapping_ok, Hp.
  - apply loadSampleForMidiNote_ok, Hp.
  - apply clearMidiNoteSample_ok, Hp.
  - apply setStateInformation_ok, Hp.
Qed.

Lemma World_new_ok (defaultRate : F) : plugin_ok fs (plugin (World_new defaultRate)).
Proof.
  split; [reflexivity|]. split; [reflexivity|].
  change (midiNoteSamples (plugin (World_new defaultRate)))
    with (replicate 128 (@ButtonSample_new F _)).
  apply Forall_replicate, restorable_new.
Qed.

Lemma reachable_ok (steal : StealPolicy F) (defaultRate : F) (w : World F) :
  reachable fs steal defaultRate w -> plugin_ok fs (plugin w).
Proof using fs_ok.
  induction 1 as [|w ev w' Hreach IH Hstep].
  - apply World_new_ok.
  - exact (step_ok steal ev w w' Hstep IH).
Qed.

Lemma World_new_empty (defaultRate : F) (n : Z) :
  hasSampleForMidiNote (plugin (World_new defaultRate)) n = false.
Proof.
  unfold hasSampleForMidiNote, getMidiNoteSample, Array_get.
  change (midiNoteSamples (plugin (World_new defaultRate)))
    with (replicate 128 (@ButtonSample_new F _)).
  rewrite length_replicate.
  destruct (in_range n 128) eqn:Hin; [|reflexivity].
  unfold in_range in Hin. apply andb_prop in Hin. destruct Hin as (Hge & Hlt).
  apply Z.leb_le in Hge. apply Z.ltb_lt in Hlt.
  change (Z.of_nat 128) with 128 in Hlt.
  rewrite lookup_replicate_2 by lia. reflexivity.
Qed.

End StoreInvariant.

(** C7.  For every state the application can reach, with any number of
    the 128 notes populated, exporting the settings and importing that
    document (into the same state, or into a freshly started application)
    reproduces the pad-to-note bindings and the set of MIDI notes that
    report a loaded sample; no entry fails.  The decoder is run again on
    the stored paths, so the files are taken to be as they were: a file
    that decodes exists. *)
Theorem export_import_round_trip {F : Type} `{FloatOps F}
    (fs : FileSys F) (steal : StealPolicy F) (defaultRate : F) (w t : World F) :
  fs_consistent fs ->
  reachable fs steal defaultRate w ->
  t = w \/ t = World_new defaultRate ->
  let r := loadAllSamplesFromJson fs (JsonObject (exportAllSettings w)) t in
  imp_ok (fst r) = true
  /\ noteMapping (plugin (snd r)) = noteMapping (plugin w)
  /\ (forall pad, getNoteMapping (plugin (snd r)) pad = getNoteMapping (plugin w) pad)
  /\ (forall n, hasSampleForMidiNote (plugin (snd r)) n
                = hasSampleForMidiNote (plugin w) n)
  /\ failedCount (fst r) = 0.
Proof.
  intros Hfs Hreach Ht.
  destruct (reachable_ok fs Hfs steal defaultRate w Hreach) as (Hwm & Hwl & Hwr).
  destruct Ht as [-> | ->].
  - apply export_import_general; auto.
  - destruct (World_new_ok fs defaultRate) as (Htm & Htl & _).
    apply export_import_general; auto.
    intros n Hn. rewrite World_new_empty in Hn. discriminate.
Qed.

Lemma demo_fs_consistent : fs_consistent demo_fs.
Proof.
  intros path. unfold decodes. simpl.
  destruct (String.eqb path "kick.wav") eqn:Hk; [|discriminate].
  apply String.eqb_eq in Hk. subst path. intros _. split; reflexivity.
Defined.

Lemma export_import_round_trip_witness :
  let r := loadAllSamplesFromJson demo_fs (JsonObject (exportAllSettings demo_playing))
                                  (World_new demo_rate) in
  imp_ok (fst r) = true
  /\ noteMapping (plugin (snd r)) = noteMapping (plugin demo_playing)
  /\ (forall pad, getNoteMapping (plugin (snd r)) pad
                  = getNoteMapping (plugin demo_playing) pad)
  /\ (forall n, hasSampleForMidiNote (plugin (snd r)) n
                = hasSampleForMidiNote (plugin demo_playing) n)
  /\ failedCount (fst r) = 0.
Proof.
  apply (@export_import_round_trip Q Q_FloatOps demo_fs no_steal demo_rate
           demo_playing (World_new demo_rate)).
  - exact demo_fs_consistent.
  - exact demo_playing_reachable.
  - right. reflexivity.
Defined.

(** ** Clearing a slot while a voice plays it *)

Section Dangling.
Context {F : Type} `{FloatOps F}.

(** Clearing a note's slot deletes its buffer at once and leaves the
    voices as they are: a voice still playing from that buffer is then
    rendered through a dangling pointer. *)
Lemma clearMidiNoteSample_dangling (p : SamplerPlugin F) (n : Z) (a : nat)
    (v : MidiSamplerVoice F) (i : nat) (start frames : Z) (out : AudioBuffer F) :
  0 <= n < 128 ->
  bs_sampleBuffer (getMidiNoteSample p n) = Some a ->
  voices (synth p) !! i = Some v ->
  v_isPlaying v = true ->
  v_sampleBuffer v = Some a ->
  0 < frames ->
  voices (synth (clearMidiNoteSample n p)) !! i = Some v
  /\ heap_read (heap (clearMidiNoteSample n p)) a = None
  /\ renderNextBlock (heap (clearMidiNoteSample n p)) start frames v out = None.
Proof.
  intros Hn Hslot Hv Hplay Hbuf Hframes.
  rewrite clearMidiNoteSample_voices. split; [exact Hv|].
  assert (Hfree : heap_read (heap (clearMidiNoteSample n p)) a = None).
  { unfold clearMidiNoteSample.
    destruct ((0 <=? n) && (n <? 128)) eqn:Hg; [|lia].
    unfold ButtonSample_clear. rewrite Hslot. simpl.
    unfold heap_read, heap_delete. simpl. apply lookup_delete_eq. }
  split; [exact Hfree|].
  unfold renderNextBlock. rewrite Hbuf, Hplay, Hfree. simpl.
  destruct (Z.to_nat frames) eqn:Hc; [lia | reflexivity].
Qed.

End Dangling.

(** C9 on the code.  The sample on note 60 is playing on voice 0 when the
    slot is cleared: the buffer at address 0 is deleted although the voice
    still points to it, and rendering the next block reads the deleted
    buffer (the model's [None]). *)
Lemma clear_frees_buffer_under_playing_voice :
  let p := plugin demo_playing in
  let p' := clearMidiNoteSample 60 p in
  bs_sampleBuffer (getMidiNoteSample p 60) = Some 0%nat
  /\ (exists v, voices (synth p) !! 0%nat = Some v
                /\ v_isPlaying v = true
                /\ v_sampleBuffer v = Some 0%nat
                /\ voices (synth p') !! 0%nat = Some v)
  /\ is_Some (heap_read (heap p) 0%nat)
  /\ bs_isLoaded (getMidiNoteSample p' 60) = false
  /\ heap_read (heap p') 0%nat = None
  /\ processBlock no_steal true (silence 2) 2 [] p' = None
  /\ step demo_fs no_steal (EvProcessBlock (silence 2) 2 [])
          (with_plugin p' demo_playing) = None.
Proof.
  cbv zeta. split; [reflexivity|]. split.
  - eexists. split; [vm_compute; reflexivity|].
    split; [reflexivity|]. split; [reflexivity|]. vm_compute. reflexivity.
  - split; [vm_compute; eauto|]. split; [reflexivity|].
    split; [vm_compute; reflexivity|]. split; vm_compute; reflexivity.
Qed.

(** * Further properties of the sources *)

(** ** The editor's flags *)

Section EditorFlags.
Context {F : Type} `{FloatOps F}.

Lemma handleMidiMessage_flags (msg : MidiMessage) (w : World F) :
  flags_inv w -> flags_inv (handleMidiMessage msg w).
Proof.
  unfold flags_inv, handleMidiMessage. intros (Hx & Hi & Ho).
  repeat case_match; simpl in *; repeat split; auto;
    destruct (isMidiLearning (editor w)), (isSampleLearning (editor w));
    simpl in *; auto; try discriminate.
Qed.

Lemma step_flags (fs : FileSys F) (steal : StealPolicy F) (ev : Event F) (w w' : World F) :
  step fs steal ev w = Some w' -> flags_inv w -> flags_inv w'.
Proof.
  intros Hstep Hinv.
  destruct ev as [msg|buffer frames hostMidi|b|i r|i|file|elapsed|json
                  |i file|i|i n|n file|n|xml]; simpl in Hstep.
  2: { destruct (processBlock _ _ _ _ _ _) as [[p out]|]; [|discriminate].
       inversion Hstep; subst. exact Hinv. }
  all: inversion Hstep; subst; clear Hstep.
  1: { unfold handleIncomingMidiMessage. apply handleMidiMessage_flags. exact Hinv. }
  6: { destruct Hinv as (Hx & Hi & Ho). unfold flags_inv.
       destruct json as [|d]; [simpl; auto|].
       unfold loadAllSamplesFromJson.
       destruct (doc_oneShotMode d) as [b|];
         destruct (doc_buttons d), (doc_midiNotes d);
         repeat match goal with
                | |- context [foldl (import_note fs) ?a ?b] =>
                    destruct (foldl (import_note fs) a b) as [[? ?] ?]
                end;
         simpl; repeat split; auto. }
  all: destruct w as [p [ml sl os li si np nv pb pn fc] o];
    unfold flags_inv in *; simpl in *; destruct Hinv as (Hx & Hi & Ho);
    try (repeat split; assumption).
  - unfold buttonClicked. destruct b, ml, sl; simpl in *;
      repeat split; auto; try discriminate.
  - unfold mouseDown, loadSampleForButton. destruct r, ml, sl; simpl in *;
      repeat case_match; simpl; repeat split; auto; try discriminate.
  - unfold mouseDoubleClick, loadSampleForButton.
    repeat case_match; simpl; repeat split; auto.
  - unfold fileChooserCallback. simpl.
    repeat case_match; simpl; repeat split; auto;
      try (rewrite andb_false_r; reflexivity).
  - unfold timerCallback. simpl. repeat case_match; simpl; repeat split; auto.
Qed.

Lemma reachable_flags (fs : FileSys F) (steal : StealPolicy F) (defaultRate : F)
    (w : World F) :
  reachable fs steal defaultRate w -> flags_inv w.
Proof.
  induction 1 as [|w ev w' Hreach IH Hstep].
  - repeat split.
  - exact (step_flags fs steal ev w w' Hstep IH).
Qed.

(** A message that does not complete a MIDI Learn is only queued and
    tracked. *)
Lemma handleIncoming_not_learning (msg : MidiMessage) (w : World F) :
  isMidiLearning (editor w) && (0 <=? learningButtonIndex (editor w)) && isNoteOn msg
    = false ->
  plugin (handleIncomingMidiMessage msg w) = addMessageToQueue msg (plugin w)
  /\ isMidiLearning (editor (handleIncomingMidiMessage msg w)) = isMidiLearning (editor w)
  /\ learningButtonIndex (editor (handleIncomingMidiMessage msg w))
     = learningButtonIndex (editor w)
  /\ isSampleLearning (editor (handleIncomingMidiMessage msg w))
     = isSampleLearning (editor w)
  /\ oneShotEnabled (handleIncomingMidiMessage msg w) = oneShotEnabled w.
Proof.
  intros Hno. unfold handleIncomingMidiMessage, handleMidiMessage. simpl.
  set (e1 := if isNoteOn msg && (0 <=? getNoteNumber msg) && (getNoteNumber msg <? 128)
             then track_note (getNoteNumber msg) true
                             (velocity_of_byte (getVelocity msg)) (editor w)
             else if isNoteOff msg && (0 <=? getNoteNumber msg)
                     && (getNoteNumber msg <? 128)
             then track_note (getNoteNumber msg) false fzero (editor w)
             else editor w).
  assert (He1 : isMidiLearning e1 = isMidiLearning (editor w)
                /\ learningButtonIndex e1 = learningButtonIndex (editor w)
                /\ isSampleLearning e1 = isSampleLearning (editor w)).
  { subst e1. repeat case_match; repeat split. }
  destruct He1 as (Hl & Hi & Hs). rewrite Hl, Hi, Hno. simpl. auto.
Qed.

(** A note-on that completes a MIDI Learn. *)
Lemma handleIncoming_learning (msg : MidiMessage) (w : World F) :
  isMidiLearning (editor w) && (0 <=? learningButtonIndex (editor w)) && isNoteOn msg
    = true ->
  plugin (handleIncomingMidiMessage msg w)
    = setNoteMapping (learningButtonIndex (editor w)) (getNoteNumber msg)
                     (addMessageToQueue msg (plugin w))
  /\ isMidiLearning (editor (handleIncomingMidiMessage msg w)) = false
  /\ learningButtonIndex (editor (handleIncomingMidiMessage msg w)) = -1
  /\ isSampleLearning (editor (handleIncomingMidiMessage msg w))
     = isSampleLearning (editor w).
Proof.
  intros Hyes. unfold handleIncomingMidiMessage, handleMidiMessage. simpl.
  set (e1 := if isNoteOn msg && (0 <=? getNoteNumber msg) && (getNoteNumber msg <? 128)
             then track_note (getNoteNumber msg) true
                             (velocity_of_byte (getVelocity msg)) (editor w)
             else if isNoteOff msg && (0 <=? getNoteNumber msg)
                     && (getNoteNumber msg <? 128)
             then track_note (getNoteNumber msg) false fzero (editor w)
             else editor w).
  assert (He1 : isMidiLearning e1 = isMidiLearning (editor w)
                /\ learningButtonIndex e1 = learningButtonIndex (editor w)
                /\ isSampleLearning e1 = isSampleLearning (editor w)).
  { subst e1. repeat case_match; repeat split. }
  destruct He1 as (Hl & Hi & Hs). rewrite Hl, Hi, Hyes. simpl. auto.
Qed.

End EditorFlags.

(** X1.  In every state the application reaches, MIDI Learn and Sample
    Learn are never armed together, and a pad is selected for learning
    only while MIDI Learn is armed. *)
Theorem learn_modes_exclusive {F : Type} `{FloatOps F}
    (fs : FileSys F) (steal : StealPolicy F) (defaultRate : F) (w : World F) :
  reachable fs steal defaultRate w ->
  isMidiLearning (editor w) && isSampleLearning (editor w) = false
  /\ (isMidiLearning (editor w) = false -> learningButtonIndex (editor w) = -1).
Proof.
  intros Hreach. destruct (reachable_flags fs steal defaultRate w Hreach) as (Hx & Hi & _).
  split; assumption.
Qed.

Lemma learn_modes_exclusive_witness :
  isMidiLearning (editor demo_armed) && isSampleLearning (editor demo_armed) = false
  /\ (isMidiLearning (editor demo_playing) = false ->
      learningButtonIndex (editor demo_playing) = -1).
Proof.
  split.
  - refine (proj1 (@learn_modes_exclusive Q Q_FloatOps demo_fs no_steal demo_rate
                     demo_armed _)).
    eapply reachable_step with (ev := EvMouseDown 5 false);
      [eapply reachable_step with (ev := EvButtonClicked MidiLearnButton);
       [eapply reachable_step with (ev := EvLoadSampleForMidiNote 72 "kick.wav");
        [apply reachable_init | reflexivity]
       | reflexivity]
      | reflexivity].
  - exact (proj2 (@learn_modes_exclusive Q Q_FloatOps demo_fs no_steal demo_rate
                    demo_playing demo_playing_reachable)).
Defined.

(** X2.  In every state the application reaches, the one-shot flag the
    editor shows and exports is the global flag the voices read. *)
Theorem one_shot_flags_agree {F : Type} `{FloatOps F}
    (fs : FileSys F) (steal : StealPolicy F) (defaultRate : F) (w : World F) :
  reachable fs steal defaultRate w ->
  isOneShotMode (editor w) = oneShotEnabled w.
Proof.
  intros Hreach. apply (reachable_flags fs steal defaultRate w Hreach).
Qed.

Lemma one_shot_flags_agree_witness :
  isOneShotMode (editor demo_playing) = oneShotEnabled demo_playing.
Proof.
  exact (@one_shot_flags_agree Q Q_FloatOps demo_fs no_steal demo_rate
           demo_playing demo_playing_reachable).
Defined.

(** ** The MIDI Learn handshake, step by step *)

(** X3.  Unless MIDI Learn is armed, a pad is selected and the message is
    a note-on with non-zero velocity, an incoming MIDI message changes no
    binding and no sample: it is appended to the plugin's queue, and the
    learn flags stay as they are (an armed session stays armed through
    note-offs and note-ons of velocity 0). *)
Theorem midi_outside_learn_only_queued {F : Type} `{FloatOps F}
    (msg : MidiMessage) (w : World F) :
  isMidiLearning (editor w) = false
    \/ learningButtonIndex (editor w) < 0
    \/ isNoteOn msg = false ->
  plugin (handleIncomingMidiMessage msg w) = addMessageToQueue msg (plugin w)
  /\ isMidiLearning (editor (handleIncomingMidiMessage msg w)) = isMidiLearning (editor w)
  /\ learningButtonIndex (editor (handleIncomingMidiMessage msg w))
     = learningButtonIndex (editor w)
  /\ isSampleLearning (editor (handleIncomingMidiMessage msg w))
     = isSampleLearning (editor w).
Proof.
  intros Hcase.
  assert (Hno : isMidiLearning (editor w) && (0 <=? learningButtonIndex (editor w))
                && isNoteOn msg = false).
  { destruct Hcase as [-> | [Hneg | ->]].
    - reflexivity.
    - destruct (0 <=? learningButtonIndex (editor w)) eqn:Hge; [lia|].
      rewrite andb_false_r. reflexivity.
    - apply andb_false_r. }
  destruct (handleIncoming_not_learning msg w Hno) as (Hp & Hl & Hi & Hs & _).
  repeat split; assumption.
Qed.

Lemma midi_outside_learn_only_queued_witness :
  plugin (handleIncomingMidiMessage (MidiNoteOn 1 72 0) demo_armed)
    = addMessageToQueue (MidiNoteOn 1 72 0) (plugin demo_armed)
  /\ isMidiLearning (editor (handleIncomingMidiMessage (MidiNoteOn 1 72 0) demo_armed))
     = isMidiLearning (editor demo_armed).
Proof.
  pose proof (@midi_outside_learn_only_queued Q Q_FloatOps (MidiNoteOn 1 72 0)
                demo_armed ltac:(right; right; reflexivity)) as (Hp & Hl & _).
  split; [exact Hp | exact Hl].
Defined.

(** X4.  Arming MIDI Learn, clicking pads and pressing a key binds the
    key's note to the pad clicked last and to no other pad; the session is
    then over, so the next note-on binds nothing. *)
Theorem midi_learn_captures_one_note {F : Type} `{FloatOps F}
    (m1 m2 : MidiMessage) (pad0 pad : Z) (w : World F) :
  isMidiLearning (editor w) = false ->
  0 <= pad < 16 ->
  isNoteOn m1 = true ->
  length (noteMapping (plugin w)) = 16%nat ->
  let w3 := handleIncomingMidiMessage m1
              (mouseDown pad false
                 (mouseDown pad0 false (buttonClicked MidiLearnButton w))) in
  let w4 := handleIncomingMidiMessage m2 w3 in
  getNoteMapping (plugin w3) pad = getNoteNumber m1
  /\ (forall other, other <> pad ->
        getNoteMapping (plugin w3) other = getNoteMapping (plugin w) other)
  /\ isMidiLearning (editor w3) = false
  /\ noteMapping (plugin w4) = noteMapping (plugin w3).
Proof.
  intros Hoff Hpad Hon Hlen w3 w4. subst w4 w3.
  set (w2 := mouseDown pad false
               (mouseDown pad0 false (buttonClicked MidiLearnButton w))).
  assert (Hw2 : isMidiLearning (editor w2) = true
                /\ learningButtonIndex (editor w2) = pad
                /\ plugin w2 = plugin w).
  { subst w2. destruct w as [p [ml sl os li si np nv pb pn fc] o].
    simpl in Hoff. subst ml. unfold buttonClicked, mouseDown.
    destruct sl; simpl; repeat split. }
  destruct Hw2 as (Hl2 & Hi2 & Hp2).
  assert (Hyes : isMidiLearning (editor w2) && (0 <=? learningButtonIndex (editor w2))
                 && isNoteOn m1 = true).
  { rewrite Hl2, Hi2, Hon. destruct (0 <=? pad) eqn:Hge; [reflexivity | lia]. }
  destruct (handleIncoming_learning m1 w2 Hyes) as (Hp3 & Hl3 & Hi3 & _).
  rewrite Hi2, Hp2 in Hp3.
  set (w3 := handleIncomingMidiMessage m1 w2) in *.
  destruct (setNoteMapping_in pad (getNoteNumber m1)
              (addMessageToQueue m1 (plugin w)) Hpad) as (Hm & _).
  simpl in Hm.
  assert (Hin : in_range pad (length (noteMapping (plugin w))) = true).
  { unfold in_range. rewrite Hlen.
    apply andb_true_intro. split; [apply Z.leb_le | apply Z.ltb_lt]; lia. }
  rewrite Array_set_in in Hm by exact Hin.
  split; [|split; [|split]].
  - unfold getNoteMapping. rewrite Hp3, Hm. apply Array_get_insert_eq, Hin.
  - intros other Hne. unfold getNoteMapping. rewrite Hp3, Hm.
    apply Array_get_insert_ne; lia.
  - exact Hl3.
  - assert (Hno : isMidiLearning (editor w3) && (0 <=? learningButtonIndex (editor w3))
                  && isNoteOn m2 = false) by (rewrite Hl3; reflexivity).
    destruct (handleIncoming_not_learning m2 w3 Hno) as (Hp4 & _).
    rewrite Hp4. reflexivity.
Qed.

Lemma midi_learn_captures_one_note_witness :
  getNoteMapping
    (plugin (handleIncomingMidiMessage (MidiNoteOn 1 72 100)
               (mouseDown 5 false
                  (mouseDown 2 false
                     (buttonClicked MidiLearnButton (World_new demo_rate)))))) 5 = 72.
Proof.
  exact (proj1 (@midi_learn_captures_one_note Q Q_FloatOps (MidiNoteOn 1 72 100)
                  (MidiNoteOn 1 73 100) 2 5 (World_new demo_rate)
                  ltac:(reflexivity) ltac:(lia) ltac:(reflexivity) ltac:(reflexivity))).
Defined.

(** X5.  A MIDI Learn that is cancelled binds nothing: after arming and
    selecting a pad, a second click on MIDI Learn, or a click on Sample
    Learn, ends the session with the bindings untouched, and a note-on
    that follows is only queued. *)
Theorem midi_learn_cancel_keeps_bindings {F : Type} `{FloatOps F}
    (cancel : EditorButton) (msg : MidiMessage) (pad : Z) (w : World F) :
  isMidiLearning (editor w) = false ->
  cancel = MidiLearnButton \/ cancel = SampleLearnButton ->
  let w3 := buttonClicked cancel
              (mouseDown pad false (buttonClicked MidiLearnButton w)) in
  isMidiLearning (editor w3) = false
  /\ learningButtonIndex (editor w3) = -1
  /\ plugin w3 = plugin w
  /\ plugin (handleIncomingMidiMessage msg w3) = addMessageToQueue msg (plugin w).
Proof.
  intros Hoff Hcancel w3.
  assert (Hw3 : isMidiLearning (editor w3) = false
                /\ learningButtonIndex (editor w3) = -1
                /\ plugin w3 = plugin w).
  { subst w3. destruct w as [p [ml sl os li si np nv pb pn fc] o].
    simpl in Hoff. subst ml. unfold buttonClicked, mouseDown.
    destruct Hcancel as [-> | ->]; destruct sl; simpl; repeat split. }
  destruct Hw3 as (Hl & Hi & Hp). repeat split; try assumption.
  assert (Hno : isMidiLearning (editor w3) && (0 <=? learningButtonIndex (editor w3))
                && isNoteOn msg = false) by (rewrite Hl; reflexivity).
  destruct (handleIncoming_not_learning msg w3 Hno) as (Hp4 & _).
  rewrite Hp4, Hp. reflexivity.
Qed.

Lemma midi_learn_cancel_keeps_bindings_witness :
  plugin (handleIncomingMidiMessage (MidiNoteOn 1 72 100)
            (buttonClicked SampleLearnButton
               (mouseDown 5 false
                  (buttonClicked MidiLearnButton (World_new demo_rate)))))
  = addMessageToQueue (MidiNoteOn 1 72 100) (plugin (World_new demo_rate)).
Proof.
  exact (proj2 (proj2 (proj2
           (@midi_learn_cancel_keeps_bindings Q Q_FloatOps SampleLearnButton
              (MidiNoteOn 1 72 100) 5 (World_new demo_rate)
              ltac:(reflexivity) ltac:(right; reflexivity))))).
Defined.

(** ** Clicking a pad *)

(** X6.  Outside the learn modes, a left click on a pad queues a note-on
    of velocity 100 on channel 1 for the pad's note (masked to 7 bits) and
    remembers one pending note-off.  A second click before the timer fires
    replaces the pending note-off, so when the delay has elapsed at most
    one note-off is queued, for the pad clicked last: exactly one when
    that pad's index and its note are not negative, and none otherwise,
    since the timer sends only for a pending pad and note that are both at
    least 0 (a pad bound to a negative note gets its note-on and never a
    note-off).  Before the delay the timer sends nothing, and afterwards it
    has nothing more to send. *)
Theorem pad_clicks_share_one_note_off {F : Type} `{FloatOps F}
    (a b : Z) (w : World F) :
  isMidiLearning (editor w) = false ->
  isSampleLearning (editor w) = false ->
  let w2 := mouseDown b false (mouseDown a false w) in
  let w3 := timerCallback true w2 in
  let note := getNoteMapping (plugin w) b in
  timerCallback false w2 = w2
  /\ midiCollector (plugin w3)
     = midiCollector (plugin w)
       ++ [MidiNoteOn 1 (Z.land (getNoteMapping (plugin w) a) 127) 100;
           MidiNoteOn 1 (Z.land note 127) 100]
       ++ (if (0 <=? b) && (0 <=? note)
           then [MidiNoteOff 1 (Z.land note 127) 0]
           else [])
  /\ timerCallback true w3 = w3.
Proof.
  intros Hm Hs w2 w3 note. subst w3 w2 note.
  unfold mouseDown. rewrite Hm, Hs. simpl. rewrite Hm, Hs. simpl.
  unfold timerCallback. simpl.
  rewrite andb_false_r. split; [reflexivity|].
  unfold getNoteMapping in *. simpl.
  destruct ((0 <=? b) && (0 <=? Array_get 0 (noteMapping (plugin w)) b)) eqn:Hg;
    simpl.
  - split; [|reflexivity]. rewrite <- !app_assoc. reflexivity.
  - rewrite Hg. simpl. split; [|reflexivity].
    rewrite <- !app_assoc. reflexivity.
Qed.

Lemma pad_clicks_share_one_note_off_witness :
  midiCollector
    (plugin (timerCallback true
               (mouseDown 1 false (mouseDown 0 false (World_new demo_rate)))))
  = [MidiNoteOn 1 36 100; MidiNoteOn 1 37 100; MidiNoteOff 1 37 0].
Proof.
  exact (proj1 (proj2 (@pad_clicks_share_one_note_off Q Q_FloatOps 0 1
                         (World_new demo_rate)
                         ltac:(reflexivity) ltac:(reflexivity)))).
Defined.

(** ** Slots, heap and sounds stay consistent *)

Section StoreFacts.
Context {F : Type} `{FloatOps F}.

Lemma live_delete (h : Heap F) (a b : nat) :
  live (heap_delete a h) b <-> b <> a /\ live h b.
Proof.
  unfold live, heap_read, heap_delete. simpl. split.
  - intros [x Hx]. apply lookup_delete_Some in Hx. destruct Hx as (Hne & Hx).
    split; [congruence | eauto].
  - intros (Hne & [x Hx]). exists x. apply lookup_delete_Some. split; [congruence | exact Hx].
Qed.

Lemma live_new (buf : AudioSampleBuffer F) (h : Heap F) (b : nat) :
  live (snd (heap_new buf h)) b <-> b = nextAddr h \/ live h b.
Proof.
  unfold live, heap_read, heap_new. simpl. split.
  - intros [x Hx]. destruct (decide (nextAddr h = b)) as [<-|Hne]; [left; reflexivity|].
    right. rewrite lookup_insert_ne in Hx by exact Hne. eauto.
  - intros [-> | [x Hx]].
    + rewrite lookup_insert_eq. eauto.
    + destruct (decide (nextAddr h = b)) as [<-|Hne].
      * rewrite lookup_insert_eq. eauto.
      * rewrite lookup_insert_ne by exact Hne. eauto.
Qed.

Lemma new_slot_fields :
  bs_isLoaded (@ButtonSample_new F _) = false
  /\ bs_sampleBuffer (@ButtonSample_new F _) = None.
Proof. split; reflexivity. Qed.

(** Emptying the slot of owner [o0]; the sounds of other owners stay. *)
Lemma store_inv_clear (p p' : SamplerPlugin F) (o0 : Owner) :
  store_inv p ->
  slot_of p' o0 = ButtonSample_new ->
  (forall o, o <> o0 -> slot_of p' o = slot_of p o) ->
  heap p' = match bs_sampleBuffer (slot_of p o0) with
            | Some a => heap_delete a (heap p)
            | None => heap p
            end ->
  sounds (synth p') `sublist_of` sounds (synth p) ->
  (forall s, s ∈ sounds (synth p) -> owner_of_sound s <> o0 ->
             s ∈ sounds (synth p')) ->
  (forall s, s ∈ sounds (synth p') -> snd_buttonIndex s = -1 ->
             owner_of_sound s <> o0) ->
  (forall j, PadOwner j <> o0 -> getNoteMapping p' j = getNoteMapping p j) ->
  owner_valid o0 ->
  store_inv p'.
Proof.
  intros [Hslots Hdist Hsnd Hload Huniq Hroot Hown] Hnew Hsame Hheap Hsub Hkeep
         Hnote Hmap Hv0.
  assert (Hnext : nextAddr (heap p') = nextAddr (heap p)).
  { rewrite Hheap. destruct (bs_sampleBuffer (slot_of p o0)); reflexivity. }
  assert (Hlive : forall o a, owner_valid o -> o <> o0 ->
            bs_sampleBuffer (slot_of p o) = Some a -> live (heap p) a ->
            live (heap p') a).
  { intros o a Hv Hne Hb Hl. rewrite Hheap.
    destruct (bs_sampleBuffer (slot_of p o0)) as [a0|] eqn:H0; [|exact Hl].
    apply live_delete. split; [|exact Hl].
    intros ->. apply Hne. exact (Hdist o o0 a0 Hv Hv0 Hb H0). }
  assert (Hin : forall s, s ∈ sounds (synth p') -> s ∈ sounds (synth p)).
  { intros s Hs. exact (elem_of_sublist _ _ s Hs Hsub). }
  assert (Hunl : forall o, bs_isLoaded (slot_of p' o) = true -> o <> o0).
  { intros o Hl ->. rewrite Hnew in Hl. discriminate. }
  constructor.
  - intros o Hv. destruct (decide (o = o0)) as [->|Hne]; [left; exact Hnew|].
    rewrite (Hsame o Hne).
    destruct (Hslots o Hv) as [Hn | (Hl & a & Hb & Hla & Hlt)]; [left; exact Hn|].
    right. split; [exact Hl|]. exists a. rewrite Hnext. eauto.
  - intros o1 o2 a Hv1 Hv2 H1 H2.
    destruct (decide (o1 = o0)) as [->|Hn1]; [rewrite Hnew in H1; discriminate|].
    destruct (decide (o2 = o0)) as [->|Hn2]; [rewrite Hnew in H2; discriminate|].
    rewrite (Hsame o1 Hn1) in H1. rewrite (Hsame o2 Hn2) in H2. eauto.
  - intros s Hs. destruct (Hsnd s (Hin s Hs)) as (Hv & Hl & Hb).
    split; [exact Hv|]. split.
    + intros Hi. rewrite (Hsame _ (Hnote s Hs Hi)). exact (Hl Hi).
    + intros Hl'. pose proof (Hunl _ Hl') as Hne.
      rewrite (Hsame _ Hne) in *. exact (Hb Hl').
  - intros o Hv Hl. pose proof (Hunl _ Hl) as Hne.
    rewrite (Hsame o Hne) in Hl. destruct (Hload o Hv Hl) as (s & Hs & Ho).
    exists s. split; [|exact Ho]. apply Hkeep; [exact Hs | congruence].
  - apply (sublist_NoDup _ (owner_of_sound <$> sounds (synth p)));
      [exact Huniq | exact (fmap_sublist owner_of_sound _ _ Hsub)].
  - intros s Hs Hidx Hl. pose proof (Hunl _ Hl) as Hne.
    rewrite (Hsame _ Hne) in Hl. rewrite Hmap.
    + exact (Hroot s (Hin s Hs) Hidx Hl).
    + intros Heq. apply Hne. rewrite <- Heq. unfold owner_of_sound.
      destruct (snd_buttonIndex s =? -1) eqn:Hm; [|reflexivity].
      apply Z.eqb_eq in Hm. contradiction.
  - intros a Hl. rewrite Hheap in Hl.
    assert (Hold : live (heap p) a /\ bs_sampleBuffer (slot_of p o0) <> Some a).
    { destruct (bs_sampleBuffer (slot_of p o0)) as [a0|] eqn:H0.
      - apply live_delete in Hl. destruct Hl as (Hne & Hl).
        split; [exact Hl | congruence].
      - split; [exact Hl | discriminate]. }
    destruct Hold as (Hl0 & Hne). destruct (Hown a Hl0) as (o & Hv & Hb).
    exists o. split; [exact Hv|]. rewrite Hsame; [exact Hb|].
    intros ->. contradiction.
Qed.

(** Filling the empty slot of owner [o0] with a freshly allocated buffer. *)
Lemma store_inv_load (p1 p' : SamplerPlugin F) (o0 : Owner)
    (buf : AudioSampleBuffer F) (snd0 : ButtonSampleSound F) :
  store_inv p1 ->
  slot_of p1 o0 = ButtonSample_new ->
  bs_isLoaded (slot_of p' o0) = true ->
  bs_sampleBuffer (slot_of p' o0) = Some (nextAddr (heap p1)) ->
  (forall o, o <> o0 -> slot_of p' o = slot_of p1 o) ->
  heap p' = snd (heap_new buf (heap p1)) ->
  (forall s, s ∈ sounds (synth p1) -> owner_of_sound s <> o0) ->
  sounds (synth p') = sounds (synth p1) ++ [snd0] ->
  owner_of_sound snd0 = o0 ->
  snd_sampleBuffer snd0 = Some (nextAddr (heap p1)) ->
  (snd_buttonIndex snd0 <> -1 ->
   snd_rootNote snd0 = getNoteMapping p1 (snd_buttonIndex snd0)) ->
  noteMapping p' = noteMapping p1 ->
  owner_valid o0 ->
  store_inv p'.
Proof.
  intros [Hslots Hdist Hsnd Hload Huniq Hroot Hown] Hempty Hl0 Hb0 Hsame Hheap
         Hold Hsounds Ho0 Hsb0 Hroot0 Hmap Hv0.
  assert (Hbelow : forall o a, owner_valid o ->
            bs_sampleBuffer (slot_of p1 o) = Some a -> (a < nextAddr (heap p1))%nat).
  { intros o a Hv Hb. destruct (Hslots o Hv) as [Hn | (_ & a' & Hb' & _ & Hlt)].
    - rewrite Hn in Hb. discriminate.
    - congruence. }
  constructor.
  - intros o Hv. destruct (decide (o = o0)) as [->|Hne].
    + right. split; [exact Hl0|]. exists (nextAddr (heap p1)). split; [exact Hb0|].
      rewrite Hheap. split; [apply live_new; left; reflexivity | simpl; lia].
    + rewrite (Hsame o Hne).
      destruct (Hslots o Hv) as [Hn | (Hl & a & Hb & Hla & Hlt)]; [left; exact Hn|].
      right. split; [exact Hl|]. exists a. rewrite Hheap. split; [exact Hb|].
      split; [apply live_new; right; exact Hla | simpl; lia].
  - intros o1 o2 a Hv1 Hv2 H1 H2.
    destruct (decide (o1 = o0)) as [->|Hn1], (decide (o2 = o0)) as [->|Hn2].
    + reflexivity.
    + rewrite Hb0 in H1. inversion H1; subst a.
      rewrite (Hsame o2 Hn2) in H2. pose proof (Hbelow o2 _ Hv2 H2). lia.
    + rewrite Hb0 in H2. inversion H2; subst a.
      rewrite (Hsame o1 Hn1) in H1. pose proof (Hbelow o1 _ Hv1 H1). lia.
    + rewrite (Hsame o1 Hn1) in H1. rewrite (Hsame o2 Hn2) in H2. eauto.
  - intros s Hs. rewrite Hsounds in Hs. apply elem_of_app in Hs.
    destruct Hs as [Hs | Hs].
    + rewrite (Hsame _ (Hold s Hs)). apply Hsnd, Hs.
    + apply list_elem_of_singleton in Hs. subst s. rewrite Ho0.
      split; [exact Hv0|]. split; [intros _; exact Hl0 | congruence].
  - intros o Hv Hl. rewrite Hsounds. destruct (decide (o = o0)) as [->|Hne].
    + exists snd0. split; [|exact Ho0]. apply elem_of_app. right.
      apply list_elem_of_singleton. reflexivity.
    + rewrite (Hsame o Hne) in Hl. destruct (Hload o Hv Hl) as (s & Hs & Ho).
      exists s. split; [|exact Ho]. apply elem_of_app. left. exact Hs.
  - rewrite Hsounds, fmap_app. apply NoDup_app. split; [exact Huniq|]. split.
    + intros o Ho Hin. simpl in Hin. apply list_elem_of_singleton in Hin.
      apply list_elem_of_fmap in Ho. destruct Ho as (s & -> & Hs).
      apply (Hold s Hs). congruence.
    + apply NoDup_singleton.
  - intros s Hs Hidx Hl. rewrite Hsounds in Hs. apply elem_of_app in Hs.
    unfold getNoteMapping. rewrite Hmap. destruct Hs as [Hs | Hs].
    + rewrite (Hsame _ (Hold s Hs)) in Hl. apply (Hroot s Hs Hidx Hl).
    + apply list_elem_of_singleton in Hs. subst s. apply Hroot0, Hidx.
  - intros a Hl. rewrite Hheap in Hl. apply live_new in Hl.
    destruct Hl as [->|Hl]; [exists o0; split; assumption|].
    destruct (Hown a Hl) as (o & Hv & Hb). exists o. split; [exact Hv|].
    rewrite Hsame; [exact Hb|]. intros ->. rewrite Hempty in Hb. discriminate.
Qed.

End StoreFacts.

Section StoreSteps.
Context {F : Type} `{FloatOps F}.

Lemma in_range_16 (i : Z) : 0 <= i < 16 -> in_range i 16 = true.
Proof.
  intros Hi. unfold in_range.
  apply andb_true_intro. split; [apply Z.leb_le | apply Z.ltb_lt]; lia.
Qed.

Lemma in_range_128 (n : Z) : 0 <= n < 128 -> in_range n 128 = true.
Proof.
  intros Hn. unfold in_range.
  apply andb_true_intro. split; [apply Z.leb_le | apply Z.ltb_lt]; lia.
Qed.

Lemma slot_of_note_insert (p p' : SamplerPlugin F) (n : Z) (s : ButtonSample F) :
  0 <= n < 128 ->
  length (midiNoteSamples p) = 128%nat ->
  midiNoteSamples p' = <[Z.to_nat n := s]> (midiNoteSamples p) ->
  buttons p' = buttons p ->
  slot_of p' (NoteOwner n) = s
  /\ forall o, o <> NoteOwner n -> slot_of p' o = slot_of p o.
Proof.
  intros Hn Hlen Hs Hb. split.
  - simpl. unfold getMidiNoteSample. rewrite Hs.
    apply Array_get_insert_eq. rewrite Hlen. apply in_range_128, Hn.
  - intros [m|i] Hne; simpl.
    + unfold getMidiNoteSample. rewrite Hs. apply Array_get_insert_ne; [lia|].
      congruence.
    + unfold getButton. rewrite Hb. reflexivity.
Qed.

Lemma slot_of_pad_insert (p p' : SamplerPlugin F) (i : Z) (s : ButtonSample F) :
  0 <= i < 16 ->
  length (buttons p) = 16%nat ->
  buttons p' = <[Z.to_nat i := s]> (buttons p) ->
  midiNoteSamples p' = midiNoteSamples p ->
  slot_of p' (PadOwner i) = s
  /\ forall o, o <> PadOwner i -> slot_of p' o = slot_of p o.
Proof.
  intros Hi Hlen Hb Hs. split.
  - simpl. unfold getButton. rewrite Hb.
    apply Array_get_insert_eq. rewrite Hlen. apply in_range_16, Hi.
  - intros [m|j] Hne; simpl.
    + unfold getMidiNoteSample. rewrite Hs. reflexivity.
    + unfold getButton. rewrite Hb. apply Array_get_insert_ne; [lia|].
      congruence.
Qed.

Lemma removeSounds_spec (q : ButtonSampleSound F -> bool) (s : Synthesiser F) :
  sounds (removeSounds q s) `sublist_of` sounds s
  /\ forall x, x ∈ sounds (removeSounds q s) <-> x ∈ sounds s /\ q x = false.
Proof.
  unfold removeSounds. simpl. split; [apply sublist_filter|].
  intros x. rewrite list_elem_of_filter. destruct (q x); simpl; intuition congruence.
Qed.

Lemma note_sound_test (x : ButtonSampleSound F) (n : Z) :
  (snd_buttonIndex x =? -1) && (snd_rootNote x =? n) = false
  <-> owner_of_sound x <> NoteOwner n.
Proof.
  unfold owner_of_sound.
  destruct (snd_buttonIndex x =? -1) eqn:Hi; simpl.
  - destruct (snd_rootNote x =? n) eqn:Hr.
    + apply Z.eqb_eq in Hr. subst. split; [discriminate | congruence].
    + apply Z.eqb_neq in Hr. split; [congruence | reflexivity].
  - split; [discriminate | reflexivity].
Qed.

Lemma pad_sound_test (x : ButtonSampleSound F) (i : Z) :
  0 <= i < 16 ->
  (snd_buttonIndex x =? i) = false <-> owner_of_sound x <> PadOwner i.
Proof.
  intros Hi. unfold owner_of_sound.
  destruct (snd_buttonIndex x =? -1) eqn:H1.
  - apply Z.eqb_eq in H1. rewrite H1.
    destruct (-1 =? i) eqn:H2; [lia|]. split; [discriminate | reflexivity].
  - destruct (snd_buttonIndex x =? i) eqn:H2.
    + apply Z.eqb_eq in H2. subst. split; [discriminate | congruence].
    + apply Z.eqb_neq in H2. split; [congruence | reflexivity].
Qed.

Lemma clearMidiNoteSample_sounds (n : Z) (p : SamplerPlugin F) :
  0 <= n < 128 ->
  sounds (synth (clearMidiNoteSample n p)) `sublist_of` sounds (synth p)
  /\ forall s, s ∈ sounds (synth (clearMidiNoteSample n p))
               <-> s ∈ sounds (synth p) /\ owner_of_sound s <> NoteOwner n.
Proof.
  intros Hn.
  assert (Hsnds : sounds (synth (clearMidiNoteSample n p))
                  = sounds (removeSounds
                              (fun s => (snd_buttonIndex s =? -1)
                                        && (snd_rootNote s =? n)) (synth p))).
  { unfold clearMidiNoteSample.
    destruct ((0 <=? n) && (n <? 128)) eqn:Hg; [reflexivity | lia]. }
  destruct (removeSounds_spec
              (fun s => (snd_buttonIndex s =? -1) && (snd_rootNote s =? n)) (synth p))
    as (Hsub & Hmem).
  rewrite Hsnds. split; [exact Hsub|].
  intros s. rewrite Hmem, note_sound_test. reflexivity.
Qed.

Lemma clearSample_sounds (i : Z) (p : SamplerPlugin F) :
  0 <= i < 16 ->
  sounds (synth (clearSample i p)) `sublist_of` sounds (synth p)
  /\ forall s, s ∈ sounds (synth (clearSample i p))
               <-> s ∈ sounds (synth p) /\ owner_of_sound s <> PadOwner i.
Proof.
  intros Hi.
  assert (Hsnds : sounds (synth (clearSample i p))
                  = sounds (removeSounds (fun s => snd_buttonIndex s =? i) (synth p))).
  { unfold clearSample.
    destruct ((0 <=? i) && (i <? 16)) eqn:Hg; [reflexivity | lia]. }
  destruct (removeSounds_spec (fun s => snd_buttonIndex s =? i) (synth p))
    as (Hsub & Hmem).
  rewrite Hsnds. split; [exact Hsub|].
  intros s. rewrite Hmem, (pad_sound_test s i Hi). reflexivity.
Qed.

Lemma getNoteMapping_same (p p' : SamplerPlugin F) (j : Z) :
  noteMapping p' = noteMapping p -> getNoteMapping p' j = getNoteMapping p j.
Proof. intros Hm. unfold getNoteMapping. rewrite Hm. reflexivity. Qed.

Lemma clearMidiNoteSample_inv (n : Z) (p : SamplerPlugin F) :
  psizes p -> store_inv p -> store_inv (clearMidiNoteSample n p).
Proof.
  intros (Hb & Hm & Hs & Hv) Hinv.
  destruct (decide (0 <= n < 128)) as [Hn|Hn];
    [|rewrite clearMidiNoteSample_out by exact Hn; exact Hinv].
  destruct (clearMidiNoteSample_in n p Hn) as (Hs' & Hm' & Hb' & _).
  destruct (slot_of_note_insert p _ n ButtonSample_new Hn Hs Hs' Hb') as (Hnew & Hsame).
  destruct (clearMidiNoteSample_sounds n p Hn) as (Hsub & Hmem).
  apply (store_inv_clear p _ (NoteOwner n) Hinv Hnew Hsame).
  - unfold clearMidiNoteSample.
    destruct ((0 <=? n) && (n <? 128)) eqn:Hg; [|lia].
    unfold ButtonSample_clear. simpl.
    destruct (bs_sampleBuffer (getMidiNoteSample p n)); reflexivity.
  - exact Hsub.
  - intros s Hin Hne. apply Hmem. split; assumption.
  - intros s Hin _. apply Hmem in Hin. tauto.
  - intros j _. apply getNoteMapping_same, Hm'.
  - exact Hn.
Qed.

Lemma clearSample_inv (i : Z) (p : SamplerPlugin F) :
  psizes p -> store_inv p -> store_inv (clearSample i p).
Proof.
  intros (Hb & Hm & Hs & Hv) Hinv.
  destruct (decide (0 <= i < 16)) as [Hi|Hi];
    [|rewrite clearSample_out by exact Hi; exact Hinv].
  destruct (clearSample_in i p Hi) as (Hb' & Hm' & Hs').
  destruct (slot_of_pad_insert p _ i ButtonSample_new Hi Hb Hb' Hs') as (Hnew & Hsame).
  destruct (clearSample_sounds i p Hi) as (Hsub & Hmem).
  apply (store_inv_clear p _ (PadOwner i) Hinv Hnew Hsame).
  - unfold clearSample.
    destruct ((0 <=? i) && (i <? 16)) eqn:Hg; [|lia].
    unfold ButtonSample_clear. simpl.
    destruct (bs_sampleBuffer (getButton p i)); reflexivity.
  - exact Hsub.
  - intros s Hin Hne. apply Hmem. split; assumption.
  - intros s Hin _. apply Hmem in Hin. tauto.
  - intros j _. apply getNoteMapping_same, Hm'.
  - exact Hi.
Qed.

Lemma clearMidiNoteSample_psizes (n : Z) (p : SamplerPlugin F) :
  psizes p -> psizes (clearMidiNoteSample n p).
Proof.
  intros (Hb & Hm & Hs & Hv).
  destruct (decide (0 <= n < 128)) as [Hn|Hn];
    [|rewrite clearMidiNoteSample_out by exact Hn; repeat split; assumption].
  destruct (clearMidiNoteSample_in n p Hn) as (Hs' & Hm' & Hb' & _).
  unfold psizes. rewrite Hs', Hm', Hb', length_insert, clearMidiNoteSample_voices.
  repeat split; assumption.
Qed.

Lemma clearSample_psizes (i : Z) (p : SamplerPlugin F) :
  psizes p -> psizes (clearSample i p).
Proof.
  intros (Hb & Hm & Hs & Hv).
  destruct (decide (0 <= i < 16)) as [Hi|Hi];
    [|rewrite clearSample_out by exact Hi; repeat split; assumption].
  destruct (clearSample_in i p Hi) as (Hb' & Hm' & Hs').
  unfold psizes. rewrite Hs', Hm', Hb', length_insert, clearSample_voices.
  repeat split; assumption.
Qed.

Lemma loadSampleForMidiNote_psizes (fs : FileSys F) (n : Z) (file : string)
    (p : SamplerPlugin F) :
  psizes p -> psizes (snd (loadSampleForMidiNote fs n file p)).
Proof.
  intros (Hb & Hm & Hs & Hv).
  destruct (decide (0 <= n < 128)) as [Hn|Hn];
    [|rewrite loadSampleForMidiNote_out by exact Hn; repeat split; assumption].
  pose proof (loadSampleForMidiNote_in fs n file p Hn) as Hin. simpl in Hin.
  destruct Hin as (Hm' & Hb' & _ & Hcase).
  unfold psizes. rewrite Hm', Hb', loadSampleForMidiNote_voices.
  destruct (createReaderFor fs file) as [reader|];
    [destruct Hcase as (_ & addr & ->) | destruct Hcase as (_ & ->)];
    rewrite length_insert; repeat split; assumption.
Qed.

Lemma loadSample_fields (fs : FileSys F) (i : Z) (file : string) (p : SamplerPlugin F) :
  0 <= i < 16 ->
  loadSample fs i file p
  = match createReaderFor fs file with
    | Some reader =>
        let p1 := clearSample i p in
        (true,
         mkPlugin (addSound (mkSound i (Some (nextAddr (heap p1)))
                                     (rd_sampleRate reader) (getNoteMapping p1 i))
                            (synth p1))
                  (<[Z.to_nat i := mkButtonSample (Some (nextAddr (heap p1))) file
                                     (rd_sampleRate reader) true (getNoteMapping p1 i)]>
                     (buttons p1))
                  (noteMapping p1) (midiNoteSamples p1)
                  (snd (heap_new (rd_buffer reader) (heap p1)))
                  (midiCollector p1))
    | None => (false, clearSample i p)
    end.
Proof.
  intros Hi. unfold loadSample.
  destruct ((i <? 0) || (16 <=? i)) eqn:Hg; [lia|].
  destruct (createReaderFor fs file); reflexivity.
Qed.

Lemma loadSampleForMidiNote_fields (fs : FileSys F) (n : Z) (file : string)
    (p : SamplerPlugin F) :
  0 <= n < 128 ->
  loadSampleForMidiNote fs n file p
  = match createReaderFor fs file with
    | Some reader =>
        let p1 := clearMidiNoteSample n p in
        (true,
         mkPlugin (addSound (mkSound (-1) (Some (nextAddr (heap p1)))
                                     (rd_sampleRate reader) n)
                            (synth p1))
                  (buttons p1) (noteMapping p1)
                  (<[Z.to_nat n := mkButtonSample (Some (nextAddr (heap p1))) file
                                     (rd_sampleRate reader) true n]>
                     (midiNoteSamples p1))
                  (snd (heap_new (rd_buffer reader) (heap p1)))
                  (midiCollector p1))
    | None => (false, clearMidiNoteSample n p)
    end.
Proof.
  intros Hn. unfold loadSampleForMidiNote.
  destruct ((n <? 0) || (128 <=? n)) eqn:Hg; [lia|].
  destruct (createReaderFor fs file); reflexivity.
Qed.

Lemma loadSample_psizes (fs : FileSys F) (i : Z) (file : string) (p : SamplerPlugin F) :
  psizes p -> psizes (snd (loadSample fs i file p)).
Proof.
  intros Hp.
  destruct (decide (0 <= i < 16)) as [Hi|Hi];
    [|rewrite loadSample_out by exact Hi; exact Hp].
  rewrite (loadSample_fields fs i file p Hi).
  destruct (clearSample_psizes i p Hp) as (Hb & Hm & Hs & Hv).
  destruct (createReaderFor fs file); simpl; [|repeat split; assumption].
  unfold psizes. simpl. rewrite length_insert. repeat split; assumption.
Qed.

Lemma loadSampleForMidiNote_inv (fs : FileSys F) (n : Z) (file : string)
    (p : SamplerPlugin F) :
  psizes p -> store_inv p -> store_inv (snd (loadSampleForMidiNote fs n file p)).
Proof.
  intros Hp Hinv.
  destruct (decide (0 <= n < 128)) as [Hn|Hn];
    [|rewrite loadSampleForMidiNote_out by exact Hn; exact Hinv].
  rewrite (loadSampleForMidiNote_fields fs n file p Hn).
  pose proof (clearMidiNoteSample_inv n p Hp Hinv) as Hinv1.
  destruct (clearMidiNoteSample_psizes n p Hp) as (Hb1 & Hm1 & Hs1 & Hv1).
  destruct (createReaderFor fs file) as [reader|]; simpl; [|exact Hinv1].
  set (p1 := clearMidiNoteSample n p) in *.
  destruct (clearMidiNoteSample_in n p Hn) as (Hs' & _).
  destruct (slot_of_note_insert p p1 n ButtonSample_new Hn (proj1 (proj2 (proj2 Hp))) Hs'
              ltac:(apply clearMidiNoteSample_in; exact Hn)) as (Hempty & _).
  match goal with |- store_inv ?q => set (p' := q) end.
  destruct (slot_of_note_insert p1 p' n
              (mkButtonSample (Some (nextAddr (heap p1))) file (rd_sampleRate reader)
                              true n) Hn Hs1 eq_refl eq_refl) as (Hslot & Hsame).
  apply (store_inv_load p1 p' (NoteOwner n) (rd_buffer reader)
           (mkSound (-1) (Some (nextAddr (heap p1))) (rd_sampleRate reader) n)
           Hinv1 Hempty); try reflexivity; try assumption.
  - rewrite Hslot. reflexivity.
  - rewrite Hslot. reflexivity.
  - intros s Hin. apply (clearMidiNoteSample_sounds n p Hn) in Hin. tauto.
  - intros Hne. simpl in Hne. congruence.
Qed.

Lemma loadSample_inv (fs : FileSys F) (i : Z) (file : string) (p : SamplerPlugin F) :
  psizes p -> store_inv p -> store_inv (snd (loadSample fs i file p)).
Proof.
  intros Hp Hinv.
  destruct (decide (0 <= i < 16)) as [Hi|Hi];
    [|rewrite loadSample_out by exact Hi; exact Hinv].
  rewrite (loadSample_fields fs i file p Hi).
  pose proof (clearSample_inv i p Hp Hinv) as Hinv1.
  destruct (clearSample_psizes i p Hp) as (Hb1 & Hm1 & Hs1 & Hv1).
  destruct (createReaderFor fs file) as [reader|]; simpl; [|exact Hinv1].
  set (p1 := clearSample i p) in *.
  destruct (clearSample_in i p Hi) as (Hb' & _ & Hs').
  destruct (slot_of_pad_insert p p1 i ButtonSample_new Hi (proj1 Hp) Hb' Hs')
    as (Hempty & _).
  match goal with |- store_inv ?q => set (p' := q) end.
  destruct (slot_of_pad_insert p1 p' i
              (mkButtonSample (Some (nextAddr (heap p1))) file (rd_sampleRate reader)
                              true (getNoteMapping p1 i)) Hi Hb1 eq_refl eq_refl)
    as (Hslot & Hsame).
  assert (Hown : owner_of_sound
                   (mkSound i (Some (nextAddr (heap p1))) (rd_sampleRate reader)
                            (getNoteMapping p1 i)) = PadOwner i).
  { unfold owner_of_sound. simpl. destruct (i =? -1) eqn:Hm; [lia | reflexivity]. }
  apply (store_inv_load p1 p' (PadOwner i) (rd_buffer reader)
           (mkSound i (Some (nextAddr (heap p1))) (rd_sampleRate reader)
                    (getNoteMapping p1 i))
           Hinv1 Hempty); try reflexivity; try assumption.
  - rewrite Hslot. reflexivity.
  - rewrite Hslot. reflexivity.
  - intros s Hin. apply (clearSample_sounds i p Hi) in Hin. tauto.
Qed.

End StoreSteps.

Section StoreReach.
Context {F : Type} `{FloatOps F}.

Lemma find_index_Some {A} (q : A -> bool) (l : list A) (j : nat) :
  find_index q l = Some j -> exists x, l !! j = Some x /\ q x = true.
Proof.
  revert j. induction l as [|y l IH]; intros j Hf; simpl in Hf; [discriminate|].
  destruct (q y) eqn:Hq.
  - inversion Hf; subst. exists y. split; [reflexivity | exact Hq].
  - destruct (find_index q l) as [k|]; [|discriminate].
    inversion Hf; subst. apply (IH k eq_refl).
Qed.

Lemma find_index_None {A} (q : A -> bool) (l : list A) :
  find_index q l = None -> forall x, x ∈ l -> q x = false.
Proof.
  induction l as [|y l IH]; intros Hf x Hx; simpl in Hf.
  - apply elem_of_nil in Hx. destruct Hx.
  - destruct (q y) eqn:Hq; [discriminate|].
    destruct (find_index q l) as [k|]; [discriminate|].
    apply elem_of_cons in Hx. destruct Hx as [->|Hx]; [exact Hq | apply IH; auto].
Qed.

Lemma find_last_index_Some {A} (q : A -> bool) (l : list A) (i : nat) :
  find_last_index q l = Some i -> exists x, l !! i = Some x /\ q x = true.
Proof.
  unfold find_last_index. intros Hf.
  destruct (find_index q (rev l)) as [j|] eqn:Hj; [|discriminate].
  inversion Hf; subst. destruct (find_index_Some q _ j Hj) as (x & Hx & Hq).
  exists x. split; [|exact Hq].
  rewrite rev_alt in Hx. fold (reverse l) in Hx.
  apply reverse_lookup_Some in Hx. destruct Hx as (Hx & Hlt).
  replace (length l - 1 - j)%nat with (length l - S j)%nat by lia. exact Hx.
Qed.

Lemma find_last_index_None {A} (q : A -> bool) (l : list A) :
  find_last_index q l = None -> forall x, x ∈ l -> q x = false.
Proof.
  unfold find_last_index. intros Hf x Hx.
  destruct (find_index q (rev l)) as [j|] eqn:Hj; [discriminate|].
  apply (find_index_None q (rev l) Hj).
  rewrite rev_alt. fold (reverse l). apply elem_of_reverse. exact Hx.
Qed.

Lemma elem_of_delete_or {A} (l : list A) (k : nat) (x y : A) :
  l !! k = Some y -> x ∈ l -> x = y \/ x ∈ delete k l.
Proof.
  intros Hk Hx. rewrite <- (take_drop_middle l k y Hk) in Hx.
  rewrite delete_take_drop.
  rewrite elem_of_app, elem_of_cons in Hx. rewrite elem_of_app. tauto.
Qed.

Lemma elem_of_delete_in {A} (l : list A) (k : nat) (x : A) :
  x ∈ delete k l -> x ∈ l.
Proof.
  intros Hx. apply (elem_of_sublist (delete k l) l x Hx), sublist_delete.
Qed.

Lemma NoDup_fmap_delete {A B} (f : A -> B) (l : list A) (k : nat) (y : A) :
  NoDup (f <$> l) -> l !! k = Some y ->
  NoDup (f <$> (delete k l ++ [y]))
  /\ forall x, x ∈ delete k l -> f x <> f y.
Proof.
  intros Hnd Hk. rewrite <- (take_drop_middle l k y Hk) in Hnd.
  rewrite delete_take_drop.
  rewrite fmap_app, fmap_cons in Hnd.
  apply NoDup_app in Hnd. destruct Hnd as (Ht & Hdisj & Hd).
  apply NoDup_cons in Hd. destruct Hd as (Hy & Hd).
  assert (Hfresh : forall x, x ∈ take k l ++ drop (S k) l -> f x <> f y).
  { intros x Hx Heq. apply elem_of_app in Hx. destruct Hx as [Hx|Hx].
    - apply (Hdisj (f x)); [apply list_elem_of_fmap_2, Hx|].
      rewrite Heq. apply elem_of_cons. left. reflexivity.
    - apply Hy. rewrite <- Heq. apply list_elem_of_fmap_2, Hx. }
  split; [|exact Hfresh].
  rewrite !fmap_app. simpl. apply NoDup_app. split; [|split].
  - apply NoDup_app. split; [exact Ht|]. split; [|exact Hd].
    intros z Hz1 Hz2. apply (Hdisj z Hz1). apply elem_of_cons. right. exact Hz2.
  - intros z Hz Hz'. apply list_elem_of_singleton in Hz'. subst z.
    rewrite <- fmap_app in Hz. apply list_elem_of_fmap in Hz.
    destruct Hz as (x & Heq & Hx). apply (Hfresh x Hx). symmetry. exact Heq.
  - apply NoDup_singleton.
Qed.

Lemma getNoteMapping_set (p : SamplerPlugin F) (i n j : Z) :
  0 <= i < 16 -> length (noteMapping p) = 16%nat ->
  Array_get 0 (Array_set i n (noteMapping p)) j
  = if decide (j = i) then n else getNoteMapping p j.
Proof.
  intros Hi Hlen. unfold Array_set, getNoteMapping. rewrite Hlen.
  destruct (i <? 0) eqn:H0; [lia|].
  change (Z.of_nat 16) with 16.
  destruct (i <? 16) eqn:H1; [|lia].
  destruct (decide (j = i)) as [->|Hne].
  - apply Array_get_insert_eq. rewrite Hlen. apply in_range_16, Hi.
  - apply Array_get_insert_ne; [lia | congruence].
Qed.

Lemma store_inv_same (p p' : SamplerPlugin F) :
  buttons p' = buttons p ->
  midiNoteSamples p' = midiNoteSamples p ->
  noteMapping p' = noteMapping p ->
  heap p' = heap p ->
  sounds (synth p') = sounds (synth p) ->
  store_inv p -> store_inv p'.
Proof.
  intros Hb Hs Hm Hh Hsn [Hslots Hdist Hsnd Hload Huniq Hroot Hown].
  assert (Hslot : forall o, slot_of p' o = slot_of p o).
  { intros [n|i]; simpl; [unfold getMidiNoteSample | unfold getButton];
      congruence. }
  assert (Hmap : forall i, getNoteMapping p' i = getNoteMapping p i).
  { intros i. unfold getNoteMapping. congruence. }
  constructor.
  - intros o Hv. rewrite Hslot, Hh. apply Hslots, Hv.
  - intros o1 o2 a Hv1 Hv2. rewrite !Hslot. apply Hdist; assumption.
  - intros s. rewrite Hsn, Hslot. apply Hsnd.
  - intros o Hv. rewrite Hslot, Hsn. apply Hload, Hv.
  - rewrite Hsn. exact Huniq.
  - intros s. rewrite Hsn, Hmap, Hslot. apply Hroot.
  - intros a. rewrite Hh. intros Hl. destruct (Hown a Hl) as (o & Hv & Hbuf).
    exists o. rewrite Hslot. split; assumption.
Qed.

Lemma setNoteMapping_psizes (i n : Z) (p : SamplerPlugin F) :
  psizes p -> psizes (setNoteMapping i n p).
Proof.
  intros (Hb & Hm & Hs & Hv).
  destruct (decide (0 <= i < 16)) as [Hi|Hi];
    [|rewrite setNoteMapping_out by exact Hi; repeat split; assumption].
  unfold psizes. rewrite setNoteMapping_voices.
  unfold setNoteMapping. destruct ((i <? 0) || (16 <=? i)) eqn:Hg; [lia|]. simpl.
  repeat split; try assumption.
  unfold Array_set. rewrite Hm. change (Z.of_nat 16) with 16.
  destruct (i <? 0) eqn:H0; [lia|]. destruct (i <? 16) eqn:H1; [|lia].
  rewrite length_insert. exact Hm.
Qed.

Lemma setNoteMapping_inv (i n : Z) (p : SamplerPlugin F) :
  psizes p -> store_inv p -> store_inv (setNoteMapping i n p).
Proof.
  intros (Hb & Hm & Hs & Hv) Hinv.
  destruct (decide (0 <= i < 16)) as [Hi|Hi];
    [|rewrite setNoteMapping_out by exact Hi; exact Hinv].
  destruct Hinv as [Hslots Hdist Hsnd Hload Huniq Hroot Howned].
  unfold setNoteMapping. destruct ((i <? 0) || (16 <=? i)) eqn:Hg; [lia|].
  set (q := fun s : ButtonSampleSound F => snd_buttonIndex s =? i).
  destruct (find_last_index q (sounds (synth p))) as [k|] eqn:Hfind.
  - destruct (find_last_index_Some q _ k Hfind) as (s0 & Hk & Hq).
    rewrite Hk. subst q. simpl in Hq. apply Z.eqb_eq in Hq.
    set (s1 := mkSound i (snd_sampleBuffer s0) (snd_sourceSampleRate s0) n).
    assert (Hown : owner_of_sound s1 = owner_of_sound s0).
    { unfold owner_of_sound. simpl. rewrite Hq.
      destruct (i =? -1) eqn:Hm1; [lia | reflexivity]. }
    assert (Hown0 : owner_of_sound s0 = PadOwner i).
    { unfold owner_of_sound. rewrite Hq. destruct (i =? -1) eqn:Hm1; [lia|].
      reflexivity. }
    assert (Hs0 : s0 ∈ sounds (synth p)) by (eapply list_elem_of_lookup_2; exact Hk).
    destruct (NoDup_fmap_delete owner_of_sound _ k s0 Huniq Hk) as (Hnd & Hfresh).
    constructor; simpl.
    + exact Hslots.
    + exact Hdist.
    + intros s Hin. apply elem_of_app in Hin. destruct Hin as [Hin|Hin].
      * apply Hsnd, (elem_of_delete_in _ k), Hin.
      * apply list_elem_of_singleton in Hin. subst s. rewrite Hown.
        destruct (Hsnd s0 Hs0) as (Hv0 & _ & Hb0).
        split; [exact Hv0|]. split; [simpl; lia | exact Hb0].
    + intros o Hvo Hl. destruct (Hload o Hvo Hl) as (s & Hin & Ho).
      destruct (elem_of_delete_or _ k s s0 Hk Hin) as [->|Hd].
      * exists s1. split; [|congruence].
        apply elem_of_app. right. apply list_elem_of_singleton. reflexivity.
      * exists s. split; [|exact Ho]. apply elem_of_app. left. exact Hd.
    + rewrite fmap_app. simpl. rewrite Hown.
      rewrite fmap_app in Hnd. exact Hnd.
    + intros s Hin Hne Hl. unfold getNoteMapping. simpl.
      rewrite (getNoteMapping_set p i n _ Hi Hm).
      apply elem_of_app in Hin. destruct Hin as [Hin|Hin].
      * destruct (decide (snd_buttonIndex s = i)) as [Heq|Hneq].
        -- exfalso. apply (Hfresh s Hin). rewrite Hown0.
           unfold owner_of_sound. rewrite Heq.
           destruct (i =? -1) eqn:Hm1; [lia | reflexivity].
        -- apply Hroot; [apply (elem_of_delete_in _ k), Hin | exact Hne | exact Hl].
      * apply list_elem_of_singleton in Hin. subst s. simpl.
        destruct (decide (i = i)); [reflexivity | congruence].
    + exact Howned.
  - constructor; simpl.
    + exact Hslots.
    + exact Hdist.
    + exact Hsnd.
    + exact Hload.
    + exact Huniq.
    + intros s Hin Hne Hl. unfold getNoteMapping. simpl.
      rewrite (getNoteMapping_set p i n _ Hi Hm).
      destruct (decide (snd_buttonIndex s = i)) as [Heq|Hneq].
      * pose proof (find_last_index_None q _ Hfind s Hin) as Hq.
        subst q. simpl in Hq. apply Z.eqb_neq in Hq. contradiction.
      * apply Hroot; assumption.
    + exact Howned.
Qed.

End StoreReach.

Section StoreWorld.
Context {F : Type} `{FloatOps F}.
Variable fs : FileSys F.

Lemma noteOn_sound_length (steal : StealPolicy F) (o : bool) (ch n : Z) (vel : F)
    (vs : list (MidiSamplerVoice F)) (s : ButtonSampleSound F) :
  length (noteOn_sound steal o ch n vel vs s) = length vs.
Proof.
  unfold noteOn_sound. destruct (_ && _); [|reflexivity].
  destruct (findFreeVoice _ _ _ _ _) as [i|]; [|apply length_map].
  destruct (_ !! i); [rewrite length_insert|]; apply length_map.
Qed.

Lemma handleMidiEvent_shape (steal : StealPolicy F) (o : bool) (m : MidiMessage)
    (s : Synthesiser F) :
  sounds (handleMidiEvent steal o m s) = sounds s
  /\ length (voices (handleMidiEvent steal o m s)) = length (voices s).
Proof.
  unfold handleMidiEvent, noteOn, noteOff, allNotesOff.
  destruct (isNoteOn m); simpl.
  { split; [reflexivity|].
    apply (foldl_preserves (fun vs => length vs = length (voices s)));
      [|reflexivity].
    intros vs x Hvs. rewrite noteOn_sound_length. exact Hvs. }
  destruct (isNoteOff m); simpl; [split; [reflexivity | apply length_map]|].
  destruct (isAllNotesOff m); simpl; [split; [reflexivity | apply length_map]|].
  split; reflexivity.
Qed.

Lemma renderVoices_length (h : Heap F) (start n : Z) :
  forall (vs vs' : list (MidiSamplerVoice F)) (out out' : AudioBuffer F),
    renderVoices h start n vs out = Some (vs', out') -> length vs' = length vs.
Proof.
  induction vs as [|v vs IH]; intros vs' out out' Hrun; simpl in Hrun.
  - inversion Hrun; reflexivity.
  - destruct (renderNextBlock h start n v out) as [[v1 out1]|]; [|discriminate].
    destruct (renderVoices h start n vs out1) as [[rest out2]|] eqn:Hrest;
      [|discriminate].
    inversion Hrun; subst. simpl. f_equal. eapply IH, Hrest.
Qed.

Lemma processBlock_good (steal : StealPolicy F) (o : bool) (buffer : AudioBuffer F)
    (frames : Z) (ms : list MidiMessage) (p p' : SamplerPlugin F) (out : AudioBuffer F) :
  processBlock steal o buffer frames ms p = Some (p', out) ->
  pgood p -> pgood p'.
Proof.
  unfold processBlock. intros Hrun ((Hb & Hm & Hs & Hv) & Hinv).
  set (s1 := foldl (fun s m => handleMidiEvent steal o m s) (synth p)
                   (ms ++ midiCollector p)) in *.
  assert (Hs1 : sounds s1 = sounds (synth p)
                /\ length (voices s1) = length (voices (synth p))).
  { subst s1.
    apply (foldl_preserves
             (fun s => sounds s = sounds (synth p)
                       /\ length (voices s) = length (voices (synth p))));
      [|split; reflexivity].
    intros s m (Hsn & Hlen).
    destruct (handleMidiEvent_shape steal o m s) as (Hsn' & Hlen').
    split; congruence. }
  destruct Hs1 as (Hsn & Hlen).
  destruct (renderVoices _ _ _ _ _) as [[vs out1]|] eqn:Hr; [|discriminate].
  inversion Hrun; subst. split.
  - unfold psizes. simpl. rewrite (renderVoices_length _ _ _ _ _ _ _ Hr), Hlen.
    repeat split; assumption.
  - apply (store_inv_same p); try reflexivity; [exact Hsn | exact Hinv].
Qed.

Lemma addMessageToQueue_good (m : MidiMessage) (p : SamplerPlugin F) :
  pgood p -> pgood (addMessageToQueue m p).
Proof.
  intros (Hp & Hinv). split; [exact Hp|].
  apply (store_inv_same p); try reflexivity. exact Hinv.
Qed.

Lemma setNoteMapping_good (i n : Z) (p : SamplerPlugin F) :
  pgood p -> pgood (setNoteMapping i n p).
Proof.
  intros (Hp & Hinv).
  split; [apply setNoteMapping_psizes, Hp | apply setNoteMapping_inv; assumption].
Qed.

Lemma clearSample_good (i : Z) (p : SamplerPlugin F) :
  pgood p -> pgood (clearSample i p).
Proof.
  intros (Hp & Hinv).
  split; [apply clearSample_psizes, Hp | apply clearSample_inv; assumption].
Qed.

Lemma clearMidiNoteSample_good (n : Z) (p : SamplerPlugin F) :
  pgood p -> pgood (clearMidiNoteSample n p).
Proof.
  intros (Hp & Hinv).
  split; [apply clearMidiNoteSample_psizes, Hp
         | apply clearMidiNoteSample_inv; assumption].
Qed.

Lemma loadSample_good (i : Z) (file : string) (p : SamplerPlugin F) :
  pgood p -> pgood (snd (loadSample fs i file p)).
Proof.
  intros (Hp & Hinv).
  split; [apply loadSample_psizes, Hp | apply loadSample_inv; assumption].
Qed.

Lemma loadSampleForMidiNote_good (n : Z) (file : string) (p : SamplerPlugin F) :
  pgood p -> pgood (snd (loadSampleForMidiNote fs n file p)).
Proof.
  intros (Hp & Hinv).
  split; [apply loadSampleForMidiNote_psizes, Hp
         | apply loadSampleForMidiNote_inv; assumption].
Qed.

Lemma import_button_good (p : SamplerPlugin F) (item : JsonItem ButtonObj) :
  pgood p -> pgood (import_button p item).
Proof.
  intros Hp. unfold import_button. destruct item as [|o]; [exact Hp|].
  destruct (_ && _); [apply setNoteMapping_good, Hp | exact Hp].
Qed.

Lemma import_note_good (st : SamplerPlugin F * Z * Z) (item : JsonItem NoteObj) :
  pgood (fst (fst st)) -> pgood (fst (fst (import_note fs st item))).
Proof.
  destruct st as [[p l] f]. intros Hp. unfold import_note.
  destruct item as [|o]; [exact Hp|].
  destruct (_ && _); [|exact Hp].
  destruct (file_exists fs (no_filePath o)); [|exact Hp].
  pose proof (loadSampleForMidiNote_good (no_midiNote o) (no_filePath o) p Hp) as Hok.
  destruct (loadSampleForMidiNote fs (no_midiNote o) (no_filePath o) p) as [[|] p1];
    exact Hok.
Qed.

Lemma loadAllSamplesFromJson_good (json : JsonValue) (w : World F) :
  pgood (plugin w) -> pgood (plugin (snd (loadAllSamplesFromJson fs json w))).
Proof.
  intros Hp. unfold loadAllSamplesFromJson.
  destruct json as [|d]; [exact Hp|].
  destruct (doc_oneShotMode d) as [b|].
  all: set (p1 := match doc_buttons d with
                  | Some items => foldl import_button (plugin w) items
                  | None => plugin w
                  end).
  all: assert (Hp1 : pgood p1)
         by (subst p1; destruct (doc_buttons d) as [items|]; [|exact Hp];
             apply (foldl_preserves pgood); [|exact Hp];
             intros a x Ha; apply import_button_good, Ha).
  all: set (st := match doc_midiNotes d with
                  | Some items => foldl (import_note fs) (p1, 0, 0) items
                  | None => (p1, 0, 0)
                  end).
  all: assert (Hst : pgood (fst (fst st)))
         by (subst st; destruct (doc_midiNotes d) as [items|]; [|exact Hp1];
             apply (foldl_preserves (fun st => pgood (fst (fst st)))); [|exact Hp1];
             intros a x Ha; apply import_note_good, Ha).
  all: destruct st as [[p2 l] f]; exact Hst.
Qed.

Lemma handleIncomingMidiMessage_good (msg : MidiMessage) (w : World F) :
  pgood (plugin w) -> pgood (plugin (handleIncomingMidiMessage msg w)).
Proof.
  intros Hp. unfold handleIncomingMidiMessage, handleMidiMessage.
  destruct (_ && _ && isNoteOn msg); simpl.
  - apply setNoteMapping_good, addMessageToQueue_good, Hp.
  - apply addMessageToQueue_good, Hp.
Qed.

Lemma mouseDown_good (i : Z) (r : bool) (w : World F) :
  pgood (plugin w) -> pgood (plugin (mouseDown i r w)).
Proof.
  intros Hp. unfold mouseDown. destruct r; [apply clearSample_good, Hp|].
  destruct (isMidiLearning (editor w)); [exact Hp|].
  destruct (isSampleLearning (editor w)).
  - rewrite loadSampleForButton_plugin. exact Hp.
  - simpl. apply addMessageToQueue_good, Hp.
Qed.

Lemma fileChooserCallback_good (file : string) (w : World F) :
  pgood (plugin w) -> pgood (plugin (fileChooserCallback fs file w)).
Proof.
  intros Hp. unfold fileChooserCallback.
  destruct (fileChooserButton (editor w)) as [b|]; [|exact Hp].
  destruct (file_exists fs file); [|exact Hp].
  pose proof (loadSampleForMidiNote_good (getNoteMapping (plugin w) b) file (plugin w) Hp)
    as Hok.
  destruct (loadSampleForMidiNote fs (getNoteMapping (plugin w) b) file (plugin w))
    as [[|] p1]; simpl in *; [apply addMessageToQueue_good, Hok | exact Hok].
Qed.

Lemma timerCallback_good (elapsed : bool) (w : World F) :
  pgood (plugin w) -> pgood (plugin (timerCallback elapsed w)).
Proof.
  intros Hp. unfold timerCallback. case_match; [|exact Hp].
  simpl. apply addMessageToQueue_good, Hp.
Qed.

Lemma ButtonSample_clear_null (h : Heap F) (x : ButtonSample F) :
  bs_sampleBuffer x = None -> ButtonSample_clear h x = (h, ButtonSample_new).
Proof. intros Hx. unfold ButtonSample_clear. rewrite Hx. reflexivity. Qed.

Lemma isNotEmpty_false (path : string) : isNotEmpty path = false -> path = EmptyString.
Proof. destruct path; [reflexivity | discriminate]. Qed.

Lemma restore_button_unfold (b : XmlButton) (p : SamplerPlugin F) :
  0 <= xb_index b < 16 ->
  length (buttons p) = 16%nat ->
  restore_button fs b p
  = if isNotEmpty (xb_filePath b)
    then snd (loadSample fs (xb_index b) (xb_filePath b) (restore_emptied b p))
    else restore_emptied b p.
Proof.
  intros Hi Hb. unfold restore_button.
  destruct ((0 <=? xb_index b) && (xb_index b <? 16)) eqn:Hg; [|lia].
  change (ButtonSample_clear (heap p) (getButton p (xb_index b)))
    with (fst (ButtonSample_clear (heap p) (getButton p (xb_index b))),
          @ButtonSample_new F _).
  cbv zeta beta iota.
  set (P1 := mkPlugin (synth p)
               (<[Z.to_nat (xb_index b) := mkButtonSample None (xb_filePath b) fzero
                                             false 60]> (buttons p))
               (Array_set (xb_index b) (xb_noteMapping b) (noteMapping p))
               (midiNoteSamples p)
               (fst (ButtonSample_clear (heap p) (getButton p (xb_index b))))
               (midiCollector p)).
  destruct (isNotEmpty (xb_filePath b)) eqn:Hne.
  - assert (Hc : clearSample (xb_index b) P1
                 = clearSample (xb_index b) (restore_emptied b p)).
    { unfold clearSample. rewrite Hg. subst P1. unfold restore_emptied, getButton.
      cbn [buttons heap].
      rewrite !Array_get_insert_eq by (rewrite Hb; apply in_range_16, Hi).
      rewrite (ButtonSample_clear_null _
                 (mkButtonSample None (xb_filePath b) fzero false 60) eq_refl),
              (ButtonSample_clear_null _ ButtonSample_new eq_refl).
      cbn [synth noteMapping midiNoteSamples midiCollector].
      rewrite !list_insert_insert_eq. reflexivity. }
    rewrite !(loadSample_fields fs (xb_index b) (xb_filePath b) _ Hi), Hc.
    reflexivity.
  - subst P1. unfold restore_emptied.
    rewrite (isNotEmpty_false _ Hne). reflexivity.
Qed.

Lemma restore_emptied_good (b : XmlButton) (p : SamplerPlugin F) :
  0 <= xb_index b < 16 -> pgood p -> pgood (restore_emptied b p).
Proof.
  intros Hi ((Hb & Hm & Hs & Hv) & Hinv). split.
  - unfold psizes, restore_emptied. cbn [buttons noteMapping midiNoteSamples synth].
    rewrite length_insert.
    rewrite Array_set_in, length_insert by (rewrite Hm; apply in_range_16, Hi).
    repeat split; assumption.
  - destruct (slot_of_pad_insert p (restore_emptied b p) (xb_index b) ButtonSample_new
                Hi Hb eq_refl eq_refl) as (Hnew & Hsame).
    apply (store_inv_clear p _ (PadOwner (xb_index b)) Hinv Hnew Hsame).
    + unfold restore_emptied, ButtonSample_clear. simpl.
      destruct (bs_sampleBuffer (getButton p (xb_index b))); reflexivity.
    + reflexivity.
    + intros s Hin _. exact Hin.
    + intros s _ Hidx. unfold owner_of_sound. rewrite Hidx. simpl. discriminate.
    + intros j Hj. unfold getNoteMapping at 1. cbn [restore_emptied noteMapping].
      rewrite (getNoteMapping_set p _ _ j Hi Hm).
      destruct (decide (j = xb_index b)) as [->|Hne]; [congruence | reflexivity].
    + exact Hi.
Qed.

Lemma restore_button_good (b : XmlButton) (p : SamplerPlugin F) :
  pgood p -> pgood (restore_button fs b p).
Proof.
  intros Hp. destruct (decide (0 <= xb_index b < 16)) as [Hi|Hi].
  - rewrite (restore_button_unfold b p Hi (proj1 (proj1 Hp))).
    pose proof (restore_emptied_good b p Hi Hp) as Hq.
    destruct (isNotEmpty _); [apply loadSample_good, Hq | exact Hq].
  - unfold restore_button.
    destruct ((0 <=? xb_index b) && (xb_index b <? 16)) eqn:Hg; [lia | exact Hp].
Qed.

Lemma setStateInformation_good (xml : option XmlElement) (p : SamplerPlugin F) :
  pgood p -> pgood (setStateInformation fs xml p).
Proof.
  intros Hp. unfold setStateInformation. destruct xml as [x|]; [|exact Hp].
  destruct (String.eqb _ _); [|exact Hp].
  apply (iter_preserves pgood); [|exact Hp].
  intros q Hq. destruct (getChildByName_Button _); [|exact Hq].
  apply restore_button_good, Hq.
Qed.

Lemma step_good (steal : StealPolicy F) (ev : Event F) (w w' : World F) :
  step fs steal ev w = Some w' -> pgood (plugin w) -> pgood (plugin w').
Proof.
  destruct ev as [msg|buffer frames hostMidi|b|i r|i|file|elapsed|json
                  |i file|i|i n|n file|n|xml]; simpl; intros Hstep Hp.
  2: { destruct (processBlock _ _ _ _ _ _) as [[p out]|] eqn:Hrun; [|discriminate].
       inversion Hstep; subst. simpl. eapply processBlock_good; eassumption. }
  all: inversion Hstep; subst; clear Hstep; simpl.
  - apply handleIncomingMidiMessage_good, Hp.
  - rewrite buttonClicked_plugin. exact Hp.
  - apply mouseDown_good, Hp.
  - unfold mouseDoubleClick. rewrite loadSampleForButton_plugin. exact Hp.
  - apply fileChooserCallback_good, Hp.
  - apply timerCallback_good, Hp.
  - apply loadAllSamplesFromJson_good, Hp.
  - apply loadSample_good, Hp.
  - apply clearSample_good, Hp.
  - apply setNoteMapping_good, Hp.
  - apply loadSampleForMidiNote_good, Hp.
  - apply clearMidiNoteSample_good, Hp.
  - apply setStateInformation_good, Hp.
Qed.

Lemma Array_get_replicate {A} (d : A) (k : nat) (i : Z) :
  Array_get d (replicate k d) i = d.
Proof.
  unfold Array_get. destruct (in_range i (length (replicate k d))); [|reflexivity].
  destruct (replicate k d !! Z.to_nat i) as [x|] eqn:Hx; [|reflexivity].
  apply lookup_replicate in Hx. destruct Hx as (-> & _). reflexivity.
Qed.

Lemma World_new_good (defaultRate : F) : pgood (plugin (World_new defaultRate)).
Proof.
  split; [repeat split|].
  assert (Hslot : forall o, slot_of (plugin (World_new defaultRate)) o
                            = ButtonSample_new).
  { intros [n|i]; simpl; [unfold getMidiNoteSample | unfold getButton]; simpl;
      [apply (Array_get_replicate _ 128) | apply (Array_get_replicate _ 16)]. }
  constructor.
  - intros o _. left. apply Hslot.
  - intros o1 o2 a _ _ Hb. rewrite Hslot in Hb. discriminate.
  - intros s Hs. simpl in Hs. apply elem_of_nil in Hs. destruct Hs.
  - intros o _ Hl. rewrite Hslot in Hl. discriminate.
  - simpl. apply NoDup_nil_2.
  - intros s Hs. simpl in Hs. apply elem_of_nil in Hs. destruct Hs.
  - intros a [x Hx]. unfold heap_read in Hx. simpl in Hx.
    rewrite lookup_empty in Hx. discriminate.
Qed.

Lemma reachable_good (steal : StealPolicy F) (defaultRate : F) (w : World F) :
  reachable fs steal defaultRate w -> pgood (plugin w).
Proof.
  induction 1 as [|w ev w' Hreach IH Hstep].
  - apply World_new_good.
  - exact (step_good steal ev w w' Hstep IH).
Qed.

End StoreWorld.

Section StoreTheorems.
Context {F : Type} `{FloatOps F}.

Lemma clear_live (h : Heap F) (x : ButtonSample F) (a : nat) :
  live (fst (ButtonSample_clear h x)) a <-> live h a /\ bs_sampleBuffer x <> Some a.
Proof.
  unfold ButtonSample_clear. simpl.
  destruct (bs_sampleBuffer x) as [b|].
  - rewrite live_delete. split.
    + intros (Hne & Hl). split; [exact Hl | congruence].
    + intros (Hl & Hne). split; [congruence | exact Hl].
  - split; [intros Hl; split; [exact Hl | discriminate] | tauto].
Qed.

Lemma destroy_live (l : list (ButtonSample F)) (a : nat) :
  forall h : Heap F,
    live (foldl (fun h s => fst (ButtonSample_clear h s)) h l) a
    <-> live h a /\ forall x, x ∈ l -> bs_sampleBuffer x <> Some a.
Proof.
  induction l as [|y l IH]; intros h; cbn [foldl].
  - split; [intros Hl; split; [exact Hl|] | tauto].
    intros x Hx. apply elem_of_nil in Hx. destruct Hx.
  - rewrite IH, clear_live. split.
    + intros ((Hl & Hy) & Hrest). split; [exact Hl|].
      intros x Hx. apply elem_of_cons in Hx. destruct Hx as [->|Hx]; auto.
    + intros (Hl & Hall). split; [split; [exact Hl|]|].
      * apply Hall. apply elem_of_cons. left. reflexivity.
      * intros x Hx. apply Hall. apply elem_of_cons. right. exact Hx.
Qed.

Lemma pad_elem (p : SamplerPlugin F) (x : ButtonSample F) :
  length (buttons p) = 16%nat ->
  x ∈ buttons p <-> exists i, 0 <= i < 16 /\ getButton p i = x.
Proof.
  intros Hlen. split.
  - intros Hx. apply list_elem_of_lookup in Hx. destruct Hx as (k & Hk).
    pose proof (lookup_lt_Some _ _ _ Hk) as Hlt. rewrite Hlen in Hlt.
    exists (Z.of_nat k). split; [lia|]. unfold getButton.
    rewrite (Array_get_lookup ButtonSample_new (buttons p) k) in Hk
      by (rewrite Hlen; exact Hlt).
    congruence.
  - intros (i & Hi & <-). unfold getButton.
    pose proof (Array_get_lookup ButtonSample_new (buttons p) (Z.to_nat i)) as Hk.
    rewrite Z2Nat.id in Hk by lia.
    eapply list_elem_of_lookup_2. apply Hk. rewrite Hlen. lia.
Qed.

Lemma hasSample_loaded (p : SamplerPlugin F) (n : Z) :
  length (midiNoteSamples p) = 128%nat ->
  hasSampleForMidiNote p n = true
  <-> 0 <= n < 128 /\ bs_isLoaded (slot_of p (NoteOwner n)) = true.
Proof.
  intros Hlen. unfold hasSampleForMidiNote, in_range. rewrite Hlen.
  change (Z.of_nat 128) with 128. simpl. split.
  - intros Hh. apply andb_prop in Hh. destruct Hh as (Hr & Hl).
    apply andb_prop in Hr. destruct Hr as (Hge & Hlt).
    apply Z.leb_le in Hge. apply Z.ltb_lt in Hlt. split; [lia | exact Hl].
  - intros (Hn & Hl). rewrite Hl.
    destruct (0 <=? n) eqn:Hge; [|lia]. destruct (n <? 128) eqn:Hlt; [|lia].
    reflexivity.
Qed.

End StoreTheorems.



(** X8.  In every reachable state a sample slot (one per MIDI note, one
    per pad) is either in its initial empty state or loaded with a live
    buffer, and no buffer belongs to two slots, so no buffer is deleted
    twice. *)
Theorem reachable_slots_own_their_buffers {F : Type} `{FloatOps F}
    (fs : FileSys F) (steal : StealPolicy F) (defaultRate : F) (w : World F) :
  reachable fs steal defaultRate w ->
  (forall o, owner_valid o ->
     slot_of (plugin w) o = ButtonSample_new
     \/ (bs_isLoaded (slot_of (plugin w) o) = true
         /\ exists a, bs_sampleBuffer (slot_of (plugin w) o) = Some a
                      /\ live (heap (plugin w)) a))
  /\ (forall o1 o2 a, owner_valid o1 -> owner_valid o2 ->
        bs_sampleBuffer (slot_of (plugin w) o1) = Some a ->
        bs_sampleBuffer (slot_of (plugin w) o2) = Some a -> o1 = o2).
Proof.
  intros Hreach.
  destruct (reachable_good fs steal defaultRate w Hreach) as (_ & Hinv).
  split; [|exact (inv_distinct _ Hinv)].
  intros o Hv. destruct (inv_slots _ Hinv o Hv) as [Hn | (Hl & a & Ha & Hlv & _)];
    [left; exact Hn | right; eauto].
Qed.

Lemma reachable_slots_own_their_buffers_witness :
  bs_isLoaded (slot_of (plugin demo_playing) (NoteOwner 60)) = true
  /\ slot_of (plugin demo_playing) (PadOwner 3) = ButtonSample_new.
Proof.
  pose proof (@reachable_slots_own_their_buffers Q Q_FloatOps demo_fs no_steal demo_rate
                demo_playing demo_playing_reachable) as (Hslots & _).
  split.
  - destruct (Hslots (NoteOwner 60)) as [Hn | (Hl & _)];
      [simpl; lia | vm_compute in Hn; discriminate | exact Hl].
  - destruct (Hslots (PadOwner 3)) as [Hn | (Hl & _)];
      [simpl; lia | exact Hn | vm_compute in Hl; discriminate].
Defined.

(** X9.  In every reachable state the live buffers are exactly the ones a
    slot points at: loading and clearing leak nothing while the plugin
    runs. *)
Theorem reachable_heap_has_no_orphans {F : Type} `{FloatOps F}
    (fs : FileSys F) (steal : StealPolicy F) (defaultRate : F) (w : World F) (a : nat) :
  reachable fs steal defaultRate w ->
  live (heap (plugin w)) a
  <-> exists o, owner_valid o /\ bs_sampleBuffer (slot_of (plugin w) o) = Some a.
Proof.
  intros Hreach.
  destruct (reachable_good fs steal defaultRate w Hreach) as (_ & Hinv).
  split; [apply (inv_owned _ Hinv)|].
  intros (o & Hv & Hb).
  destruct (inv_slots _ Hinv o Hv) as [Hn | (_ & a' & Ha & Hl & _)].
  - rewrite Hn in Hb. discriminate.
  - congruence.
Qed.

Lemma reachable_heap_has_no_orphans_witness :
  live (heap (plugin demo_playing)) 0
  <-> exists o, owner_valid o
                /\ bs_sampleBuffer (slot_of (plugin demo_playing) o) = Some 0%nat.
Proof.
  exact (@reachable_heap_has_no_orphans Q Q_FloatOps demo_fs no_steal demo_rate
           demo_playing 0%nat demo_playing_reachable).
Defined.

(** X10.  In every reachable state a MIDI note has a sample exactly when
    the synthesiser holds a note-indexed sound (pad index -1) for that
    note, and no slot has more than one sound. *)
Theorem reachable_note_sample_iff_sound {F : Type} `{FloatOps F}
    (fs : FileSys F) (steal : StealPolicy F) (defaultRate : F) (w : World F) (n : Z) :
  reachable fs steal defaultRate w ->
  (hasSampleForMidiNote (plugin w) n = true
   <-> exists s, s ∈ sounds (synth (plugin w))
                 /\ snd_buttonIndex s = -1 /\ snd_rootNote s = n)
  /\ NoDup (owner_of_sound <$> sounds (synth (plugin w))).
Proof.
  intros Hreach.
  destruct (reachable_good fs steal defaultRate w Hreach)
    as ((_ & _ & Hlen & _) & Hinv).
  split; [|exact (inv_unique _ Hinv)].
  rewrite (hasSample_loaded _ n Hlen). split.
  - intros (Hn & Hl).
    destruct (inv_loaded _ Hinv (NoteOwner n) Hn Hl) as (s & Hs & Ho).
    exists s. split; [exact Hs|]. unfold owner_of_sound in Ho.
    destruct (snd_buttonIndex s =? -1) eqn:Hi; [|discriminate].
    apply Z.eqb_eq in Hi. inversion Ho. split; [exact Hi | reflexivity].
  - intros (s & Hs & Hi & Hr).
    destruct (inv_sounds _ Hinv s Hs) as (Hv & Hl & _). specialize (Hl Hi).
    unfold owner_of_sound in Hv, Hl. rewrite Hi, Hr in Hv, Hl. simpl in Hv, Hl.
    split; [exact Hv | exact Hl].
Qed.

Lemma reachable_note_sample_iff_sound_witness :
  exists s, s ∈ sounds (synth (plugin demo_playing))
            /\ snd_buttonIndex s = -1 /\ snd_rootNote s = 60.
Proof.
  apply (proj1 (@reachable_note_sample_iff_sound Q Q_FloatOps demo_fs no_steal demo_rate
                  demo_playing 60 demo_playing_reachable)).
  reflexivity.
Defined.

(** X11.  In every reachable state the sound of a pad carries a pad index
    from 0 to 15, and while the pad's slot is loaded it answers exactly the
    note the pad is mapped to: a rebinding through setNoteMapping replaces
    the sound along with the mapping.  (The restore of a saved state
    rebinds a pad without touching its sound, but it empties the slot.) *)
Theorem reachable_pad_sound_follows_mapping {F : Type} `{FloatOps F}
    (fs : FileSys F) (steal : StealPolicy F) (defaultRate : F) (w : World F)
    (s : ButtonSampleSound F) :
  reachable fs steal defaultRate w ->
  s ∈ sounds (synth (plugin w)) ->
  snd_buttonIndex s <> -1 ->
  0 <= snd_buttonIndex s < 16
  /\ (bs_isLoaded (getButton (plugin w) (snd_buttonIndex s)) = true ->
      forall note, appliesToNote s note = true
                   <-> note = getNoteMapping (plugin w) (snd_buttonIndex s)).
Proof.
  intros Hreach Hs Hi.
  destruct (reachable_good fs steal defaultRate w Hreach) as (_ & Hinv).
  destruct (inv_sounds _ Hinv s Hs) as (Hv & _).
  pose proof (inv_pad_root _ Hinv s Hs Hi) as Hroot.
  unfold owner_of_sound in Hv, Hroot.
  destruct (snd_buttonIndex s =? -1) eqn:Hm; [apply Z.eqb_eq in Hm; contradiction|].
  split; [exact Hv|]. intros Hl note. unfold appliesToNote.
  rewrite <- (Hroot Hl). rewrite Z.eqb_eq. reflexivity.
Qed.

Lemma demo_pad_reachable : reachable demo_fs no_steal demo_rate demo_pad.
Proof.
  eapply reachable_step with (ev := EvSetNoteMapping 3 50);
    [eapply reachable_step with (ev := EvLoadSample 3 "kick.wav");
     [apply reachable_init | reflexivity]
    | reflexivity].
Defined.

Lemma reachable_pad_sound_follows_mapping_witness :
  appliesToNote (mkSound 3 (Some 0%nat) demo_rate 50) 50 = true
  <-> 50 = getNoteMapping (plugin demo_pad) 3.
Proof.
  refine (proj2 (@reachable_pad_sound_follows_mapping Q Q_FloatOps demo_fs no_steal
                   demo_rate demo_pad (mkSound 3 (Some 0%nat) demo_rate 50)
                   demo_pad_reachable _ _) _ 50).
  - replace (sounds (synth (plugin demo_pad)))
      with [mkSound 3 (Some 0%nat) demo_rate 50] by (vm_compute; reflexivity).
    apply list_elem_of_singleton. reflexivity.
  - simpl. lia.
  - reflexivity.
Defined.

(** X12.  In every reachable state the plugin still has its 16 pad slots,
    16 pad bindings, 128 note slots and 16 voices: no event grows or
    shrinks them. *)
Theorem reachable_sizes {F : Type} `{FloatOps F}
    (fs : FileSys F) (steal : StealPolicy F) (defaultRate : F) (w : World F) :
  reachable fs steal defaultRate w ->
  length (buttons (plugin w)) = 16%nat
  /\ length (noteMapping (plugin w)) = 16%nat
  /\ length (midiNoteSamples (plugin w)) = 128%nat
  /\ length (voices (synth (plugin w))) = 16%nat.
Proof.
  intros Hreach. exact (proj1 (reachable_good fs steal defaultRate w Hreach)).
Qed.

Lemma reachable_sizes_witness :
  length (buttons (plugin demo_pad)) = 16%nat
  /\ length (noteMapping (plugin demo_pad)) = 16%nat
  /\ length (midiNoteSamples (plugin demo_pad)) = 128%nat
  /\ length (voices (synth (plugin demo_pad))) = 16%nat.
Proof.
  exact (@reachable_sizes Q Q_FloatOps demo_fs no_steal demo_rate demo_pad
           demo_pad_reachable).
Defined.

(** X13.  What the destructor leaves on the heap: it deletes the buffers
    of the 16 pad slots only, so after it the live buffers are exactly the
    buffers of the note slots, which are never deleted. *)
Theorem destructor_leaves_note_buffers {F : Type} `{FloatOps F}
    (fs : FileSys F) (steal : StealPolicy F) (defaultRate : F) (w : World F) (a : nat) :
  reachable fs steal defaultRate w ->
  live (SamplerPlugin_destroy (plugin w)) a
  <-> exists n, 0 <= n < 128
                /\ bs_sampleBuffer (getMidiNoteSample (plugin w) n) = Some a.
Proof.
  intros Hreach.
  destruct (reachable_good fs steal defaultRate w Hreach)
    as ((Hlen & _) & Hinv).
  unfold SamplerPlugin_destroy. rewrite destroy_live. split.
  - intros (Hl & Hpads).
    destruct (inv_owned _ Hinv a Hl) as ([n|i] & Hv & Hb).
    + exists n. split; [exact Hv | exact Hb].
    + exfalso. apply (Hpads (getButton (plugin w) i)); [|exact Hb].
      apply (pad_elem _ _ Hlen). exists i. split; [exact Hv | reflexivity].
  - intros (n & Hn & Hb). split.
    + destruct (inv_slots _ Hinv (NoteOwner n) Hn) as [Hnew | (_ & a' & Ha & Hl & _)].
      * simpl in Hnew. rewrite Hnew in Hb. discriminate.
      * simpl in Ha. congruence.
    + intros x Hx Hxa. apply (pad_elem _ _ Hlen) in Hx.
      destruct Hx as (i & Hi & <-).
      pose proof (inv_distinct _ Hinv (NoteOwner n) (PadOwner i) a Hn Hi Hb Hxa).
      discriminate.
Qed.

Lemma destructor_leaves_note_buffers_witness :
  live (SamplerPlugin_destroy (plugin demo_playing)) 0.
Proof.
  apply (proj2 (@destructor_leaves_note_buffers Q Q_FloatOps demo_fs no_steal demo_rate
                  demo_playing 0%nat demo_playing_reachable)).
  exists 60. split; [lia | reflexivity].
Defined.

(** ** Rendering a block that does not reach the end of the sample *)

Section RenderMix.
Context {F : Type} `{FloatOps F}.

Lemma write_channels_frame (idx : Z) (x : F) :
  forall out out' : AudioBuffer F,
    write_channels idx x out = Some out' ->
    length out' = length out
    /\ (forall b, fits b out -> fits b out')
    /\ (forall ch old, frame out ch (Z.to_nat idx) = Some old ->
          frame out' ch (Z.to_nat idx) = Some (fadd old x))
    /\ (forall ch j, j <> Z.to_nat idx -> frame out' ch j = frame out ch j).
Proof.
  induction out as [|c rest IH]; intros out' Hw; simpl in Hw.
  - inversion Hw; subst. repeat split; auto.
    intros ch old Ho. unfold frame in Ho. destruct ch; discriminate.
  - destruct (idx <? 0); [discriminate|].
    destruct (c !! Z.to_nat idx) as [old0|] eqn:Hold; [|discriminate].
    destruct (write_channels idx x rest) as [rest'|] eqn:Hrest; [|discriminate].
    inversion Hw; subst. destruct (IH rest' eq_refl) as (Hlen & Hfit & Hat & Hsame).
    split; [simpl; congruence|]. split; [|split].
    + intros b Hb. inversion Hb; subst.
      constructor; [rewrite length_insert; assumption | apply Hfit; assumption].
    + intros [|ch] old; unfold frame; simpl.
      * intros Ho. rewrite Hold in Ho. inversion Ho; subst.
        apply list_lookup_insert_eq. eapply lookup_lt_Some, Hold.
      * apply Hat.
    + intros [|ch] j Hj; unfold frame; simpl.
      * apply list_lookup_insert_ne. congruence.
      * apply (Hsame ch j Hj).
Qed.

Lemma render_loop_mixes (buf : AudioSampleBuffer F) (start : Z) :
  forall (count : nat) (i : Z) (v : MidiSamplerVoice F) (out : AudioBuffer F),
    0 <= start + i ->
    fits (start + i + Z.of_nat count) out ->
    (forall j, (j < count)%nat ->
       pos_ge_len (pos_at v (S j)) (numSamples buf) = false) ->
    (forall j, (j < count)%nat -> is_Some (mixed_sample buf v (pos_at v j))) ->
    exists out',
      render_loop buf start i count v out
        = Some (set_position (pos_at v count) v, out')
      /\ length out' = length out
      /\ (forall ch j old, (j < count)%nat ->
            frame out ch (Z.to_nat (start + i) + j) = Some old ->
            exists x, mixed_sample buf v (pos_at v j) = Some x
                      /\ frame out' ch (Z.to_nat (start + i) + j) = Some (fadd old x))
      /\ (forall ch j, (j < Z.to_nat (start + i))%nat
                       \/ (Z.to_nat (start + i) + count <= j)%nat ->
            frame out' ch j = frame out ch j).
Proof.
  induction count as [|count IH]; intros i v out Hpos Hfit Hgo Hread.
  - exists out. simpl. split; [destruct v; reflexivity|].
    split; [reflexivity|]. split; [intros; lia | reflexivity].
  - cbn [render_loop].
    destruct (Hread 0%nat ltac:(lia)) as [x0 Hx0].
    unfold mixed_sample, pos_at in Hx0. simpl in Hx0.
    destruct (read_channels (numSamples buf) (v_position v) (channels buf) fzero)
      as [sum|] eqn:Hsum; [|discriminate Hx0].
    clear Hx0.
    pose proof (Hgo 0%nat ltac:(lia)) as H0.
    unfold pos_at in H0. simpl in H0.
    set (v1 := set_position (pos_advance (v_position v) (v_pitchRatio v)) v) in *.
    change (v_position v1) with (pos_advance (v_position v) (v_pitchRatio v)).
    rewrite H0.
    destruct (write_channels_spec (start + i)
                (fmul (fdiv_int sum (getNumChannels buf)) (v_velocity v)) out
                (start + i + Z.of_nat (S count)))
      as (out1 & Hw & _ & _); [lia | exact Hfit |].
    rewrite Hw.
    destruct (write_channels_frame _ _ _ _ Hw) as (Hlen1 & Hfit1 & Hat1 & Hsame1).
    destruct (IH (i + 1) v1 out1) as (out' & Hrun & Hlen & Hmix & Hout).
    + lia.
    + replace (start + (i + 1) + Z.of_nat count)
        with (start + i + Z.of_nat (S count)) by lia. apply Hfit1, Hfit.
    + intros j Hj. subst v1. rewrite pos_at_advance. apply Hgo. lia.
    + intros j Hj. subst v1. rewrite pos_at_advance. apply (Hread (S j)). lia.
    + exists out'. split; [|split; [congruence|split]].
      * rewrite Hrun. subst v1. rewrite pos_at_advance. reflexivity.
      * intros ch j old Hj Hold. destruct j as [|j].
        -- rewrite Nat.add_0_r in *. exists (fmul (fdiv_int sum (getNumChannels buf))
                                                  (v_velocity v)).
           split; [unfold mixed_sample, pos_at; simpl; rewrite Hsum;
                   reflexivity|].
           rewrite Hout by (left; lia). apply Hat1, Hold.
        -- replace (Z.to_nat (start + i) + S j)%nat
             with (Z.to_nat (start + (i + 1)) + j)%nat in * by lia.
           destruct (Hmix ch j old) as (x & Hx & Hfr); [lia | |].
           { rewrite Hsame1 by lia. exact Hold. }
           exists x. split; [|exact Hfr].
           subst v1. rewrite pos_at_advance in Hx. exact Hx.
      * intros ch j Hj. rewrite Hout by lia. apply Hsame1. lia.
Qed.

End RenderMix.

(** X14.  A block that does not reach the end of the sample: the voice keeps
    playing with its playhead advanced once per frame, every output
    channel gets, added to what it held, the mean of the source channels
    at the playhead times the velocity, and the frames outside the block
    are not touched. *)
Theorem renderNextBlock_mixes_into_output {F : Type} `{FloatOps F}
    (h : Heap F) (start n : Z) (v : MidiSamplerVoice F) (out : AudioBuffer F)
    (a : nat) (buf : AudioSampleBuffer F) :
  v_isPlaying v = true ->
  v_sampleBuffer v = Some a ->
  heap_read h a = Some buf ->
  0 <= start ->
  fits (start + n) out ->
  (forall j, (j < Z.to_nat n)%nat ->
     pos_ge_len (pos_at v (S j)) (numSamples buf) = false) ->
  (forall j, (j < Z.to_nat n)%nat -> is_Some (mixed_sample buf v (pos_at v j))) ->
  exists out',
    renderNextBlock h start n v out
      = Some (set_position (pos_at v (Z.to_nat n)) v, out')
    /\ length out' = length out
    /\ (forall ch j old, (j < Z.to_nat n)%nat ->
          frame out ch (Z.to_nat start + j) = Some old ->
          exists x, mixed_sample buf v (pos_at v j) = Some x
                    /\ frame out' ch (Z.to_nat start + j) = Some (fadd old x))
    /\ (forall ch j, (j < Z.to_nat start)%nat \/ (Z.to_nat start + Z.to_nat n <= j)%nat ->
          frame out' ch j = frame out ch j).
Proof.
  intros Hplay Hbuf Hheap Hstart Hfit Hgo Hread.
  unfold renderNextBlock. rewrite Hbuf, Hplay. simpl negb. cbv iota.
  destruct (Z.to_nat n) as [|k] eqn:Hn.
  - exists out. split; [destruct v; reflexivity|]. split; [reflexivity|].
    split; [intros; lia | reflexivity].
  - rewrite Hheap.
    destruct (render_loop_mixes buf start (S k) 0 v out) as (out' & Hrun & Hlen & Hmix & Hout).
    + lia.
    + replace (start + 0 + Z.of_nat (S k)) with (start + n) by lia. exact Hfit.
    + exact Hgo.
    + exact Hread.
    + rewrite Z.add_0_r in *. exists out'. repeat split; assumption.
Qed.

Lemma renderNextBlock_mixes_into_output_witness :
  exists out',
    renderNextBlock demo_heap 0 1 demo_voice (silence 4)
      = Some (set_position (pos_at demo_voice (Z.to_nat 1)) demo_voice, out')
    /\ length out' = length (silence 4).
Proof.
  destruct (@renderNextBlock_mixes_into_output Q Q_FloatOps demo_heap 0 1 demo_voice
              (silence 4) 0%nat (rd_buffer demo_reader))
    as (out' & Hrun & Hlen & _).
  - reflexivity.
  - reflexivity.
  - reflexivity.
  - lia.
  - repeat constructor; simpl; lia.
  - intros j Hj. assert (j = 0%nat) as -> by (simpl in Hj; lia). reflexivity.
  - intros j Hj. assert (j = 0%nat) as -> by (simpl in Hj; lia).
    vm_compute. eauto.
  - exists out'. split; assumption.
Defined.

(** ** When a voice becomes free again *)

Section VoiceRelease.
Context {F : Type} `{FloatOps F}.

Lemma stays_active_refl (vs : list (MidiSamplerVoice F)) : stays_active vs vs.
Proof. intros i v Hv Ha. eauto. Qed.

Lemma stays_active_trans (vs1 vs2 vs3 : list (MidiSamplerVoice F)) :
  stays_active vs1 vs2 -> stays_active vs2 vs3 -> stays_active vs1 vs3.
Proof.
  intros H12 H23 i v Hv Ha. destruct (H12 i v Hv Ha) as (v2 & Hv2 & Ha2).
  exact (H23 i v2 Hv2 Ha2).
Qed.

Lemma stays_active_map (f : MidiSamplerVoice F -> MidiSamplerVoice F)
    (vs : list (MidiSamplerVoice F)) :
  (forall v, isVoiceActive (f v) = isVoiceActive v) ->
  stays_active vs (map f vs).
Proof.
  intros Hf i v Hv Ha. exists (f v). split; [|rewrite Hf; exact Ha].
  change (map f vs) with (f <$> vs). rewrite list_lookup_fmap, Hv. reflexivity.
Qed.

Lemma stopNote_tail_active (o : bool) (vel : F) (v : MidiSamplerVoice F) :
  isVoiceActive (stopNote o vel true v) = isVoiceActive v.
Proof. unfold stopNote. destruct o; reflexivity. Qed.

Lemma stop_ringing_active (o : bool) (ch n : Z) (v : MidiSamplerVoice F) :
  isVoiceActive (stop_ringing o ch n v) = isVoiceActive v.
Proof.
  unfold stop_ringing. destruct (_ && _); [apply stopNote_tail_active | reflexivity].
Qed.

Lemma noteOn_sound_active (steal : StealPolicy F) (o : bool) (ch n : Z) (vel : F)
    (vs : list (MidiSamplerVoice F)) (s : ButtonSampleSound F) :
  0 <= n -> stays_active vs (noteOn_sound steal o ch n vel vs s).
Proof.
  intros Hn. unfold noteOn_sound. destruct (_ && _); [|apply stays_active_refl].
  set (vs1 := map (stop_ringing o ch n) vs).
  assert (H1 : stays_active vs vs1)
    by (apply stays_active_map; intros v; apply stop_ringing_active).
  destruct (findFreeVoice steal vs1 s ch n) as [j|]; [|exact H1].
  destruct (vs1 !! j) as [vj|] eqn:Hj; [|exact H1].
  apply (stays_active_trans _ vs1); [exact H1|].
  intros i v Hv Ha. destruct (decide (i = j)) as [->|Hne].
  - eexists. split; [apply list_lookup_insert_eq; eapply lookup_lt_Some, Hj|].
    unfold startVoice, startNote, isVoiceActive. simpl.
    apply Z.leb_le. exact Hn.
  - exists v. split; [|exact Ha]. rewrite list_lookup_insert_ne by congruence. exact Hv.
Qed.

Lemma handleMidiEvent_active (steal : StealPolicy F) (o : bool) (m : MidiMessage)
    (s : Synthesiser F) :
  (isNoteOn m = true -> 0 <= getNoteNumber m) ->
  stays_active (voices s) (voices (handleMidiEvent steal o m s)).
Proof.
  intros Hm. unfold handleMidiEvent, noteOn, noteOff, allNotesOff.
  destruct (isNoteOn m).
  { simpl.
    apply (foldl_preserves (fun vs => stays_active (voices s) vs));
      [|apply stays_active_refl].
    intros vs x Hvs. eapply stays_active_trans; [exact Hvs|].
    apply noteOn_sound_active, Hm. reflexivity. }
  destruct (isNoteOff m).
  { simpl. apply stays_active_map. intros v. unfold noteOff_voice.
    destruct (_ && _); [|reflexivity].
    destruct (v_currentlyPlayingSound v) as [snd0|]; [|reflexivity].
    destruct (_ && _); [apply stopNote_tail_active | reflexivity]. }
  destruct (isAllNotesOff m); [|apply stays_active_refl].
  simpl. apply stays_active_map. intros v.
  destruct (_ || _); [apply stopNote_tail_active | reflexivity].
Qed.

Lemma handle_all_active (steal : StealPolicy F) (o : bool) (ms : list MidiMessage) :
  (forall m, m ∈ ms -> isNoteOn m = true -> 0 <= getNoteNumber m) ->
  forall s : Synthesiser F,
    stays_active (voices s)
      (voices (foldl (fun s m => handleMidiEvent steal o m s) s ms)).
Proof.
  induction ms as [|m ms IH]; intros Hl s; simpl; [apply stays_active_refl|].
  eapply stays_active_trans.
  - apply handleMidiEvent_active, Hl. apply elem_of_cons. left. reflexivity.
  - apply IH. intros m' Hm'. apply Hl. apply elem_of_cons. right. exact Hm'.
Qed.

Lemma render_loop_release (buf : AudioSampleBuffer F) (start : Z) :
  forall (count : nat) (i : Z) (v v' : MidiSamplerVoice F) (out out' : AudioBuffer F),
    render_loop buf start i count v out = Some (v', out') ->
    isVoiceActive v = true -> isVoiceActive v' = false ->
    pos_ge_len (v_position v') (numSamples buf) = true.
Proof.
  induction count as [|count IH]; intros i v v' out out' Hrun Ha Hi; simpl in Hrun.
  - inversion Hrun; subst. congruence.
  - destruct (read_channels _ _ _ _) as [sum|]; [|discriminate].
    destruct (pos_ge_len _ _) eqn:Hge.
    + inversion Hrun; subst. simpl. exact Hge.
    + destruct (write_channels _ _ _) as [out1|]; [|discriminate].
      apply IH in Hrun; [exact Hrun | exact Ha | exact Hi].
Qed.

Lemma renderNextBlock_release (h : Heap F) (start n : Z)
    (v v' : MidiSamplerVoice F) (out out' : AudioBuffer F) :
  renderNextBlock h start n v out = Some (v', out') ->
  isVoiceActive v = true -> isVoiceActive v' = false ->
  exists a buf, v_sampleBuffer v' = Some a /\ heap_read h a = Some buf
                /\ pos_ge_len (v_position v') (numSamples buf) = true.
Proof.
  unfold renderNextBlock. intros Hrun Ha Hi.
  destruct (v_sampleBuffer v) as [a|] eqn:Hbuf;
    [|inversion Hrun; subst; congruence].
  destruct (negb (v_isPlaying v)); [inversion Hrun; subst; congruence|].
  destruct (Z.to_nat n); [inversion Hrun; subst; congruence|].
  destruct (heap_read h a) as [buf|] eqn:Hheap; [|discriminate].
  exists a, buf. split; [|split; [exact Hheap|]].
  - apply render_loop_inv in Hrun. destruct Hrun as (_ & Hb & _). congruence.
  - eapply render_loop_release; eassumption.
Qed.

End VoiceRelease.

(** X15.  A block frees a voice only when that voice has played to the end
    of its sample.  No MIDI message frees one: a note-off or all-notes-off
    at most clears the playing flag and leaves the voice allocated to its
    note. *)
Theorem voice_freed_only_at_sample_end {F : Type} `{FloatOps F}
    (steal : StealPolicy F) (oneShot : bool) (buffer : AudioBuffer F) (frames : Z)
    (ms : list MidiMessage) (p p' : SamplerPlugin F) (out : AudioBuffer F)
    (i : nat) (v : MidiSamplerVoice F) :
  processBlock steal oneShot buffer frames ms p = Some (p', out) ->
  (forall m, m ∈ ms ++ midiCollector p -> isNoteOn m = true -> 0 <= getNoteNumber m) ->
  voices (synth p) !! i = Some v ->
  isVoiceActive v = true ->
  exists v', voices (synth p') !! i = Some v'
    /\ (isVoiceActive v' = true
        \/ exists a buf, v_sampleBuffer v' = Some a
                         /\ heap_read (heap p) a = Some buf
                         /\ pos_ge_len (v_position v') (numSamples buf) = true).
Proof.
  unfold processBlock. intros Hrun Hnotes Hv Ha.
  set (s1 := foldl (fun s m => handleMidiEvent steal oneShot m s) (synth p)
                   (ms ++ midiCollector p)) in *.
  assert (Hs1 : stays_active (voices (synth p)) (voices s1)).
  { subst s1. apply handle_all_active, Hnotes. }
  destruct (renderVoices _ _ _ _ _) as [[vs out1]|] eqn:Hr; [|discriminate].
  inversion Hrun; subst p' out1. simpl.
  destruct (Hs1 i v Hv Ha) as (v1 & Hv1 & Ha1).
  assert (Hlen : length vs = length (voices s1))
    by (eapply renderVoices_length; exact Hr).
  destruct (lookup_lt_is_Some_2 vs i) as [v' Hv'].
  { rewrite Hlen. eapply lookup_lt_Some, Hv1. }
  exists v'. split; [exact Hv'|].
  destruct (renderVoices_lookup _ _ _ _ _ _ _ Hr i v' Hv') as (v0 & o1 & o2 & Hv0 & Hone).
  assert (v0 = v1) by congruence. subst v0.
  destruct (isVoiceActive v') eqn:Ha'; [left; reflexivity | right].
  eapply renderNextBlock_release; eassumption.
Qed.

Lemma voice_freed_only_at_sample_end_witness :
  match processBlock no_steal true (silence 4) 4 [] (plugin demo_playing) with
  | Some (p', _) =>
      exists v', voices (synth p') !! 0%nat = Some v'
        /\ (isVoiceActive v' = true
            \/ exists a buf, v_sampleBuffer v' = Some a
                             /\ heap_read (heap (plugin demo_playing)) a = Some buf
                             /\ pos_ge_len (v_position v') (numSamples buf) = true)
  | None => False
  end.
Proof.
  destruct (processBlock no_steal true (silence 4) 4 [] (plugin demo_playing))
    as [[p' out]|] eqn:Hrun.
  - eapply (@voice_freed_only_at_sample_end Q Q_FloatOps no_steal true (silence 4) 4 []
              (plugin demo_playing) p' out 0%nat _ Hrun).
    + intros m Hm. vm_compute in Hm. inversion Hm.
    + vm_compute. reflexivity.
    + reflexivity.
  - vm_compute in Hrun. discriminate.
Defined.

(** X16.  A sample buffer with channels but no frames (an empty audio file
    loads as one) makes the first rendered frame take a remainder by zero:
    the block has undefined behaviour. *)
Theorem renderNextBlock_empty_sample_faults {F : Type} `{FloatOps F}
    (h : Heap F) (start n : Z) (v : MidiSamplerVoice F) (out : AudioBuffer F)
    (a : nat) (buf : AudioSampleBuffer F) :
  v_isPlaying v = true ->
  v_sampleBuffer v = Some a ->
  heap_read h a = Some buf ->
  numSamples buf = 0 ->
  channels buf <> [] ->
  0 < n ->
  renderNextBlock h start n v out = None.
Proof.
  intros Hplay Hbuf Hheap Hlen Hch Hn.
  unfold renderNextBlock. rewrite Hbuf, Hplay, Hheap. simpl.
  destruct (Z.to_nat n) as [|k] eqn:Hk; [lia|]. simpl.
  destruct (channels buf) as [|c rest]; [congruence|].
  simpl. rewrite Hlen. reflexivity.
Qed.

Lemma renderNextBlock_empty_sample_faults_witness :
  renderNextBlock demo_empty_heap 0 4 demo_voice (silence 4) = None.
Proof.
  apply (@renderNextBlock_empty_sample_faults Q Q_FloatOps demo_empty_heap 0 4 demo_voice
           (silence 4) 0%nat (mkBuffer 0 [[]])).
  - reflexivity.
  - reflexivity.
  - reflexivity.
  - reflexivity.
  - discriminate.
  - lia.
Defined.

(** ** Saving and restoring the plugin state *)

Section PluginState.
Context {F : Type} `{FloatOps F}.
Variable fs : FileSys F.

(** One pass of the restore loop touches the pad of the child it read and
    no other. *)
Lemma restore_button_spec (b : XmlButton) (q : SamplerPlugin F) :
  length (buttons q) = 16%nat ->
  length (noteMapping q) = 16%nat ->
  let q' := restore_button fs b q in
  length (buttons q') = 16%nat
  /\ length (noteMapping q') = 16%nat
  /\ (forall j, j <> xb_index b ->
        getButton q' j = getButton q j /\ getNoteMapping q' j = getNoteMapping q j)
  /\ (0 <= xb_index b < 16 -> getNoteMapping q' (xb_index b) = xb_noteMapping b).
Proof.
  intros Hb Hm q'. subst q'. unfold restore_button.
  destruct ((0 <=? xb_index b) && (xb_index b <? 16)) eqn:Hg.
  2: { repeat split; try assumption. intros Hr. lia. }
  assert (Hi : 0 <= xb_index b < 16) by lia.
  destruct (ButtonSample_clear (heap q) (getButton q (xb_index b))) as [h' cleared].
  set (p1 := mkPlugin (synth q)
               (<[Z.to_nat (xb_index b) := mkButtonSample None (xb_filePath b) fzero
                                             false 60]> (buttons q))
               (Array_set (xb_index b) (xb_noteMapping b) (noteMapping q))
               (midiNoteSamples q) h' (midiCollector q)).
  assert (Hp1 : length (buttons p1) = 16%nat
                /\ length (noteMapping p1) = 16%nat
                /\ (forall j, j <> xb_index b ->
                      getButton p1 j = getButton q j
                      /\ getNoteMapping p1 j = getNoteMapping q j)
                /\ getNoteMapping p1 (xb_index b) = xb_noteMapping b).
  { subst p1. unfold getButton, getNoteMapping. simpl.
    split; [rewrite length_insert; exact Hb|]. split.
    { unfold Array_set. rewrite Hm. change (Z.of_nat 16) with 16.
      destruct (xb_index b <? 0) eqn:H0; [lia|].
      destruct (xb_index b <? 16) eqn:H1; [|lia].
      rewrite length_insert. exact Hm. }
    split.
    - intros j Hj. split.
      + apply Array_get_insert_ne; [lia | congruence].
      + rewrite (getNoteMapping_set q _ _ j Hi Hm).
        destruct (decide (j = xb_index b)); [contradiction | reflexivity].
    - rewrite (getNoteMapping_set q _ _ _ Hi Hm).
      destruct (decide (xb_index b = xb_index b)); [reflexivity | congruence]. }
  destruct Hp1 as (Hb1 & Hm1 & Hoth1 & Hat1).
  destruct (isNotEmpty (xb_filePath b));
    [|split; [exact Hb1|]; split; [exact Hm1|]; split; [exact Hoth1 | intros _; exact Hat1]].
  rewrite (loadSample_fields fs _ (xb_filePath b) p1 Hi).
  destruct (clearSample_in (xb_index b) p1 Hi) as (Hcb & Hcm & _).
  assert (Hc : length (buttons (clearSample (xb_index b) p1)) = 16%nat
               /\ forall j, j <> xb_index b ->
                    getButton (clearSample (xb_index b) p1) j = getButton q j).
  { rewrite Hcb, length_insert. split; [exact Hb1|]. intros j Hj.
    unfold getButton at 1. rewrite Hcb.
    rewrite Array_get_insert_ne by (lia || congruence). apply Hoth1, Hj. }
  destruct Hc as (Hcl & Hcoth).
  assert (Hcmap : forall j, getNoteMapping (clearSample (xb_index b) p1) j
                            = getNoteMapping p1 j).
  { intros j. unfold getNoteMapping. rewrite Hcm. reflexivity. }
  destruct (createReaderFor fs (xb_filePath b)) as [reader|]; simpl.
  - split; [rewrite length_insert; exact Hcl|]. split; [rewrite Hcm; exact Hm1|].
    split.
    + intros j Hj. split.
      * unfold getButton at 1. simpl.
        rewrite Array_get_insert_ne by (lia || congruence).
        apply Hcoth, Hj.
      * unfold getNoteMapping at 1. simpl. fold (getNoteMapping (clearSample (xb_index b) p1) j).
        rewrite Hcmap. apply Hoth1, Hj.
    + intros _. unfold getNoteMapping at 1. simpl.
      fold (getNoteMapping (clearSample (xb_index b) p1) (xb_index b)).
      rewrite Hcmap. exact Hat1.
  - split; [exact Hcl|]. split; [rewrite Hcm; exact Hm1|]. split.
    + intros j Hj. split; [apply Hcoth, Hj | rewrite Hcmap; apply Hoth1, Hj].
    + intros _. rewrite Hcmap. exact Hat1.
Qed.

Lemma restore_loop_spec (b : XmlButton) (p : SamplerPlugin F) (k : nat) :
  length (buttons p) = 16%nat ->
  length (noteMapping p) = 16%nat ->
  let q := Nat.iter k (restore_button fs b) p in
  length (buttons q) = 16%nat
  /\ length (noteMapping q) = 16%nat
  /\ (forall j, j <> xb_index b ->
        getButton q j = getButton p j /\ getNoteMapping q j = getNoteMapping p j)
  /\ ((0 < k)%nat -> 0 <= xb_index b < 16 ->
      getNoteMapping q (xb_index b) = xb_noteMapping b).
Proof.
  intros Hb Hm. induction k as [|k IH]; simpl.
  - repeat split; try assumption. intros Hk. lia.
  - destruct IH as (Hbk & Hmk & Hoth & _).
    destruct (restore_button_spec b _ Hbk Hmk) as (Hb' & Hm' & Hoth' & Hat').
    split; [exact Hb'|]. split; [exact Hm'|]. split.
    + intros j Hj. destruct (Hoth' j Hj) as (H1 & H2). destruct (Hoth j Hj) as (H3 & H4).
      split; congruence.
    + intros _ Hi. apply Hat', Hi.
Qed.

End PluginState.

(** X17.  Restoring a saved state reads the first "Button" child of the
    element in each of its 16 passes: the pad that child names gets the
    child's binding, and every other pad keeps its slot and its binding,
    whatever further children the element has. *)
Theorem setStateInformation_restores_first_child_only {F : Type} `{FloatOps F}
    (fs : FileSys F) (x : XmlElement) (b : XmlButton) (p : SamplerPlugin F) :
  xml_tag x = "SamplerState" ->
  getChildByName_Button (xml_children x) = Some b ->
  length (buttons p) = 16%nat ->
  length (noteMapping p) = 16%nat ->
  let p' := setStateInformation fs (Some x) p in
  (forall j, j <> xb_index b ->
     getButton p' j = getButton p j /\ getNoteMapping p' j = getNoteMapping p j)
  /\ (0 <= xb_index b < 16 -> getNoteMapping p' (xb_index b) = xb_noteMapping b).
Proof.
  intros Htag Hfirst Hb Hm p'. subst p'. unfold setStateInformation.
  rewrite Htag, Hfirst. simpl String.eqb. cbv iota.
  destruct (restore_loop_spec fs b p 16 Hb Hm) as (_ & _ & Hoth & Hat).
  split; [exact Hoth|]. intros Hi. apply Hat; [lia | exact Hi].
Qed.

Lemma setStateInformation_restores_first_child_only_witness :
  getNoteMapping (setStateInformation demo_fs (Some demo_state_xml)
                    (SamplerPlugin_new demo_rate)) 5
  = getNoteMapping (SamplerPlugin_new demo_rate) 5.
Proof.
  refine (proj2 (proj1 (@setStateInformation_restores_first_child_only Q Q_FloatOps
                          demo_fs demo_state_xml (mkXmlButton 2 EmptyString 40)
                          (SamplerPlugin_new demo_rate) _ _ _ _) 5 _)).
  - reflexivity.
  - reflexivity.
  - reflexivity.
  - reflexivity.
  - simpl. lia.
Defined.

(** X18.  Saving the state and restoring it into a plugin brings back the
    binding of pad 0 only: the saved element lists pad 0 first, so the
    pads 1 to 15 of the restoring plugin keep their own slots and
    bindings. *)
Theorem state_round_trip_restores_pad_0_only {F : Type} `{FloatOps F}
    (fs : FileSys F) (p q : SamplerPlugin F) :
  length (buttons q) = 16%nat ->
  length (noteMapping q) = 16%nat ->
  let q' := setStateInformation fs (Some (getStateInformation p)) q in
  getNoteMapping q' 0 = getNoteMapping p 0
  /\ forall j, j <> 0 ->
       getButton q' j = getButton q j /\ getNoteMapping q' j = getNoteMapping q j.
Proof.
  intros Hb Hm q'. subst q'.
  set (b := mkXmlButton 0 (bs_filePath (getButton p 0)) (getNoteMapping p 0)).
  destruct (restore_loop_spec fs b q 16 Hb Hm) as (_ & _ & Hoth & Hat).
  change (setStateInformation fs (Some (getStateInformation p)) q)
    with (Nat.iter 16 (restore_button fs b) q).
  split; [apply Hat; simpl; lia | exact Hoth].
Qed.

Lemma state_round_trip_restores_pad_0_only_witness :
  getNoteMapping (setStateInformation demo_fs
                    (Some (getStateInformation (plugin demo_pad)))
                    (SamplerPlugin_new demo_rate)) 3
  = getNoteMapping (SamplerPlugin_new demo_rate) 3.
Proof.
  refine (proj2 (proj2 (@state_round_trip_restores_pad_0_only Q Q_FloatOps demo_fs
                          (plugin demo_pad) (SamplerPlugin_new demo_rate) _ _) 3 _)).
  - reflexivity.
  - reflexivity.
  - lia.
Defined.

(** ** Note tracking for the pad display *)

Section NoteTracking.
Context {F : Type} `{FloatOps F}.

Lemma track_note_arrays (note : Z) (playing : bool) (vel : F) (e : SamplerEditor F) :
  0 <= note < 128 ->
  length (notePlaying e) = 128%nat ->
  length (noteVelocities e) = 128%nat ->
  notePlaying (track_note note playing vel e)
    = <[Z.to_nat note := playing]> (notePlaying e)
  /\ noteVelocities (track_note note playing vel e)
     = <[Z.to_nat note := vel]> (noteVelocities e).
Proof.
  intros Hn Hp Hv. unfold track_note, ensure_size, Array_set. simpl.
  rewrite Hp, Hv. change (Z.of_nat 128) with 128.
  destruct (128 <=? note) eqn:Hle; [lia|]. rewrite Hp, Hv.
  change (Z.of_nat 128) with 128.
  destruct (note <? 0) eqn:H0; [lia|]. destruct (note <? 128) eqn:H1; [|lia].
  split; reflexivity.
Qed.

Lemma handleMidiMessage_arrays (msg : MidiMessage) (w : World F) :
  let e1 :=
    if isNoteOn msg && (0 <=? getNoteNumber msg) && (getNoteNumber msg <? 128)
    then track_note (getNoteNumber msg) true (velocity_of_byte (getVelocity msg))
                    (editor w)
    else if isNoteOff msg && (0 <=? getNoteNumber msg) && (getNoteNumber msg <? 128)
    then track_note (getNoteNumber msg) false fzero (editor w)
    else editor w in
  notePlaying (editor (handleIncomingMidiMessage msg w)) = notePlaying e1
  /\ noteVelocities (editor (handleIncomingMidiMessage msg w)) = noteVelocities e1.
Proof.
  intros e1. unfold handleIncomingMidiMessage, handleMidiMessage. simpl.
  fold e1. destruct (_ && _ && isNoteOn msg); split; reflexivity.
Qed.

End NoteTracking.

(** X19.  The editor's note tracking follows the incoming messages: after
    a note-on for one of the 128 notes the note counts as playing with the
    message's velocity scaled to 0..1, after a note-off (or a note-on with
    velocity 0) it counts as silent with velocity 0, every other note is
    as before, and the two arrays keep their 128 entries.  The pads read
    their highlight from these arrays. *)
Theorem note_tracking_follows_messages {F : Type} `{FloatOps F}
    (msg : MidiMessage) (w : World F) :
  0 <= getNoteNumber msg < 128 ->
  isNoteOn msg = true \/ isNoteOff msg = true ->
  length (notePlaying (editor w)) = 128%nat ->
  length (noteVelocities (editor w)) = 128%nat ->
  let n := getNoteNumber msg in
  let e' := editor (handleIncomingMidiMessage msg w) in
  Array_get false (notePlaying e') n = isNoteOn msg
  /\ getNoteVelocity e' n
     = (if isNoteOn msg then velocity_of_byte (getVelocity msg) else fzero)
  /\ (forall m, m <> n ->
        Array_get false (notePlaying e') m = Array_get false (notePlaying (editor w)) m
        /\ getNoteVelocity e' m = getNoteVelocity (editor w) m)
  /\ length (notePlaying e') = 128%nat
  /\ length (noteVelocities e') = 128%nat.
Proof.
  intros Hn Hkind Hp Hv n e'. subst n e'.
  destruct (handleMidiMessage_arrays msg w) as (Hpl & Hvl).
  unfold getNoteVelocity. rewrite Hpl, Hvl. clear Hpl Hvl.
  destruct (0 <=? getNoteNumber msg) eqn:Hge; [|lia].
  destruct (getNoteNumber msg <? 128) eqn:Hlt; [|lia].
  rewrite !andb_true_r.
  assert (Hsel : exists playing vel,
            playing = isNoteOn msg
            /\ vel = (if isNoteOn msg then velocity_of_byte (getVelocity msg) else fzero)
            /\ (if isNoteOn msg
                then track_note (getNoteNumber msg) true
                                (velocity_of_byte (getVelocity msg)) (editor w)
                else if isNoteOff msg
                     then track_note (getNoteNumber msg) false fzero (editor w)
                     else editor w)
               = track_note (getNoteNumber msg) playing vel (editor w)).
  { destruct (isNoteOn msg) eqn:Hon.
    - exists true, (velocity_of_byte (getVelocity msg)). repeat split.
    - destruct Hkind as [Hk|Hk]; [discriminate|]. rewrite Hk.
      exists false, fzero. repeat split. }
  destruct Hsel as (playing & vel & <- & <- & ->).
  destruct (track_note_arrays (getNoteNumber msg) playing vel (editor w) Hn Hp Hv)
    as (-> & ->).
  rewrite !length_insert, Hp, Hv. change (Z.of_nat 128) with 128.
  assert (Hin : forall A (l : list A), length l = 128%nat ->
            in_range (getNoteNumber msg) (length l) = true).
  { intros A l Hl. rewrite Hl. apply in_range_128, Hn. }
  rewrite ?Hge, ?Hlt. simpl.
  split; [apply Array_get_insert_eq, Hin, Hp|].
  split; [apply Array_get_insert_eq, Hin, Hv|].
  split; [|split; reflexivity].
  intros m Hm. split.
  - apply Array_get_insert_ne; [lia | congruence].
  - rewrite Array_get_insert_ne by (lia || congruence). reflexivity.
Qed.

Lemma note_tracking_follows_messages_witness :
  getNoteVelocity (editor (handleIncomingMidiMessage (MidiNoteOn 1 60 127)
                             (World_new demo_rate))) 60
  = velocity_of_byte 127.
Proof.
  refine (proj1 (proj2 (@note_tracking_follows_messages Q Q_FloatOps
                          (MidiNoteOn 1 60 127) (World_new demo_rate) _ _ _ _))).
  - simpl. lia.
  - left. reflexivity.
  - reflexivity.
  - reflexivity.
Defined.

(** ** Note names and the MIDI status display *)

Section NoteNames.

Lemma noteNames_lookup (n : Z) :
  0 <= Z.rem n 12 -> is_Some (noteNames !! Z.to_nat (Z.rem n 12)).
Proof.
  intros Hge. apply lookup_lt_is_Some. simpl.
  assert (Z.abs (Z.rem n 12) < Z.abs 12) by (apply Z.rem_bound_abs; lia). lia.
Qed.

Lemma getNoteName_defined (n : Z) :
  is_Some (getNoteName n) <-> 0 <= Z.rem n 12.
Proof.
  unfold getNoteName. destruct (Z.rem n 12 <? 0) eqn:Hneg.
  - split; [intros [x Hx]; discriminate | lia].
  - split; [lia|]. intros Hge. destruct (noteNames_lookup n Hge) as [name ->]. eauto.
Qed.

Lemma note_names_distinct : NoDup (getNoteName <$> (Z.of_nat <$> seq 0 128)).
Proof. apply (bool_decide_unpack _). vm_compute. reflexivity. Qed.

Lemma note_names_lookup (n : Z) :
  0 <= n < 128 ->
  (getNoteName <$> (Z.of_nat <$> seq 0 128)) !! Z.to_nat n = Some (getNoteName n).
Proof.
  intros Hn. rewrite !list_lookup_fmap.
  rewrite (lookup_seq_lt 0 128 (Z.to_nat n)) by lia. simpl.
  rewrite Z2Nat.id by lia. reflexivity.
Qed.

Lemma status_fade (k : nat) :
  forall d : MidiStatusDisplay,
    0 <= fadeCounter d ->
    fadeCounter (Nat.iter k status_timerCallback d)
      = Z.max 0 (fadeCounter d - Z.of_nat k)
    /\ lastNoteText (Nat.iter k status_timerCallback d) = lastNoteText d
    /\ velocityText (Nat.iter k status_timerCallback d) = velocityText d
    /\ channelText (Nat.iter k status_timerCallback d) = channelText d.
Proof.
  induction k as [|k IH]; intros d Hd.
  - simpl. repeat split. lia.
  - rewrite Nat.iter_succ. destruct (IH d Hd) as (Hf & Hn & Hv & Hc).
    unfold status_timerCallback at 1 3 5 7.
    destruct (0 <? fadeCounter (Nat.iter k status_timerCallback d)) eqn:Hpos; simpl.
    + repeat split; try assumption. lia.
    + repeat split; try assumption. lia.
Qed.

End NoteNames.

(** X20.  The note name of the pad labels is defined exactly for the note
    numbers whose C remainder by 12 is not negative, so for every note
    from 0 up; for other negative numbers the table is read before its
    first entry.  The 128 MIDI notes have 128 different names, and the
    status display and the main window's log use the same names. *)
Theorem note_names_defined_and_distinct (n m : Z) :
  (is_Some (getNoteName n) <-> 0 <= n \/ Z.rem n 12 = 0)
  /\ (0 <= n < 128 -> 0 <= m < 128 -> getNoteName n = getNoteName m -> n = m)
  /\ getMidiNoteDisplayName n = getNoteName n
  /\ getMidiNoteName n = getNoteName n.
Proof.
  split; [|split; [|split; reflexivity]].
  - rewrite getNoteName_defined. split.
    + intros Hge. destruct (Z_le_gt_dec 0 n) as [Hn|Hn]; [left; exact Hn | right].
      assert (Z.rem n 12 <= 0) by (apply Z.rem_nonpos; lia). lia.
    + intros [Hn | ->]; [apply Z.rem_nonneg; lia | lia].
  - intros Hn Hm Heq.
    pose proof (note_names_lookup n Hn) as H1.
    pose proof (note_names_lookup m Hm) as H2. rewrite <- Heq in H2.
    pose proof (NoDup_lookup _ _ _ _ note_names_distinct H1 H2). lia.
Qed.

(** X21.  The MIDI status display after a note-on for a note from 0 up:
    it shows the note's name, velocity and channel, stays lit for exactly
    30 timer ticks, and its fade counter never drops below 0. *)
Theorem status_display_lit_for_30_ticks (msg : MidiMessage) (d : MidiStatusDisplay) :
  isNoteOn msg = true ->
  0 <= getNoteNumber msg ->
  exists d1,
    showMidiMessage msg d = Some d1
    /\ Some (lastNoteText d1) = getMidiNoteDisplayName (getNoteNumber msg)
    /\ forall k,
         let dk := Nat.iter k status_timerCallback d1 in
         fadeCounter dk = Z.max 0 (30 - Z.of_nat k)
         /\ ((0 <? fadeCounter dk) = true <-> (k < 30)%nat)
         /\ lastNoteText dk = lastNoteText d1
         /\ velocityText dk = pretty (getVelocity msg)
         /\ channelText dk = pretty (getChannel msg).
Proof.
  intros Hon Hn. unfold showMidiMessage. rewrite Hon.
  assert (Hname : is_Some (getMidiNoteDisplayName (getNoteNumber msg))).
  { change (is_Some (getNoteName (getNoteNumber msg))).
    apply getNoteName_defined, Z.rem_nonneg; lia. }
  destruct Hname as [name Hname]. rewrite Hname.
  eexists. split; [reflexivity|]. split; [reflexivity|].
  intros k. cbv zeta.
  destruct (status_fade k (mkStatus name (pretty (getVelocity msg))
                                    (pretty (getChannel msg)) 30))
    as (Hf & Hl & Hv & Hc); [simpl; lia|].
  simpl in Hf, Hl, Hv, Hc. rewrite Hf, Hl, Hv, Hc.
  split; [reflexivity|]. split; [|repeat split].
  rewrite Z.ltb_lt. lia.
Qed.

Lemma status_display_lit_for_30_ticks_witness :
  exists d1,
    showMidiMessage (MidiNoteOn 1 60 100) MidiStatusDisplay_new = Some d1
    /\ Some (lastNoteText d1) = getMidiNoteDisplayName 60.
Proof.
  destruct (status_display_lit_for_30_ticks (MidiNoteOn 1 60 100) MidiStatusDisplay_new)
    as (d1 & Hshow & Hname & _).
  - reflexivity.
  - simpl. lia.
  - exists d1. split; assumption.
Defined.

(** ** Loading, clearing and importing: what else they show *)

Section LoadFacts.
Context {F : Type} `{FloatOps F}.

Lemma loadSampleForMidiNote_mapping (fs : FileSys F) (n : Z) (file : string)
    (p : SamplerPlugin F) :
  noteMapping (snd (loadSampleForMidiNote fs n file p)) = noteMapping p.
Proof.
  destruct (decide (0 <= n < 128)) as [Hn|Hn].
  - apply (loadSampleForMidiNote_in fs n file p Hn).
  - rewrite loadSampleForMidiNote_out by exact Hn. reflexivity.
Qed.

Lemma import_note_mapping (fs : FileSys F) (st : SamplerPlugin F * Z * Z)
    (item : JsonItem NoteObj) :
  noteMapping (fst (fst (import_note fs st item))) = noteMapping (fst (fst st)).
Proof.
  destruct st as [[p l] f]. unfold import_note.
  destruct item as [|o]; [reflexivity|].
  destruct (_ && _); [|reflexivity].
  destruct (file_exists fs (no_filePath o)); [|reflexivity].
  pose proof (loadSampleForMidiNote_mapping fs (no_midiNote o) (no_filePath o) p) as Hm.
  destruct (loadSampleForMidiNote fs (no_midiNote o) (no_filePath o) p) as [[|] p1];
    exact Hm.
Qed.

Lemma import_button_length (p : SamplerPlugin F) (item : JsonItem ButtonObj) :
  length (noteMapping p) = 16%nat -> length (noteMapping (import_button p item)) = 16%nat.
Proof.
  intros Hm. unfold import_button. destruct item as [|o]; [exact Hm|].
  destruct ((0 <=? bo_index o) && (bo_index o <? 16)) eqn:Hg; [|exact Hm].
  destruct (setNoteMapping_in (bo_index o) (bo_midiNote o) p ltac:(lia)) as (-> & _).
  unfold Array_set. rewrite Hm. change (Z.of_nat 16) with 16.
  destruct (bo_index o <? 0) eqn:H0; [lia|].
  destruct (bo_index o <? 16) eqn:H1; [|lia].
  rewrite length_insert. exact Hm.
Qed.

End LoadFacts.

(** X22.  A successful load for a MIDI note: the call returns true, the
    note reports a sample with the file's path, its slot points at a new
    buffer holding what the decoder produced, a note-indexed sound for the
    note with that buffer is registered, the buffer the slot held before
    is deleted, and the slots of the other notes are as they were. *)
Theorem loadSampleForMidiNote_success {F : Type} `{FloatOps F}
    (fs : FileSys F) (n : Z) (file : string) (p : SamplerPlugin F)
    (reader : AudioFormatReader F) :
  0 <= n < 128 ->
  length (midiNoteSamples p) = 128%nat ->
  createReaderFor fs file = Some reader ->
  let r := loadSampleForMidiNote fs n file p in
  fst r = true
  /\ hasSampleForMidiNote (snd r) n = true
  /\ bs_filePath (getMidiNoteSample (snd r) n) = file
  /\ (exists a,
        bs_sampleBuffer (getMidiNoteSample (snd r) n) = Some a
        /\ heap_read (heap (snd r)) a = Some (rd_buffer reader)
        /\ mkSound (-1) (Some a) (rd_sampleRate reader) n ∈ sounds (synth (snd r)))
  /\ (forall a0, bs_sampleBuffer (getMidiNoteSample p n) = Some a0 ->
        (a0 < nextAddr (heap p))%nat -> heap_read (heap (snd r)) a0 = None)
  /\ (forall m, m <> n -> getMidiNoteSample (snd r) m = getMidiNoteSample p m).
Proof.
  intros Hn Hlen Hrd r. subst r.
  rewrite (loadSampleForMidiNote_fields fs n file p Hn), Hrd. cbv zeta.
  destruct (clearMidiNoteSample_in n p Hn) as (Hs1 & _ & _ & _).
  set (p1 := clearMidiNoteSample n p) in *.
  assert (Hlen1 : length (midiNoteSamples p1) = 128%nat)
    by (rewrite Hs1, length_insert; exact Hlen).
  assert (Hin1 : in_range n (length (midiNoteSamples p1)) = true)
    by (rewrite Hlen1; apply in_range_128, Hn).
  assert (Hheap1 : heap p1 = match bs_sampleBuffer (getMidiNoteSample p n) with
                             | Some a0 => heap_delete a0 (heap p)
                             | None => heap p
                             end).
  { subst p1. unfold clearMidiNoteSample.
    destruct ((0 <=? n) && (n <? 128)) eqn:Hg; [|lia].
    unfold ButtonSample_clear. simpl.
    destruct (bs_sampleBuffer (getMidiNoteSample p n)); reflexivity. }
  cbn [fst snd]. split; [reflexivity|]. split.
  { unfold hasSampleForMidiNote, getMidiNoteSample. cbn [midiNoteSamples].
    rewrite length_insert, Hin1, Array_get_insert_eq by exact Hin1. reflexivity. }
  split.
  { unfold getMidiNoteSample. cbn [midiNoteSamples].
    rewrite Array_get_insert_eq by exact Hin1. reflexivity. }
  split.
  { exists (nextAddr (heap p1)). split; [|split].
    - unfold getMidiNoteSample. cbn [midiNoteSamples].
      rewrite Array_get_insert_eq by exact Hin1. reflexivity.
    - cbn [heap]. unfold heap_read, heap_new. simpl. apply lookup_insert_eq.
    - cbn [synth]. unfold addSound. simpl. apply elem_of_app. right.
      apply list_elem_of_singleton. reflexivity. }
  split.
  { intros a0 Ha0 Hlt. cbn [heap]. unfold heap_read, heap_new. simpl.
    rewrite Hheap1, Ha0. simpl.
    rewrite lookup_insert_ne by lia. apply lookup_delete_eq. }
  intros m Hm. unfold getMidiNoteSample. cbn [midiNoteSamples].
  rewrite Array_get_insert_ne by (lia || congruence).
  rewrite Hs1. apply Array_get_insert_ne; [lia | congruence].
Qed.

Lemma loadSampleForMidiNote_success_witness :
  hasSampleForMidiNote
    (snd (loadSampleForMidiNote demo_fs 60 "kick.wav" (SamplerPlugin_new demo_rate))) 60
  = true.
Proof.
  refine (proj1 (proj2 (@loadSampleForMidiNote_success Q Q_FloatOps demo_fs 60 "kick.wav"
                          (SamplerPlugin_new demo_rate) demo_reader _ _ _))).
  - lia.
  - reflexivity.
  - reflexivity.
Defined.

(** X23.  A right-click on a pad clears the pad's own slot only: the 128
    note slots, where Sample Learn and the import put their samples, and
    the note-indexed sounds stay as they are, so it cannot remove such a
    sample. *)
Theorem right_click_keeps_note_samples {F : Type} `{FloatOps F}
    (i : Z) (w : World F) :
  let w' := mouseDown i true w in
  midiNoteSamples (plugin w') = midiNoteSamples (plugin w)
  /\ (forall n, hasSampleForMidiNote (plugin w') n = hasSampleForMidiNote (plugin w) n)
  /\ (forall s, snd_buttonIndex s = -1 ->
        (s ∈ sounds (synth (plugin w')) <-> s ∈ sounds (synth (plugin w))))
  /\ editor w' = editor w.
Proof.
  intros w'. subst w'. unfold mouseDown. simpl.
  destruct (decide (0 <= i < 16)) as [Hi|Hi].
  - destruct (clearSample_in i (plugin w) Hi) as (_ & _ & Hs).
    split; [exact Hs|]. split; [|split; [|reflexivity]].
    + intros n. unfold hasSampleForMidiNote, getMidiNoteSample. rewrite Hs. reflexivity.
    + intros s Hidx. unfold clearSample.
      destruct ((0 <=? i) && (i <? 16)) eqn:Hg; [|lia]. cbn [synth].
      destruct (removeSounds_spec (fun s => snd_buttonIndex s =? i) (synth (plugin w)))
        as (_ & Hmem).
      rewrite Hmem. rewrite Hidx. destruct (-1 =? i) eqn:Hm; [lia | tauto].
  - rewrite clearSample_out by exact Hi.
    split; [reflexivity|]. split; [reflexivity|]. split; [tauto | reflexivity].
Qed.

(** X24.  The import takes a pad's note from the document as it is.  After
    a document whose last "buttons" entry binds pad [i] to [m], the pad is
    bound to [m], whatever integer [m] is; for a negative [m] that is not
    a multiple of 12 the pad's label has no defined note name. *)
Theorem import_binds_pad_without_range_check {F : Type} `{FloatOps F}
    (fs : FileSys F) (w : World F) (version : string) (oneShot : option bool)
    (items : list (JsonItem ButtonObj)) (notes : option (list (JsonItem NoteObj)))
    (i m : Z) (path : string) :
  0 <= i < 16 ->
  length (noteMapping (plugin w)) = 16%nat ->
  let d := mkDocument version oneShot
             (Some (items ++ [Object (mkButtonObj i m path)])) notes in
  let w' := snd (loadAllSamplesFromJson fs (JsonObject d) w) in
  getNoteMapping (plugin w') i = m
  /\ (m < 0 -> Z.rem m 12 <> 0 -> getNoteName (getNoteMapping (plugin w') i) = None).
Proof.
  intros Hi Hlen d w'.
  assert (Hmap : getNoteMapping (plugin w') i = m).
  { subst w' d. unfold loadAllSamplesFromJson. cbn [doc_oneShotMode doc_buttons
                                                     doc_midiNotes].
    set (p0 := foldl import_button (plugin w) items).
    assert (Hp0 : length (noteMapping p0) = 16%nat).
    { subst p0. apply (foldl_preserves (fun q => length (noteMapping q) = 16%nat));
        [|exact Hlen]. intros a x Ha. apply import_button_length, Ha. }
    rewrite foldl_app. cbn [foldl]. fold p0.
    set (p1 := import_button p0 (Object (mkButtonObj i m path))).
    assert (Hp1 : getNoteMapping p1 i = m).
    { subst p1. unfold import_button. cbn [bo_index bo_midiNote].
      destruct ((0 <=? i) && (i <? 16)) eqn:Hg; [|lia].
      unfold getNoteMapping at 1.
      destruct (setNoteMapping_in i m p0 Hi) as (-> & _).
      rewrite (getNoteMapping_set p0 i m i Hi Hp0).
      destruct (decide (i = i)); [reflexivity | congruence]. }
    set (st := match notes with
               | Some nitems => foldl (import_note fs) (p1, 0, 0) nitems
               | None => (p1, 0, 0)
               end).
    assert (Hst : noteMapping (fst (fst st)) = noteMapping p1).
    { subst st. destruct notes as [nitems|]; [|reflexivity].
      apply (foldl_preserves (fun st => noteMapping (fst (fst st)) = noteMapping p1));
        [|reflexivity].
      intros a x Ha. rewrite import_note_mapping. exact Ha. }
    destruct oneShot as [b|]; destruct st as [[p2 l] f]; cbn [snd plugin];
      unfold getNoteMapping in *; simpl in Hst; rewrite Hst; exact Hp1. }
  split; [exact Hmap|]. intros Hneg Hrem. rewrite Hmap.
  destruct (getNoteName m) as [name|] eqn:Hname; [|reflexivity].
  assert (Hsome : is_Some (getNoteName m)) by eauto.
  apply getNoteName_defined in Hsome.
  assert (Z.rem m 12 <= 0) by (apply Z.rem_nonpos; lia). lia.
Qed.

Lemma import_binds_pad_without_range_check_witness :
  getNoteName
    (getNoteMapping
       (plugin (snd (loadAllSamplesFromJson demo_fs
                       (JsonObject (mkDocument "1.0" None
                                      (Some ([] ++ [Object (mkButtonObj 3 (-1) EmptyString)]))
                                      None))
                       (World_new demo_rate)))) 3)
  = None.
Proof.
  refine (proj2 (@import_binds_pad_without_range_check Q Q_FloatOps demo_fs
                   (World_new demo_rate) "1.0" None [] None 3 (-1) EmptyString _ _) _ _).
  - lia.
  - reflexivity.
  - lia.
  - discriminate.
Defined.

(** ** A block with nothing to play, and what the export leaves out *)

Section IdleBlock.
Context {F : Type} `{FloatOps F}.

Lemma stopNote_silent (o : bool) (vel : F) (tail : bool) (v : MidiSamplerVoice F) :
  v_isPlaying v = false -> v_isPlaying (stopNote o vel tail v) = false.
Proof. intros Hv. unfold stopNote. destruct o, tail; simpl; auto. Qed.

Lemma handleMidiEvent_silent (steal : StealPolicy F) (o : bool) (m : MidiMessage)
    (s : Synthesiser F) :
  isNoteOn m = false ->
  Forall (fun v => v_isPlaying v = false) (voices s) ->
  Forall (fun v => v_isPlaying v = false) (voices (handleMidiEvent steal o m s))
  /\ sounds (handleMidiEvent steal o m s) = sounds s.
Proof.
  intros Hm Hs. unfold handleMidiEvent. rewrite Hm.
  destruct (isNoteOff m); [|destruct (isAllNotesOff m)]; simpl;
    (split; [|reflexivity]); try exact Hs.
  - apply Forall_fmap. eapply Forall_impl; [exact Hs|]. intros v Hv. simpl.
    unfold noteOff_voice. destruct (_ && _); [|exact Hv].
    destruct (v_currentlyPlayingSound v); [|exact Hv].
    destruct (_ && _); [apply stopNote_silent, Hv | exact Hv].
  - apply Forall_fmap. eapply Forall_impl; [exact Hs|]. intros v Hv. simpl.
    destruct (_ || _); [apply stopNote_silent, Hv | exact Hv].
Qed.

Lemma renderVoices_silent (h : Heap F) (start n : Z) (out : AudioBuffer F) :
  forall vs : list (MidiSamplerVoice F),
    Forall (fun v => v_isPlaying v = false) vs ->
    renderVoices h start n vs out = Some (vs, out).
Proof.
  induction 1 as [|v vs Hv Hvs IH]; simpl; [reflexivity|].
  unfold renderNextBlock. rewrite Hv. simpl.
  destruct (v_sampleBuffer v); rewrite IH; reflexivity.
Qed.

Lemma loadSample_tables (fs : FileSys F) (i : Z) (file : string) (p : SamplerPlugin F) :
  noteMapping (snd (loadSample fs i file p)) = noteMapping p
  /\ midiNoteSamples (snd (loadSample fs i file p)) = midiNoteSamples p.
Proof.
  destruct (decide (0 <= i < 16)) as [Hi|Hi];
    [|rewrite loadSample_out by exact Hi; split; reflexivity].
  rewrite (loadSample_fields fs i file p Hi).
  destruct (clearSample_in i p Hi) as (_ & Hm & Hs).
  destruct (createReaderFor fs file); simpl; split; assumption.
Qed.

End IdleBlock.

(** X25.  A block with no voice playing and no note-on among its messages
    never faults, whatever the voices point at: the output buffer comes
    back exactly as it went in (the plugin does not clear it), the queue of
    collected messages is emptied, and the voices stay silent. *)
Theorem idle_block_passes_buffer_through {F : Type} `{FloatOps F}
    (steal : StealPolicy F) (oneShot : bool) (buffer : AudioBuffer F) (frames : Z)
    (ms : list MidiMessage) (p : SamplerPlugin F) :
  Forall (fun v => v_isPlaying v = false) (voices (synth p)) ->
  Forall (fun m => isNoteOn m = false) (ms ++ midiCollector p) ->
  exists p',
    processBlock steal oneShot buffer frames ms p = Some (p', buffer)
    /\ midiCollector p' = []
    /\ Forall (fun v => v_isPlaying v = false) (voices (synth p'))
    /\ sounds (synth p') = sounds (synth p)
    /\ heap p' = heap p.
Proof.
  intros Hvs Hms. unfold processBlock.
  set (s1 := foldl (fun s m => handleMidiEvent steal oneShot m s) (synth p)
                   (ms ++ midiCollector p)).
  assert (Hs1 : Forall (fun v => v_isPlaying v = false) (voices s1)
                /\ sounds s1 = sounds (synth p)).
  { subst s1. revert Hms. generalize (ms ++ midiCollector p) as l.
    assert (Hgen : forall (l : list MidiMessage) (s : Synthesiser F),
              Forall (fun m => isNoteOn m = false) l ->
              Forall (fun v => v_isPlaying v = false) (voices s) ->
              Forall (fun v => v_isPlaying v = false)
                     (voices (foldl (fun s m => handleMidiEvent steal oneShot m s) s l))
              /\ sounds (foldl (fun s m => handleMidiEvent steal oneShot m s) s l)
                 = sounds s).
    { induction l as [|m l IH]; intros s Hl Hs; simpl; [split; [exact Hs | reflexivity]|].
      inversion Hl; subst.
      destruct (handleMidiEvent_silent steal oneShot m s) as (Hv1 & Hsn1); try assumption.
      destruct (IH (handleMidiEvent steal oneShot m s)) as (Hv2 & Hsn2); try assumption.
      split; [exact Hv2 | congruence]. }
    intros l Hl. apply Hgen; assumption. }
  destruct Hs1 as (Hsil & Hsn).
  rewrite (renderVoices_silent _ _ _ _ _ Hsil).
  eexists. split; [reflexivity|]. simpl. repeat split; assumption.
Qed.

Lemma idle_block_passes_buffer_through_witness :
  exists p',
    processBlock no_steal false (silence 4) 4 [MidiNoteOff 1 60 0]
                 (SamplerPlugin_new demo_rate) = Some (p', silence 4)
    /\ midiCollector p' = [].
Proof.
  destruct (@idle_block_passes_buffer_through Q Q_FloatOps no_steal false (silence 4) 4
              [MidiNoteOff 1 60 0] (SamplerPlugin_new demo_rate))
    as (p' & Hrun & Hq & _).
  - apply Forall_replicate. reflexivity.
  - repeat constructor.
  - exists p'. split; assumption.
Defined.

(** X26.  The exported document is built from the pad bindings and the 128
    note slots alone: loading a file into a pad's own slot, or clearing
    it, changes nothing in the document, so a sample held in a pad slot is
    never exported. *)
Theorem export_ignores_pad_slots {F : Type} `{FloatOps F}
    (fs : FileSys F) (i : Z) (file : string) (w : World F) :
  exportAllSettings (with_plugin (snd (loadSample fs i file (plugin w))) w)
    = exportAllSettings w
  /\ exportAllSettings (with_plugin (clearSample i (plugin w)) w) = exportAllSettings w.
Proof.
  destruct (loadSample_tables fs i file (plugin w)) as (Hm & Hs).
  assert (Hc : noteMapping (clearSample i (plugin w)) = noteMapping (plugin w)
               /\ midiNoteSamples (clearSample i (plugin w))
                  = midiNoteSamples (plugin w)).
  { destruct (decide (0 <= i < 16)) as [Hi|Hi];
      [|rewrite clearSample_out by exact Hi; split; reflexivity].
    destruct (clearSample_in i (plugin w) Hi) as (_ & Hcm & Hcs). split; assumption. }
  destruct Hc as (Hcm & Hcs).
  unfold exportAllSettings, with_plugin, hasSampleForMidiNote, getMidiNoteSample,
    getNoteMapping.
  cbn [plugin editor]. rewrite Hm, Hs, Hcm, Hcs. split; reflexivity.
Qed.

(** ** A restored state and the sound of the restored pad *)

Section RestoreSound.
Context {F : Type} `{FloatOps F}.

Lemma restore_emptied_loop (fs : FileSys F) (b : XmlButton) (p : SamplerPlugin F)
    (a : nat) (k : nat) :
  0 <= xb_index b < 16 ->
  xb_filePath b = EmptyString ->
  length (buttons p) = 16%nat ->
  bs_sampleBuffer (getButton p (xb_index b)) = Some a ->
  let q := Nat.iter (S k) (restore_button fs b) p in
  length (buttons q) = 16%nat
  /\ sounds (synth q) = sounds (synth p)
  /\ getButton q (xb_index b) = ButtonSample_new
  /\ heap q = heap_delete a (heap p).
Proof.
  intros Hi Hpath Hb Hbuf.
  assert (Hstep : forall q, length (buttons q) = 16%nat ->
            restore_button fs b q = restore_emptied b q
            /\ length (buttons (restore_emptied b q)) = 16%nat
            /\ getButton (restore_emptied b q) (xb_index b) = ButtonSample_new).
  { intros q Hq. rewrite (restore_button_unfold fs b q Hi Hq), Hpath.
    split; [reflexivity|]. unfold restore_emptied, getButton. cbn [buttons].
    rewrite length_insert. split; [exact Hq|].
    apply Array_get_insert_eq. rewrite Hq. apply in_range_16, Hi. }
  induction k as [|k IH].
  - simpl. destruct (Hstep p Hb) as (-> & Hlen & Hslot).
    split; [exact Hlen|]. split; [reflexivity|]. split; [exact Hslot|].
    unfold restore_emptied, ButtonSample_clear. simpl. rewrite Hbuf. reflexivity.
  - destruct IH as (Hlen & Hsn & Hslot & Hheap).
    set (q := Nat.iter (S k) (restore_button fs b) p) in *.
    change (Nat.iter (S (S k)) (restore_button fs b) p) with (restore_button fs b q).
    destruct (Hstep q Hlen) as (-> & Hlen' & Hslot').
    split; [exact Hlen'|]. split; [exact Hsn|]. split; [exact Hslot'|].
    unfold restore_emptied, ButtonSample_clear. simpl. rewrite Hslot. simpl.
    exact Hheap.
Qed.

End RestoreSound.

(** X27.  Restoring a saved state whose first "Button" child names a loaded
    pad and no file deletes the pad's buffer and empties its slot but
    leaves the pad's sound registered with the synthesiser: the sound
    still points at the deleted buffer. *)
Theorem setStateInformation_leaves_dangling_pad_sound {F : Type} `{FloatOps F}
    (fs : FileSys F) (steal : StealPolicy F) (defaultRate : F) (w : World F)
    (x : XmlElement) (b : XmlButton) (s : ButtonSampleSound F) :
  reachable fs steal defaultRate w ->
  xml_tag x = "SamplerState" ->
  getChildByName_Button (xml_children x) = Some b ->
  xb_filePath b = EmptyString ->
  s ∈ sounds (synth (plugin w)) ->
  snd_buttonIndex s = xb_index b ->
  bs_isLoaded (getButton (plugin w) (xb_index b)) = true ->
  let p' := setStateInformation fs (Some x) (plugin w) in
  s ∈ sounds (synth p')
  /\ bs_isLoaded (getButton p' (xb_index b)) = false
  /\ exists a, snd_sampleBuffer s = Some a
               /\ is_Some (heap_read (heap (plugin w)) a)
               /\ heap_read (heap p') a = None.
Proof.
  intros Hreach Htag Hfirst Hpath Hs Hidx Hl p'. subst p'.
  destruct (reachable_good fs steal defaultRate w Hreach) as ((Hb & _) & Hinv).
  destruct (inv_sounds _ Hinv s Hs) as (Hv & _ & Hbuf).
  assert (Hne : snd_buttonIndex s <> -1).
  { intros Hm. unfold getButton, Array_get in Hl. rewrite <- Hidx, Hm in Hl.
    unfold in_range in Hl. simpl in Hl. discriminate. }
  assert (Hown : owner_of_sound s = PadOwner (xb_index b)).
  { unfold owner_of_sound. destruct (snd_buttonIndex s =? -1) eqn:Hm; [lia|].
    rewrite Hidx. reflexivity. }
  rewrite Hown in Hv, Hbuf. simpl in Hv, Hbuf. specialize (Hbuf Hl).
  destruct (inv_slots _ Hinv (PadOwner (xb_index b)) Hv)
    as [Hnew | (_ & a & Ha & Hlive & _)].
  { simpl in Hnew. rewrite Hnew in Hl. discriminate. }
  simpl in Ha.
  destruct (restore_emptied_loop fs b (plugin w) a 15 Hv Hpath Hb Ha)
    as (_ & Hsn & Hslot & Hheap).
  unfold setStateInformation. rewrite Htag, Hfirst. simpl String.eqb. cbv iota.
  change (Nat.iter 16 (fun q => restore_button fs b q) (plugin w))
    with (Nat.iter 16 (restore_button fs b) (plugin w)).
  rewrite Hsn, Hslot, Hheap. split; [exact Hs|]. split; [reflexivity|].
  exists a. split; [congruence|]. split; [exact Hlive|].
  unfold heap_read, heap_delete. simpl. apply lookup_delete_eq.
Qed.

Lemma setStateInformation_leaves_dangling_pad_sound_witness :
  exists a, snd_sampleBuffer (mkSound 3 (Some 0%nat) demo_rate 50) = Some a
            /\ is_Some (heap_read (heap (plugin demo_pad)) a)
            /\ heap_read (heap (setStateInformation demo_fs (Some demo_state_pad3)
                                  (plugin demo_pad))) a = None.
Proof.
  refine (proj2 (proj2 (@setStateInformation_leaves_dangling_pad_sound Q Q_FloatOps
                          demo_fs no_steal demo_rate demo_pad demo_state_pad3
                          (mkXmlButton 3 EmptyString 40)
                          (mkSound 3 (Some 0%nat) demo_rate 50)
                          demo_pad_reachable _ _ _ _ _ _))).
  - reflexivity.
  - reflexivity.
  - reflexivity.
  - replace (sounds (synth (plugin demo_pad)))
      with [mkSound 3 (Some 0%nat) demo_rate 50] by (vm_compute; reflexivity).
    apply list_elem_of_singleton. reflexivity.
  - reflexivity.
  - reflexivity.
Defined.
